(** * Archon document ingestion: [process_document] of run_processing.py

    A shallow embedding of the graph construction and cross-reference
    resolution stage, and the properties of it that the specification
    states.  The command line of the same file ([main]) and the two
    helpers of the database page (streamlit_pages/database.py) follow, with
    further properties of the code.

    Conventions of the embedding.
    - Python dictionaries that the code only reads and writes by key are
      [gmap]s; dictionaries that the code also iterates are insertion-ordered
      association lists ([dict_set] keeps the position of a key that is
      assigned again, as Python does); sets are [gset]s.
    - A call of a collaborator (the store [db], the [embedder]) that raises
      is a result [None] (or [false] for a call whose value is unused).
    - The collaborators are oracles of the history of the calls made so far
      in the run, so any sequence of answers and failures can be described.
    - Chunk identifiers are strings; the only falsy one is the empty string.
      Storage identifiers are integers; the only falsy one is zero.
    - Section titles are strings, so [map(str, titles)] leaves them as they
      are.
    - The text read from the file is the list of its code points, since
      [strip] depends on them. The other strings (identifiers, titles,
      paths, messages) are only compared, joined, searched and split at
      ASCII separators; they are Rocq strings.
    - Python does not fix the order in which a set is iterated; the pending
      patterns are visited in the order of [elements].
    - Of the lines the code prints, the summary lines that carry the
      counters of the run are kept ([log_line]). *)

From Stdlib Require Import QArith Ascii.
From stdpp Require Import gmap strings list sorting.

Local Open Scope string_scope.
Local Open Scope Z_scope.

(** ** Python helpers *)

Module Py.

(** Truthiness of the values the code tests with [if x] / [if not x]. *)
Definition truthy_str (s : string) : bool := negb (String.eqb s "").
Definition truthy_int (z : Z) : bool := negb (Z.eqb z 0).

(** [sep.join(items)] is [String.concat sep items]. *)
Definition join (sep : string) (items : list string) : string :=
  String.concat sep items.

(** Insertion-ordered dictionary: [d[k] = v]. *)
Fixpoint dict_set {K V : Type} `{EqDecision K}
    (k : K) (v : V) (d : list (K * V)) : list (K * V) :=
  match d with
  | [] => [(k, v)]
  | (k', v') :: d' =>
      if decide (k = k') then (k, v) :: d' else (k', v') :: dict_set k v d'
  end.

(** [d.get(k)]. *)
Fixpoint dict_get {K V : Type} `{EqDecision K}
    (k : K) (d : list (K * V)) : option V :=
  match d with
  | [] => None
  | (k', v') :: d' => if decide (k = k') then Some v' else dict_get k d'
  end.

(** [d.values()]. *)
Definition dict_values {K V : Type} (d : list (K * V)) : list V := d.*2.

(** The text of a file, as [f.read()] gives it: its code points. *)
Definition text : Type := list N.

(** The code points that [str.strip()] removes, which are those on which
    [str.isspace] holds: the ASCII controls U+0009 to U+000D and U+001C to
    U+001F, the space, U+0085, U+00A0, U+1680, U+2000 to U+200A, U+2028,
    U+2029, U+202F, U+205F and U+3000. *)
Definition is_space (c : N) : bool :=
  ((0x9 <=? c) && (c <=? 0xD) || (0x1C <=? c) && (c <=? 0x20)
   || (c =? 0x85) || (c =? 0xA0) || (c =? 0x1680)
   || (0x2000 <=? c) && (c <=? 0x200A)
   || (c =? 0x2028) || (c =? 0x2029) || (c =? 0x202F)
   || (c =? 0x205F) || (c =? 0x3000))%N.

(** [not text.strip()]: nothing is left once the white space at both ends
    is removed, which is to say that every code point is white space. *)
Definition is_blank (markdown_text : text) : bool :=
  forallb is_space markdown_text.

(** *** [pathlib.Path(p).stem] (POSIX flavour, Python up to 3.13)

    The components of a path are its slash-separated pieces without the
    empty ones and the single dots; the name is the last component, and
    the stem is the name up to its last dot, when that dot is neither the
    first nor the last character of the name. *)
Fixpoint components_aux (cur : string) (s : string) : list string :=
  match s with
  | EmptyString => [cur]
  | String c s' =>
      if Ascii.eqb c "/"%char then cur :: components_aux "" s'
      else components_aux (cur ++ String c "") s'
  end.

Definition components (p : string) : list string :=
  filter (λ x, x ≠ "" ∧ x ≠ ".") (components_aux "" p).

Definition name (p : string) : string := List.last (components p) "".

(** [s.rfind(".")] as the position of the last dot, if any. *)
Fixpoint rfind_dot (s : string) (i : nat) : option nat :=
  match s with
  | EmptyString => None
  | String c s' =>
      match rfind_dot s' (S i) with
      | Some j => Some j
      | None => if Ascii.eqb c "."%char then Some i else None
      end
  end.

Definition stem (p : string) : string :=
  let nm := name p in
  match rfind_dot nm 0 with
  | Some i =>
      if ((0 <? i) && (i <? String.length nm - 1))%nat
      then String.substring 0 i nm else nm
  | None => nm
  end.

End Py.

(** ** Data model *)

(** An element of [related_sections]: a list of titles, a pre-joined
    string, or a value of any other shape. *)
Inductive related_item :=
| RelPath (titles : list string)
| RelStr (s : string)
| RelOther.

(** The [metadata] dictionary of an enriched chunk. A field that is [None]
    is a key that is absent; [md_extra] holds the keys the pipeline does
    not look at. *)
Record metadata := {
  hierarchy_path : option (list string);
  section_type : option string;
  content_type : option string;
  document_position : option Z;
  parent_id : option string;
  related_sections : list related_item;
  link_count : option Z;
  contains_links : option bool;
  md_extra : list (string * string)
}.

(** An enriched chunk; [chunk_id] and [chunk_metadata] are the keys ["id"]
    and ["metadata"], which may be missing. *)
Record chunk := {
  chunk_id : option string;
  chunk_metadata : option metadata;
  chunk_type : option string;
  chunk_title : option string;
  chunk_content : option string;
  chunk_level : option Z
}.

(** The [metadata] payload of a node record. A node record without a
    [metadata] key behaves as one whose payload has no key at all. *)
Record payload := {
  original_id : option string;
  embedding_generated : option bool;
  p_related_sections : list related_item;
  p_link_count : option Z;
  p_contains_links : option bool;
  p_extra : list (string * string)
}.

Record node := {
  document_id : string;
  node_type : string;
  title : option string;
  content : string;
  level : option Z;
  path : string;
  n_section_type : string;
  n_content_type : string;
  n_document_position : option Z;
  node_metadata : payload;
  embedding : option (list Q)
}.

(** A row returned by [find_nodes_by_path]. *)
Record stored_node := {
  sn_id : option Z;
  sn_document_id : option string;
  sn_path : option string
}.

(** The argument of [insert_reference]. *)
Record reference := {
  source_node_id : Z;
  target_node_id : Z;
  reference_type : string;
  strength : Q
}.

(** ** Collaborators *)

(** The calls made to the store and to the embedding provider. *)
Inductive call :=
| FindNodesByPath (path_pattern : string) (max_results : Z)
| GenerateNodeEmbeddings (nodes : list node)
| DeleteNodesByDocumentId (doc : string)
| InsertNode (n : node)
| UpdateNodeParent (node_id parent : Z)
| InsertReference (r : reference).

(** A call together with whether it returned ([true]) or raised. *)
Record event := { ev_call : call; ev_ok : bool }.

Definition returned (c : call) : event := {| ev_call := c; ev_ok := true |}.
Definition raised (c : call) : event := {| ev_call := c; ev_ok := false |}.

(** The summary lines of the run's output that carry its counters. *)
Inductive log_line :=
| NoValidNodes
| FoundExactReferences (n : nat)
| IdentifiedFuzzyPaths (n : nat)
| FuzzyLookupsComplete (found errors : nat)
| NodeInsertionComplete (inserted failed : nat)
| RelationshipsComplete (parent_links_set parent_link_errors
                         references_created reference_errors : nat).

(** What a run yields: the value returned, the calls made to the store and
    the embedder (most recent first), and the summary lines printed (most
    recent first). *)
Record run := {
  result : option string;
  calls : list event;
  stdout : list log_line
}.

Section Pipeline.

(** The parsed document and the hierarchy tree are opaque to this stage. *)
Context {ParsedDoc DocTree : Type}.

(** The world [process_document] runs in. The store and the embedder see
    the history of calls made so far (most recent first). *)
Record collaborators := {
  path_exists : string → bool;
  components_initialize : bool;
  read_text : string → option Py.text;
  parse_document : Py.text → option ParsedDoc;
  build_hierarchy_tree : ParsedDoc → option (option DocTree);
  create_chunks : DocTree → option (list chunk);
  process_chunks : list chunk → DocTree → option (list chunk);
  find_nodes_by_path : list event → string → Z → option (list stored_node);
  generate_node_embeddings : list event → list node → option (list node);
  delete_nodes_by_document_id : list event → string → option Z;
  insert_node : list event → node → option Z;
  update_node_parent : list event → Z → Z → bool;
  insert_reference : list event → reference → bool
}.

End Pipeline.

Arguments collaborators : clear implicits.

(** ** Phase 4, first loop: prepare the node records (lines 159-237) *)

Definition unknown_path : string := "Unknown Path".

(** [" > ".join(map(str, hierarchy_path)) if hierarchy_path else "Unknown Path"] *)
Definition path_str (md : metadata) : string :=
  match hierarchy_path md with
  | Some (t :: ts) => Py.join " > " (t :: ts)
  | _ => unknown_path
  end.

(** The metadata of the chunk without the keys promoted to columns, with
    [original_id], [link_count] and [contains_links] set. *)
Definition metadata_payload (original : string) (md : metadata) : payload :=
  {| original_id := Some original;
     embedding_generated := None;
     p_related_sections := related_sections md;
     p_link_count := link_count md;
     p_contains_links := contains_links md;
     p_extra := md_extra md |}.

Definition node_data (effective_document_id original : string)
    (c : chunk) (md : metadata) : node :=
  {| document_id := effective_document_id;
     node_type := default "unknown" (chunk_type c);
     title := chunk_title c;
     content := default "" (chunk_content c);
     level := chunk_level c;
     path := path_str md;
     n_section_type := default "unknown" (section_type md);
     n_content_type := default "text" (content_type md);
     n_document_position := document_position md;
     node_metadata := metadata_payload original md;
     embedding := None |}.

Record mapper_state := {
  db_nodes_to_insert : list node;
  original_id_to_chunk_map : list (string * chunk);
  path_to_original_id_map : gmap string string
}.

Definition mapper_init : mapper_state :=
  {| db_nodes_to_insert := [];
     original_id_to_chunk_map := [];
     path_to_original_id_map := ∅ |}.

(** Whether the chunk writes its path into the index (line 232). *)
Definition registers (p original : string) : bool :=
  bool_decide (p ≠ unknown_path) && Py.truthy_str original.

(** The body of [for chunk in enriched_chunks]. *)
Definition map_chunk (effective_document_id : string)
    (st : mapper_state) (c : chunk) : mapper_state :=
  match chunk_id c, chunk_metadata c with
  | Some original, Some md =>
      {| db_nodes_to_insert :=
           db_nodes_to_insert st ++ [node_data effective_document_id original c md];
         original_id_to_chunk_map :=
           Py.dict_set original c (original_id_to_chunk_map st);
         path_to_original_id_map :=
           if registers (path_str md) original
           then <[path_str md := original]> (path_to_original_id_map st)
           else path_to_original_id_map st |}
  | _, _ => st
  end.

Definition node_mapper (effective_document_id : string)
    (enriched_chunks : list chunk) : mapper_state :=
  foldl (map_chunk effective_document_id) mapper_init enriched_chunks.

(** ** Phase 4: exact references and fuzzy paths (lines 243-269) *)

Record resolver_state := {
  exact_resolved_references : list (string * string);
  paths_needing_fuzzy_lookup : gset string
}.

Definition resolver_init : resolver_state :=
  {| exact_resolved_references := []; paths_needing_fuzzy_lookup := ∅ |}.

(** The string key of a mention; [None] for a mention that is skipped. *)
Definition path_key_str (related_path_item : related_item) : option string :=
  match related_path_item with
  | RelPath titles => Some (Py.join " > " titles)
  | RelStr s => Some s
  | RelOther => None
  end.

(** [chunk_data.get("metadata", {}).get("related_sections", [])] *)
Definition related_sections_of (chunk_data : chunk) : list related_item :=
  match chunk_metadata chunk_data with
  | Some md => related_sections md
  | None => []
  end.

Definition add_fuzzy (key : string) (st : resolver_state) : resolver_state :=
  {| exact_resolved_references := exact_resolved_references st;
     paths_needing_fuzzy_lookup := paths_needing_fuzzy_lookup st ∪ {[key]} |}.

(** The body of [for related_path_item in related_sections]. *)
Definition resolve_mention (index : gmap string string) (source : string)
    (st : resolver_state) (related_path_item : related_item) : resolver_state :=
  match path_key_str related_path_item with
  | None => st
  | Some key =>
      match index !! key with
      | Some target =>
          if Py.truthy_str target then
            if decide (source ≠ target) then
              {| exact_resolved_references :=
                   exact_resolved_references st ++ [(source, target)];
                 paths_needing_fuzzy_lookup := paths_needing_fuzzy_lookup st |}
            else st
          else add_fuzzy key st
      | None => add_fuzzy key st
      end
  end.

Definition resolve_chunk (index : gmap string string)
    (st : resolver_state) (entry : string * chunk) : resolver_state :=
  foldl (resolve_mention index entry.1) st (related_sections_of entry.2).

Definition resolve_references (index : gmap string string)
    (chunk_map : list (string * chunk)) : resolver_state :=
  foldl (resolve_chunk index) resolver_init chunk_map.

Section Phases.

Context {ParsedDoc DocTree : Type} (env : collaborators ParsedDoc DocTree).

(** ** Phase 4: batch fuzzy lookups (lines 278-311) *)

Record fuzzy_state := {
  fuzzy_path_to_nodes_map : gmap string (list stored_node);
  fuzzy_lookup_errors : nat;
  fuzzy_calls : list event
}.

Definition wildcard (path_pattern : string) : string :=
  "%" ++ path_pattern ++ "%".

(** [node.get("document_id") == effective_document_id] *)
Definition same_document (effective_document_id : string)
    (n : stored_node) : Prop :=
  sn_document_id n = Some effective_document_id.

#[global] Instance same_document_dec d n : Decision (same_document d n).
Proof. unfold same_document. apply _. Defined.

(** The body of [for path_pattern in paths_needing_fuzzy_lookup]. *)
Definition fuzzy_lookup (effective_document_id : string)
    (st : fuzzy_state) (path_pattern : string) : fuzzy_state :=
  let c := FindNodesByPath (wildcard path_pattern) 10 in
  match find_nodes_by_path env (fuzzy_calls st) (wildcard path_pattern) 10 with
  | Some target_nodes_raw =>
      {| fuzzy_path_to_nodes_map :=
           match target_nodes_raw with
           | [] => fuzzy_path_to_nodes_map st
           | _ =>
               match filter (same_document effective_document_id)
                            target_nodes_raw with
               | [] => fuzzy_path_to_nodes_map st
               | filtered_target_nodes =>
                   <[path_pattern := filtered_target_nodes]>
                     (fuzzy_path_to_nodes_map st)
               end
           end;
         fuzzy_lookup_errors := fuzzy_lookup_errors st;
         fuzzy_calls := returned c :: fuzzy_calls st |}
  | None =>
      {| fuzzy_path_to_nodes_map := fuzzy_path_to_nodes_map st;
         fuzzy_lookup_errors := S (fuzzy_lookup_errors st);
         fuzzy_calls := raised c :: fuzzy_calls st |}
  end.

Definition fuzzy_init (history : list event) : fuzzy_state :=
  {| fuzzy_path_to_nodes_map := ∅;
     fuzzy_lookup_errors := 0;
     fuzzy_calls := history |}.

Definition fuzzy_lookups (effective_document_id : string)
    (history : list event) (patterns : list string) : fuzzy_state :=
  foldl (fuzzy_lookup effective_document_id) (fuzzy_init history) patterns.

(** ** Phase 4: insert the nodes (lines 343-407) *)

Record insertion_state := {
  original_id_to_db_id_map : list (string * Z);
  inserted_count : nat;
  failed_count : nat;
  insertion_calls : list event
}.

Definition count_failed (st : insertion_state) : insertion_state :=
  {| original_id_to_db_id_map := original_id_to_db_id_map st;
     inserted_count := inserted_count st;
     failed_count := S (failed_count st);
     insertion_calls := insertion_calls st |}.

(** [node.get("metadata", {}).get("embedding_generated", False)] is truthy. *)
Definition embedding_ok (n : node) : bool :=
  match embedding_generated (node_metadata n) with
  | Some b => b
  | None => false
  end.

(** [node.get("metadata", {}).get("original_id")] when it is truthy. *)
Definition usable_original_id (n : node) : option string :=
  match original_id (node_metadata n) with
  | Some original => if Py.truthy_str original then Some original else None
  | None => None
  end.

(** The body of [for node in db_nodes_with_embeddings]. *)
Definition insert_one (st : insertion_state) (n : node) : insertion_state :=
  match usable_original_id n with
  | None => count_failed st
  | Some original =>
      if negb (embedding_ok n) then count_failed st
      else
        match insert_node env (insertion_calls st) n with
        | Some db_id =>
            {| original_id_to_db_id_map :=
                 Py.dict_set original db_id (original_id_to_db_id_map st);
               inserted_count := S (inserted_count st);
               failed_count := failed_count st;
               insertion_calls := returned (InsertNode n) :: insertion_calls st |}
        | None =>
            {| original_id_to_db_id_map := original_id_to_db_id_map st;
               inserted_count := inserted_count st;
               failed_count := S (failed_count st);
               insertion_calls := raised (InsertNode n) :: insertion_calls st |}
        end
  end.

Definition insertion_init (history : list event) : insertion_state :=
  {| original_id_to_db_id_map := [];
     inserted_count := 0;
     failed_count := 0;
     insertion_calls := history |}.

Definition insert_nodes (history : list event)
    (db_nodes_with_embeddings : list node) : insertion_state :=
  foldl insert_one (insertion_init history) db_nodes_with_embeddings.

(** Clearing the document's earlier nodes; a failure is only logged. *)
Definition clear_existing (effective_document_id : string)
    (history : list event) : list event :=
  let c := DeleteNodesByDocumentId effective_document_id in
  match delete_nodes_by_document_id env history effective_document_id with
  | Some deleted_count => returned c :: history
  | None => raised c :: history
  end.

(** ** Phase 4: parent links (lines 424-441) *)

Record parent_state := {
  parent_links_set : nat;
  parent_link_errors : nat;
  parent_calls : list event
}.

(** The body of [for original_id, db_id in original_id_to_db_id_map.items()]. *)
Definition set_parent_link (chunk_map : list (string * chunk))
    (id_map : list (string * Z))
    (st : parent_state) (entry : string * Z) : parent_state :=
  match Py.dict_get entry.1 chunk_map with
  | None => st
  | Some chunk_data =>
      match chunk_metadata chunk_data ≫= parent_id with
      | None => st
      | Some original_parent_id =>
          if Py.truthy_str original_parent_id then
            match Py.dict_get original_parent_id id_map with
            | None => st
            | Some db_parent_id =>
                let c := UpdateNodeParent entry.2 db_parent_id in
                if update_node_parent env (parent_calls st) entry.2 db_parent_id
                then {| parent_links_set := S (parent_links_set st);
                        parent_link_errors := parent_link_errors st;
                        parent_calls := returned c :: parent_calls st |}
                else {| parent_links_set := parent_links_set st;
                        parent_link_errors := S (parent_link_errors st);
                        parent_calls := raised c :: parent_calls st |}
            end
          else st
      end
  end.

Definition set_parent_links (chunk_map : list (string * chunk))
    (id_map : list (string * Z)) (history : list event) : parent_state :=
  foldl (set_parent_link chunk_map id_map)
    {| parent_links_set := 0; parent_link_errors := 0; parent_calls := history |}
    id_map.

(** ** Phase 4: cross-references, exact then fuzzy (lines 446-518) *)

Record reference_state := {
  references_created : nat;
  reference_errors : nat;
  inserted_reference_pairs : gset (Z * Z);
  reference_calls : list event
}.

Definition exact_type : string := "related_section_exact".
Definition fuzzy_type : string := "related_section_fuzzy".
Definition exact_strength : Q := 9 # 10.
Definition fuzzy_strength : Q := 7 # 10.

(** The guarded write both passes share (lines 451-468 and 500-518): the
    pair is looked up in the set, the store is called, and the pair joins
    the set when the call has returned. *)
Definition insert_pair (kind : string) (weight : Q)
    (st : reference_state) (source_db_id target_db_id : Z) : reference_state :=
  let ref_pair := (source_db_id, target_db_id) in
  if decide (ref_pair ∈ inserted_reference_pairs st) then st
  else
    let reference_data :=
      {| source_node_id := source_db_id;
         target_node_id := target_db_id;
         reference_type := kind;
         strength := weight |} in
    if insert_reference env (reference_calls st) reference_data
    then {| references_created := S (references_created st);
            reference_errors := reference_errors st;
            inserted_reference_pairs := inserted_reference_pairs st ∪ {[ref_pair]};
            reference_calls :=
              returned (InsertReference reference_data) :: reference_calls st |}
    else {| references_created := references_created st;
            reference_errors := S (reference_errors st);
            inserted_reference_pairs := inserted_reference_pairs st;
            reference_calls :=
              raised (InsertReference reference_data) :: reference_calls st |}.

(** The body of [for source_orig_id, target_orig_id in exact_resolved_references]. *)
Definition exact_reference (id_map : list (string * Z))
    (st : reference_state) (pair : string * string) : reference_state :=
  match Py.dict_get pair.1 id_map, Py.dict_get pair.2 id_map with
  | Some source_db_id, Some target_db_id =>
      if Py.truthy_int source_db_id && Py.truthy_int target_db_id
         && bool_decide (source_db_id ≠ target_db_id)
      then insert_pair exact_type exact_strength st source_db_id target_db_id
      else st
  | _, _ => st
  end.

(** The body of [for target_node in target_nodes]. *)
Definition fuzzy_target (id_map : list (string * Z)) (source_db_id : Z)
    (st : reference_state) (target_node : stored_node) : reference_state :=
  match sn_id target_node with
  | Some target_db_id =>
      if Py.truthy_int target_db_id
         && bool_decide (target_db_id ∈ Py.dict_values id_map)
         && bool_decide (target_db_id ≠ source_db_id)
      then insert_pair fuzzy_type fuzzy_strength st source_db_id target_db_id
      else st
  | None => st
  end.

(** The body of the fuzzy pass's [for related_path_item in related_sections]. *)
Definition fuzzy_mention (fuzzy_map : gmap string (list stored_node))
    (id_map : list (string * Z)) (source_db_id : Z)
    (st : reference_state) (related_path_item : related_item) : reference_state :=
  match path_key_str related_path_item with
  | None => st
  | Some key =>
      match fuzzy_map !! key with
      | Some target_nodes =>
          foldl (fuzzy_target id_map source_db_id) st target_nodes
      | None => st
      end
  end.

(** The body of the fuzzy pass's loop over [original_id_to_chunk_map.items()]. *)
Definition fuzzy_chunk (fuzzy_map : gmap string (list stored_node))
    (id_map : list (string * Z))
    (st : reference_state) (entry : string * chunk) : reference_state :=
  match Py.dict_get entry.1 id_map with
  | Some source_db_id =>
      if Py.truthy_int source_db_id
      then foldl (fuzzy_mention fuzzy_map id_map source_db_id) st
                 (related_sections_of entry.2)
      else st
  | None => st
  end.

Definition reference_init (history : list event) : reference_state :=
  {| references_created := 0;
     reference_errors := 0;
     inserted_reference_pairs := ∅;
     reference_calls := history |}.

Definition exact_pass (id_map : list (string * Z))
    (exact : list (string * string)) (st : reference_state) : reference_state :=
  foldl (exact_reference id_map) st exact.

Definition fuzzy_pass (fuzzy_map : gmap string (list stored_node))
    (id_map : list (string * Z)) (chunk_map : list (string * chunk))
    (st : reference_state) : reference_state :=
  foldl (fuzzy_chunk fuzzy_map id_map) st chunk_map.

(** Both passes, over one set of inserted pairs. *)
Definition create_references (m : mapper_state) (r : resolver_state)
    (fz : fuzzy_state) (id_map : list (string * Z))
    (history : list event) : reference_state :=
  fuzzy_pass (fuzzy_path_to_nodes_map fz) id_map (original_id_to_chunk_map m)
    (exact_pass id_map (exact_resolved_references r) (reference_init history)).

(** ** The run *)

Definition failure (history : list event) (out : list log_line) : run :=
  {| result := None; calls := history; stdout := out |}.

Definition success (effective_document_id : string)
    (history : list event) (out : list log_line) : run :=
  {| result := Some effective_document_id; calls := history; stdout := out |}.

(** Lines 403-407: nothing inserted although records were processed. *)
Definition nothing_inserted (ins : insertion_state) : bool :=
  Nat.eqb (inserted_count ins) 0 && Nat.ltb 0 (failed_count ins).

(** Lines 409-528, after the nodes are inserted. *)
Definition materialize (effective_document_id : string) (m : mapper_state)
    (r : resolver_state) (fz : fuzzy_state) (ins : insertion_state)
    (out : list log_line) : run :=
  let id_map := original_id_to_db_id_map ins in
  let pl := set_parent_links (original_id_to_chunk_map m) id_map
              (insertion_calls ins) in
  let rf := create_references m r fz id_map (parent_calls pl) in
  success effective_document_id (reference_calls rf)
    (RelationshipsComplete (parent_links_set pl) (parent_link_errors pl)
       (references_created rf) (reference_errors rf) :: out).

(** Lines 313-407: embeddings, clearing, insertion. *)
Definition embed_and_insert (effective_document_id : string) (m : mapper_state)
    (r : resolver_state) (fz : fuzzy_state) (out : list log_line) : run :=
  let c := GenerateNodeEmbeddings (db_nodes_to_insert m) in
  match generate_node_embeddings env (fuzzy_calls fz) (db_nodes_to_insert m) with
  | None => failure (raised c :: fuzzy_calls fz) out
  | Some db_nodes_with_embeddings =>
      let ins :=
        insert_nodes
          (clear_existing effective_document_id (returned c :: fuzzy_calls fz))
          db_nodes_with_embeddings in
      let out' :=
        NodeInsertionComplete (inserted_count ins) (failed_count ins) :: out in
      if nothing_inserted ins then failure (insertion_calls ins) out'
      else materialize effective_document_id m r fz ins out'
  end.

(** Lines 157-528: everything from the enriched chunks on. *)
Definition phase_4 (effective_document_id : string)
    (enriched_chunks : list chunk) : run :=
  let m := node_mapper effective_document_id enriched_chunks in
  match db_nodes_to_insert m with
  | [] => success effective_document_id [] [NoValidNodes]
  | _ :: _ =>
      let r := resolve_references (path_to_original_id_map m)
                 (original_id_to_chunk_map m) in
      let out :=
        [IdentifiedFuzzyPaths (size (paths_needing_fuzzy_lookup r));
         FoundExactReferences (length (exact_resolved_references r))] in
      let fz := fuzzy_lookups effective_document_id []
                  (elements (paths_needing_fuzzy_lookup r)) in
      embed_and_insert effective_document_id m r fz
        (FuzzyLookupsComplete (size (fuzzy_path_to_nodes_map fz))
           (fuzzy_lookup_errors fz) :: out)
  end.

(** [document_id or Path(file_path).stem] *)
Definition effective_document_id (file_path : string)
    (document_id : option string) : string :=
  match document_id with
  | Some d => if Py.truthy_str d then d else Py.stem file_path
  | None => Py.stem file_path
  end.

(** Lines 66-155: validation, initialization, reading and phases 1 to 3.
    The run either ends there ([inl]) or hands the enriched chunks on. *)
Definition phases_1_to_3 (file_path : string) (document_id : option string)
    : run + list chunk :=
  if negb (path_exists env file_path) then inl (failure [] [])
  else if negb (components_initialize env) then inl (failure [] [])
  else
    match read_text env file_path with
    | None => inl (failure [] [])
    | Some markdown_text =>
        if Py.is_blank markdown_text
        then inl (success (effective_document_id file_path document_id) [] [])
        else
          match parse_document env markdown_text with
          | None => inl (failure [] [])
          | Some parsed_doc =>
              match build_hierarchy_tree env parsed_doc with
              | None | Some None => inl (failure [] [])
              | Some (Some doc_tree_root) =>
                  match create_chunks env doc_tree_root with
                  | None => inl (failure [] [])
                  | Some chunks =>
                      match process_chunks env chunks doc_tree_root with
                      | None => inl (failure [] [])
                      | Some enriched_chunks => inr enriched_chunks
                      end
                  end
              end
          end
    end.

Definition process_document (file_path : string)
    (document_id : option string) : run :=
  match phases_1_to_3 file_path document_id with
  | inl early => early
  | inr enriched_chunks =>
      phase_4 (effective_document_id file_path document_id) enriched_chunks
  end.

End Phases.

(** ** Observations on the calls of a run *)

(** The directed pair of storage ids an [insert_reference] call is about. *)
Definition reference_pair (e : event) : option (Z * Z) :=
  match ev_call e with
  | InsertReference r => Some (source_node_id r, target_node_id r)
  | _ => None
  end.

(** How often [insert_reference] was called for a pair, and how often such
    a call returned. *)
Definition attempts (p : Z * Z) (history : list event) : nat :=
  length (filter (λ e, reference_pair e = Some p) history).

Definition successes (p : Z * Z) (history : list event) : nat :=
  length (filter (λ e, reference_pair e = Some p ∧ ev_ok e = true) history).

(** The call [later] does not write again the pair of a reference whose
    write [earlier] has returned. *)
Definition no_retry (later earlier : event) : Prop :=
  ∀ p, reference_pair earlier = Some p → ev_ok earlier = true →
       reference_pair later ≠ Some p.

(** The pattern and the cap of a path query, and how often the store was
    queried with a given pattern and cap. *)
Definition query_of (e : event) : option (string * Z) :=
  match ev_call e with
  | FindNodesByPath pattern cap => Some (pattern, cap)
  | _ => None
  end.

Definition queries (pattern : string) (cap : Z) (history : list event) : nat :=
  length (filter (λ e, query_of e = Some (pattern, cap)) history).

(** [out] is [history] with further calls in front, all of which satisfy [P]. *)
Definition extends (P : event → Prop) (history out : list event) : Prop :=
  ∃ new, out = (new ++ history)%list ∧ Forall P new.

(** The calls a run makes: path queries with a wildcard pattern and the
    cap 10, the embedding call, the clearing of the document, insertions of
    records that carry an identity and an embedding, parent updates, and
    references between two different storage ids. *)
Inductive run_call : call → Prop :=
| run_query p : run_call (FindNodesByPath (wildcard p) 10)
| run_embed ns : run_call (GenerateNodeEmbeddings ns)
| run_clear d : run_call (DeleteNodesByDocumentId d)
| run_insert n :
    embedding_ok n = true → is_Some (usable_original_id n) →
    run_call (InsertNode n)
| run_parent a b : run_call (UpdateNodeParent a b)
| run_reference r :
    source_node_id r ≠ target_node_id r → run_call (InsertReference r).

(** [P] holds of the calls of a run that are neither path queries nor
    insertions of references. *)
Definition holds_between (P : event → Prop) : Prop :=
  ∀ c ok, run_call c →
          query_of {| ev_call := c; ev_ok := ok |} = None →
          reference_pair {| ev_call := c; ev_ok := ok |} = None →
          P {| ev_call := c; ev_ok := ok |}.

(** Intermediate values of a run over the enriched chunks [cs]: the state
    after reference resolution, the state after the fuzzy lookups, the
    answer of the embedder, and the state after the insertion loop over the
    records [ns] the embedder returned. *)
Definition resolution (eid : string) (cs : list chunk) : resolver_state :=
  let m := node_mapper eid cs in
  resolve_references (path_to_original_id_map m) (original_id_to_chunk_map m).

Section Intermediate.

Context {ParsedDoc DocTree : Type} (env : collaborators ParsedDoc DocTree).

Definition fuzzy_phase (eid : string) (cs : list chunk) : fuzzy_state :=
  fuzzy_lookups env eid []
    (elements (paths_needing_fuzzy_lookup (resolution eid cs))).

Definition embedding_call (eid : string) (cs : list chunk) : call :=
  GenerateNodeEmbeddings (db_nodes_to_insert (node_mapper eid cs)).

Definition embedding_phase (eid : string) (cs : list chunk)
    : option (list node) :=
  generate_node_embeddings env (fuzzy_calls (fuzzy_phase eid cs))
    (db_nodes_to_insert (node_mapper eid cs)).

Definition insertion_phase (eid : string) (cs : list chunk)
    (ns : list node) : insertion_state :=
  insert_nodes env
    (clear_existing env eid
       (returned (embedding_call eid cs) :: fuzzy_calls (fuzzy_phase eid cs)))
    ns.

(** What the output map holds for a pattern, in terms of the answer the
    store gave when the pattern was looked up. *)
Definition looked_up (eid : string) (st : fuzzy_state) (p : string) : Prop :=
  ∃ (e : event) (before after : list event),
    fuzzy_calls st = (after ++ e :: before)%list
    ∧ ev_call e = FindNodesByPath (wildcard p) 10
    ∧ match find_nodes_by_path env before (wildcard p) 10 with
      | Some raw =>
          ev_ok e = true
          ∧ fuzzy_path_to_nodes_map st !! p
            = match filter (same_document eid) raw with
              | [] => None
              | found => Some found
              end
      | None => ev_ok e = false ∧ fuzzy_path_to_nodes_map st !! p = None
      end.

End Intermediate.

(** A chunk the node mapper discards: no identity or no metadata. *)
Definition discarded (c : chunk) : Prop :=
  chunk_id c = None ∨ chunk_metadata c = None.

(** A chunk that writes the path key [key] into the path index. *)
Definition claims (key : string) (c : chunk) : Prop :=
  ∃ original md,
    chunk_id c = Some original ∧ chunk_metadata c = Some md
    ∧ path_str md = key ∧ registers key original = true.

(** A record the insertion loop skips (lines 366-382). *)
Definition skipped (n : node) : Prop :=
  original_id (node_metadata n) = None
  ∨ embedding_generated (node_metadata n) ≠ Some true.

#[global] Instance skipped_dec n : Decision (skipped n).
Proof. unfold skipped. apply _. Defined.

(** ** Concrete worlds and documents, for the examples *)

Module Fixture.

Definition section (hp : list string) (parent : option string)
    (related : list related_item) : metadata :=
  {| hierarchy_path := Some hp; section_type := None; content_type := None;
     document_position := None; parent_id := parent;
     related_sections := related; link_count := None;
     contains_links := None; md_extra := [] |}.

Definition mk_chunk (i : string) (md : metadata) : chunk :=
  {| chunk_id := Some i; chunk_metadata := Some md; chunk_type := None;
     chunk_title := None; chunk_content := None; chunk_level := None |}.

Definition no_metadata (i : string) : chunk :=
  {| chunk_id := Some i; chunk_metadata := None; chunk_type := None;
     chunk_title := None; chunk_content := None; chunk_level := None |}.

(** An embedder that sets the flag of every record to [flag]. *)
Definition embed (flag : bool) (n : node) : node :=
  {| document_id := document_id n; node_type := node_type n;
     title := title n; content := content n; level := level n;
     path := path n; n_section_type := n_section_type n;
     n_content_type := n_content_type n;
     n_document_position := n_document_position n;
     node_metadata :=
       {| original_id := original_id (node_metadata n);
          embedding_generated := Some flag;
          p_related_sections := p_related_sections (node_metadata n);
          p_link_count := p_link_count (node_metadata n);
          p_contains_links := p_contains_links (node_metadata n);
          p_extra := p_extra (node_metadata n) |};
     embedding := if flag then Some [1 # 2] else None |}.

Definition is_insert (e : event) : bool :=
  match ev_call e with InsertNode _ => true | _ => false end.

(** The store numbers the rows it inserts 1, 2, 3, ... *)
Definition next_id (history : list event) : Z :=
  1 + Z.of_nat (length (List.filter is_insert history)).

(** The text "# Guide". *)
Definition guide_text : Py.text := [35; 32; 71; 117; 105; 100; 101]%N.

(** A world whose upstream phases yield [cs]; the flags say whether the
    embedder is reachable, whether it embeds each record, and whether the
    store accepts queries, nodes and references; [stored] is what a path
    query returns. *)
Definition world (cs : list chunk) (embedder_up embeds : bool)
    (queries_ok nodes_ok references_ok : bool)
    (stored : list stored_node) : collaborators unit unit :=
  {| path_exists := λ _, true;
     components_initialize := true;
     read_text := λ _, Some guide_text;
     parse_document := λ _, Some tt;
     build_hierarchy_tree := λ _, Some (Some tt);
     create_chunks := λ _, Some cs;
     process_chunks := λ chunks _, Some chunks;
     find_nodes_by_path := λ _ _ _, if queries_ok then Some stored else None;
     generate_node_embeddings :=
       λ _ ns, if embedder_up then Some (map (embed embeds) ns) else None;
     delete_nodes_by_document_id := λ _ _, Some 0;
     insert_node := λ h _, if nodes_ok then Some (next_id h) else None;
     update_node_parent := λ _ _ _, true;
     insert_reference := λ _ _, references_ok |}.

Definition healthy (cs : list chunk) : collaborators unit unit :=
  world cs true true true true true [].

(** The scenario of the specification: "Guide" and "Guide > Step1", the
    second mentioning the first. *)
Definition guide : chunk := mk_chunk "id1" (section ["Guide"] None []).
Definition step1 : chunk :=
  mk_chunk "id2" (section ["Guide"; "Step1"] (Some "id1") [RelStr "Guide"]).

(** A chunk that mentions "Guide" twice, once in each shape, and a path
    that no chunk of the batch has. *)
Definition step1_twice : chunk :=
  mk_chunk "id2"
    (section ["Guide"; "Step1"] (Some "id1")
       [RelStr "Guide"; RelPath ["Guide"]; RelStr "Appendix"]).

(** A later chunk with the path of [guide] and an empty identifier. *)
Definition guide_again : chunk := mk_chunk "" (section ["Guide"] None []).


(** Runs over these documents. *)
Definition scenario : run :=
  process_document (healthy [guide; step1]) "docs/A.md" None.

(** The store rejects every reference. *)
Definition rejected_references : run :=
  process_document (world [guide; step1_twice] true true true true false [])
    "docs/A.md" None.

(** The store rejects every node. *)
Definition rejected_nodes : run :=
  process_document (world [guide; step1] true true true false true [])
    "docs/A.md" None.

(** The caller passes the empty string as the document id. *)
Definition empty_id : run :=
  process_document (healthy [guide; step1]) "docs/A.md" (Some "").

(** Two chunks with one path, the later one without a usable identifier. *)
Definition same_path : mapper_state := node_mapper "A" [guide; guide_again].

(** Rows of the store: two of the document "A", one of another document. *)
Definition row (i : Z) (doc p : string) : stored_node :=
  {| sn_id := Some i; sn_document_id := Some doc; sn_path := Some p |}.

Definition rows : list stored_node :=
  [row 7 "A" "Guide > Appendix"; row 8 "B" "Appendix"; row 9 "A" "Appendix"].

(** The store holds rows for the pattern that is looked up. *)
Definition with_rows : run :=
  process_document (world [guide; step1_twice] true true true true true rows)
    "docs/A.md" None.

(** The embedding provider cannot be reached. *)
Definition embedder_down : run :=
  process_document (world [guide; step1] false true true true true [])
    "docs/A.md" None.

(** The provider answers, with no embedding for any record. *)
Definition nothing_embedded : run :=
  process_document (world [guide; step1] true false true true true [])
    "docs/A.md" None.

(** An embedder that fails on the records of the chunks named in [failing]
    and embeds the others, in the healthy world of [cs]. *)
Definition embed_except (failing : list string) (n : node) : node :=
  embed (bool_decide (original_id (node_metadata n) ∉ Some <$> failing)) n.

Definition embedding_all_but (failing : list string) (cs : list chunk)
    : collaborators unit unit :=
  {| path_exists := λ _, true;
     components_initialize := true;
     read_text := λ _, Some guide_text;
     parse_document := λ _, Some tt;
     build_hierarchy_tree := λ _, Some (Some tt);
     create_chunks := λ _, Some cs;
     process_chunks := λ chunks _, Some chunks;
     find_nodes_by_path := λ _ _ _, Some [];
     generate_node_embeddings := λ _ ns, Some (map (embed_except failing) ns);
     delete_nodes_by_document_id := λ _ _, Some 0;
     insert_node := λ h _, Some (next_id h);
     update_node_parent := λ _ _ _, true;
     insert_reference := λ _ _, true |}.

(** The record of "Guide > Step1" gets no embedding. *)
Definition partly_embedded : run :=
  process_document (embedding_all_but ["id2"] [guide; step1]) "docs/A.md" None.

(** A chunk that mentions only a path that no chunk of the batch has, and
    a store in which a row of the document "A" with the id 1 answers to
    that path. *)
Definition step1_appendix : chunk :=
  mk_chunk "id2" (section ["Guide"; "Step1"] (Some "id1") [RelStr "Appendix"]).

Definition appendix_rows : list stored_node :=
  [row 1 "A" "Guide > Appendix"; row 8 "B" "Appendix"].

Definition with_fuzzy_edge : run :=
  process_document
    (world [guide; step1_appendix] true true true true true appendix_rows)
    "docs/A.md" None.

End Fixture.

(** ** Further observations on a run *)

(** The node record prepared for a chunk; none for a discarded chunk. *)
Definition record_of (eid : string) (c : chunk) : option node :=
  match chunk_id c, chunk_metadata c with
  | Some original, Some md => Some (node_data eid original c md)
  | _, _ => None
  end.

(** A chunk that is kept and has the identifier [original]. *)
Definition has_id (original : string) (c : chunk) : Prop :=
  chunk_id c = Some original ∧ chunk_metadata c ≠ None.

#[global] Instance has_id_dec original c : Decision (has_id original c).
Proof. unfold has_id. apply _. Defined.

(** A record the insertion loop hands to [insert_node]. *)
Definition insertable (n : node) : Prop :=
  is_Some (usable_original_id n) ∧ embedding_ok n = true.

#[global] Instance insertable_dec n : Decision (insertable n).
Proof. unfold insertable. apply _. Defined.

(** The phase a call belongs to, in the order of the code. *)
Definition phase_of (c : call) : nat :=
  match c with
  | FindNodesByPath _ _ => 0
  | GenerateNodeEmbeddings _ => 1
  | DeleteNodesByDocumentId _ => 2
  | InsertNode _ => 3
  | UpdateNodeParent _ _ => 4
  | InsertReference _ => 5
  end%nat.

(** One call was made no later than another. *)
Definition not_after (later earlier : event) : Prop :=
  (phase_of (ev_call earlier) ≤ phase_of (ev_call later))%nat.

Definition is_insert_node (c : call) : bool :=
  match c with InsertNode _ => true | _ => false end.

Definition is_update_parent (c : call) : bool :=
  match c with UpdateNodeParent _ _ => true | _ => false end.

Definition is_insert_reference (c : call) : bool :=
  match c with InsertReference _ => true | _ => false end.

(** How many calls of a kind returned ([ok = true]) or raised. *)
Definition count_calls (kind : call → bool) (ok : bool)
    (history : list event) : nat :=
  length (filter (λ e, kind (ev_call e) = true ∧ ev_ok e = ok) history).

(** The documents whose nodes were cleared, most recent first. *)
Definition cleared (e : event) : option string :=
  match ev_call e with
  | DeleteNodesByDocumentId d => Some d
  | _ => None
  end.

Definition clears (history : list event) : list string := omap cleared history.

(** The records handed to [insert_node], most recent first. *)
Definition inserted_record (e : event) : option node :=
  match ev_call e with
  | InsertNode n => Some n
  | _ => None
  end.

Definition insertions (history : list event) : list node :=
  omap inserted_record history.

(** A parent update that the chunk map and the id map account for: the
    node is the row of an inserted chunk whose metadata names a parent, and
    the parent is the row of that parent. *)
Definition parent_link (chunk_map : list (string * chunk))
    (id_map : list (string * Z)) (e : event) : Prop :=
  ∃ original db_id chunk_data md original_parent_id db_parent_id,
    ev_call e = UpdateNodeParent db_id db_parent_id
    ∧ (original, db_id) ∈ id_map
    ∧ Py.dict_get original chunk_map = Some chunk_data
    ∧ chunk_metadata chunk_data = Some md
    ∧ parent_id md = Some original_parent_id
    ∧ original_parent_id ≠ ""
    ∧ Py.dict_get original_parent_id id_map = Some db_parent_id.

(** A reference written for an exact pair: both ends are the rows of the
    pair's chunks. *)
Definition exact_edge (id_map : list (string * Z))
    (exact : list (string * string)) (e : event) : Prop :=
  ∃ source target r,
    ev_call e = InsertReference r
    ∧ (source, target) ∈ exact
    ∧ Py.dict_get source id_map = Some (source_node_id r)
    ∧ Py.dict_get target id_map = Some (target_node_id r)
    ∧ reference_type r = exact_type
    ∧ strength r = exact_strength.

(** A reference written for a fuzzy candidate: the source is the row of a
    chunk that mentions the key, the target is a row the lookup of the key
    kept, and that row was inserted in this run. *)
Definition fuzzy_edge (fuzzy_map : gmap string (list stored_node))
    (id_map : list (string * Z)) (chunk_map : list (string * chunk))
    (e : event) : Prop :=
  ∃ original chunk_data item key rows row r,
    ev_call e = InsertReference r
    ∧ (original, chunk_data) ∈ chunk_map
    ∧ Py.dict_get original id_map = Some (source_node_id r)
    ∧ item ∈ related_sections_of chunk_data
    ∧ path_key_str item = Some key
    ∧ fuzzy_map !! key = Some rows
    ∧ row ∈ rows
    ∧ sn_id row = Some (target_node_id r)
    ∧ target_node_id r ∈ Py.dict_values id_map
    ∧ reference_type r = fuzzy_type
    ∧ strength r = fuzzy_strength.

#[global] Instance discarded_dec c : Decision (discarded c).
Proof. unfold discarded. apply _. Defined.

(** A mention of the batch: the chunk stored under [source] mentions a
    section whose path key is [key]. *)
Definition mentions (chunk_map : list (string * chunk))
    (source key : string) : Prop :=
  ∃ chunk_data item,
    (source, chunk_data) ∈ chunk_map
    ∧ item ∈ related_sections_of chunk_data
    ∧ path_key_str item = Some key.

(** The later intermediate values of a run over the enriched chunks [cs]
    in which the embedder returned the records [ns]: the state after the
    parent links and the state after the two reference passes. *)
Section Later.

Context {ParsedDoc DocTree : Type} (env : collaborators ParsedDoc DocTree).

Definition parent_phase (eid : string) (cs : list chunk)
    (ns : list node) : parent_state :=
  set_parent_links env
    (original_id_to_chunk_map (node_mapper eid cs))
    (original_id_to_db_id_map (insertion_phase env eid cs ns))
    (insertion_calls (insertion_phase env eid cs ns)).

Definition reference_phase (eid : string) (cs : list chunk)
    (ns : list node) : reference_state :=
  create_references env (node_mapper eid cs) (resolution eid cs)
    (fuzzy_phase env eid cs)
    (original_id_to_db_id_map (insertion_phase env eid cs ns))
    (parent_calls (parent_phase eid cs ns)).

(** An entry of the id map that the insertion loop accounts for: the
    identifier of an insertable record of the list, with a row id that
    [insert_node] returned for that record. *)
Definition assigned (ns : list node) (entry : string * Z) : Prop :=
  ∃ n history,
    n ∈ ns
    ∧ usable_original_id n = Some entry.1
    ∧ embedding_ok n = true
    ∧ insert_node env history n = Some entry.2.

(** The summary lines printed up to the fuzzy lookups, up to the insertion
    of the nodes, and up to the end. *)
Definition lookup_lines (eid : string) (cs : list chunk) : list log_line :=
  [FuzzyLookupsComplete
     (size (fuzzy_path_to_nodes_map (fuzzy_phase env eid cs)))
     (fuzzy_lookup_errors (fuzzy_phase env eid cs));
   IdentifiedFuzzyPaths (size (paths_needing_fuzzy_lookup (resolution eid cs)));
   FoundExactReferences (length (exact_resolved_references (resolution eid cs)))].

Definition insertion_lines (eid : string) (cs : list chunk)
    (ns : list node) : list log_line :=
  NodeInsertionComplete
    (inserted_count (insertion_phase env eid cs ns))
    (failed_count (insertion_phase env eid cs ns))
  :: lookup_lines eid cs.

Definition final_lines (eid : string) (cs : list chunk)
    (ns : list node) : list log_line :=
  RelationshipsComplete
    (parent_links_set (parent_phase eid cs ns))
    (parent_link_errors (parent_phase eid cs ns))
    (references_created (reference_phase eid cs ns))
    (reference_errors (reference_phase eid cs ns))
  :: insertion_lines eid cs ns.

(** The four ways a run goes once phases 1 to 3 have handed over [cs]. *)
Inductive outcome (eid : string) (cs : list chunk) : run → Prop :=
| no_nodes :
    db_nodes_to_insert (node_mapper eid cs) = [] →
    outcome eid cs (success eid [] [NoValidNodes])
| embedder_raised :
    db_nodes_to_insert (node_mapper eid cs) ≠ [] →
    embedding_phase env eid cs = None →
    outcome eid cs
      (failure
         (raised (embedding_call eid cs) :: fuzzy_calls (fuzzy_phase env eid cs))
         (lookup_lines eid cs))
| none_inserted ns :
    db_nodes_to_insert (node_mapper eid cs) ≠ [] →
    embedding_phase env eid cs = Some ns →
    nothing_inserted (insertion_phase env eid cs ns) = true →
    outcome eid cs
      (failure (insertion_calls (insertion_phase env eid cs ns))
         (insertion_lines eid cs ns))
| materialized ns :
    db_nodes_to_insert (node_mapper eid cs) ≠ [] →
    embedding_phase env eid cs = Some ns →
    nothing_inserted (insertion_phase env eid cs ns) = false →
    outcome eid cs
      (success eid (reference_calls (reference_phase eid cs ns))
         (final_lines eid cs ns)).

End Later.

(** ** The command line: [main] (lines 531-706) *)

(** The parsed arguments. *)
Record arguments := {
  arg_file : string;
  arg_id : option string;
  arg_query : option string;
  arg_match_count : Z;
  arg_context_depth : Z;
  arg_test_query : option string
}.

(** The retrieval collaborators of [main]. Their results are only printed,
    inside a [try] whose handler prints too, so all that is kept of a call
    is that it was made: [false] stands for a constructor that raises. *)
Record retrieval := {
  query_manager_initialize : bool;
  retrieval_manager_initialize : bool
}.

(** The searches [main] issues. *)
Inductive search :=
| HierarchicalSearch (query : string) (match_count context_depth : Z)
    (document_id : string)
| Retrieve (test_query : string).

(** What [main] yields: the exit status of the process, the run of
    [process_document], and the searches issued, in order. *)
Record main_outcome := {
  exit_status : Z;
  processing : run;
  searches : list search
}.

Section Main.

Context {ParsedDoc DocTree : Type} (env : collaborators ParsedDoc DocTree).
Variable ret : retrieval.

(** Lines 580-666. *)
Definition run_test_query (args : arguments) (processed_doc_id : string)
    : list search :=
  match arg_query args with
  | Some query =>
      if Py.truthy_str query && query_manager_initialize ret
      then [HierarchicalSearch query (arg_match_count args)
              (arg_context_depth args) processed_doc_id]
      else []
  | None => []
  end.

(** Lines 669-706. *)
Definition run_full_retrieval (args : arguments) : list search :=
  match arg_test_query args with
  | Some test_query =>
      if Py.truthy_str test_query && retrieval_manager_initialize ret
      then [Retrieve test_query]
      else []
  | None => []
  end.

Definition main (args : arguments) : main_outcome :=
  let r := process_document env (arg_file args) (arg_id args) in
  match result r with
  | Some processed_doc_id =>
      if Py.truthy_str processed_doc_id then
        {| exit_status := 0;
           processing := r;
           searches := (run_test_query args processed_doc_id
                        ++ run_full_retrieval args)%list |}
      else {| exit_status := 1; processing := r; searches := [] |}
  | None => {| exit_status := 1; processing := r; searches := [] |}
  end.

End Main.

(** ** The database page: streamlit_pages/database.py *)

Module PyStr.

(** [sub in s] *)
Fixpoint contains (sub s : string) : bool :=
  match s with
  | EmptyString => String.prefix sub EmptyString
  | String c s' => String.prefix sub s || contains sub s'
  end.

(** [s.split(sep)] for a separator that is not empty: the text is read
    from the left, an occurrence of the separator ends the current piece,
    and the characters of the occurrence are passed over ([skip]). *)
Fixpoint split_aux (sep : string) (skip : nat) (cur : string) (s : string)
    : list string :=
  match s with
  | EmptyString => [cur]
  | String c s' =>
      match skip with
      | S k => split_aux sep k cur s'
      | O =>
          if String.prefix sep s
          then cur :: split_aux sep (String.length sep - 1) "" s'
          else split_aux sep 0 (cur ++ String c "") s'
      end
  end.

Definition split (sep s : string) : list string := split_aux sep 0 "" s.

End PyStr.

Definition dashboard_url : string := "https://supabase.com/dashboard".

(** [f"https://supabase.com/dashboard/project/{project_ref}/sql/new"] *)
Definition sql_editor_url (project_ref : string) : string :=
  "https://supabase.com/dashboard/project/" ++ project_ref ++ "/sql/new".

(** Lines 24-40, for an argument that is a string. *)
Definition get_supabase_sql_editor_url (supabase_url : string) : string :=
  if PyStr.contains "//" supabase_url && PyStr.contains "supabase" supabase_url
  then
    let parts := PyStr.split "//" supabase_url in
    if (1 <? length parts)%nat then
      let domain_parts := PyStr.split "." (nth 1 parts "") in
      if (0 <? length domain_parts)%nat
      then sql_editor_url (nth 0 domain_parts "")
      else dashboard_url
    else dashboard_url
  else dashboard_url.

(** The error of a response, for an error that has a message:
    [str(response.error)] and [response.error.message]. *)
Record rpc_error := { error_text : string; error_message : string }.

(** What [supabase.rpc("exec_sql", {"query": sql}).execute()] does: it
    raises an exception [e] with the text [str(e)], or it returns a
    response whose [error] is missing or falsy ([None]) or is an error. *)
Inductive rpc_result :=
| RpcRaised (text : string)
| RpcReturned (error : option rpc_error).

Definition missing_function : string :=
  "function exec_sql(query => text) does not exist".

Definition rpc_not_found (operation_name : string) : string :=
  "Error during " ++ operation_name
  ++ ": The required 'exec_sql' RPC function was not found in your Supabase project. Please follow the setup instructions.".

(** Lines 43-73; [supabase] answers the query it is given. *)
Definition execute_sql_in_supabase (supabase : string → rpc_result)
    (sql operation_name : string) : bool * string :=
  match supabase sql with
  | RpcReturned (Some error) =>
      if PyStr.contains missing_function (error_text error)
      then (false, rpc_not_found operation_name)
      else (false, "Error during " ++ operation_name ++ ": "
                   ++ error_message error)
  | RpcReturned None => (true, operation_name ++ " completed successfully.")
  | RpcRaised text =>
      if PyStr.contains missing_function text
      then (false, rpc_not_found operation_name)
      else (false, "Error during " ++ operation_name
                   ++ ": An unexpected error occurred - " ++ text)
  end.

(** The test the page makes on the message of a failure (lines 249, 282,
    286 and 412) before it shows the setup warning. *)
Definition shows_setup_warning (message : string) : bool :=
  PyStr.contains "'exec_sql' RPC function was not found" message.

(** The two tests for the missing function (lines 62 and 71): on the text
    of the error of the response, or on the text of the exception. *)
Definition reports_missing_function (answer : rpc_result) : bool :=
  match answer with
  | RpcRaised text => PyStr.contains missing_function text
  | RpcReturned (Some error) =>
      PyStr.contains missing_function (error_text error)
  | RpcReturned None => false
  end.

(** * Properties *)

(** ** Paths and blank files *)

Example stem_md : Py.stem "docs/guide.md" = "guide".
Proof. reflexivity. Qed.

Example stem_two_dots : Py.stem "/tmp/a.b/notes.v2.txt" = "notes.v2".
Proof. reflexivity. Qed.

Example stem_hidden : Py.stem "/home/u/.bashrc" = ".bashrc".
Proof. reflexivity. Qed.

Example blank_text : Py.is_blank [0xA; 0x20]%N = true.
Proof. reflexivity. Qed.

(** A no-break space, a next line, an em space and an ideographic space. *)
Example blank_unicode_text :
  Py.is_blank [0xA0; 0x85; 0x2003; 0x3000]%N = true.
Proof. reflexivity. Qed.

(** A zero width space (U+200B) is not white space for [strip]. *)
Example zero_width_space_text : Py.is_blank [0x20; 0x200B]%N = false.
Proof. reflexivity. Qed.

(** ** Loops *)

(** A property kept by the body of a loop is kept by the loop. *)
Lemma foldl_keeps {A B : Type} (I : A → Prop) (f : A → B → A) (l : list B) :
  (∀ a b, b ∈ l → I a → I (f a b)) → ∀ a, I a → I (foldl f a l).
Proof.
  induction l as [|b l IH]; intros Hstep a Ha; simpl; [exact Ha|].
  apply IH.
  - intros a' b' Hb'. apply Hstep. by right.
  - apply Hstep; [by left | exact Ha].
Qed.

(** ** Which calls each phase makes *)

Section Calls.

Context {ParsedDoc DocTree : Type} (env : collaborators ParsedDoc DocTree).
Variable P : event → Prop.

Lemma extends_refl history : extends P history history.
Proof. by exists []. Qed.

Lemma extends_cons e history out :
  P e → extends P history out → extends P history (e :: out).
Proof.
  intros He (new & -> & Hnew). exists (e :: new). split; [done|].
  by constructor.
Qed.

Lemma extends_trans history mid out :
  extends P history mid → extends P mid out → extends P history out.
Proof.
  intros (new1 & -> & H1) (new2 & -> & H2). exists (new2 ++ new1)%list.
  split; [by rewrite app_assoc|]. by apply Forall_app.
Qed.

Lemma extends_Forall history out :
  Forall P history → extends P history out → Forall P out.
Proof. intros Hh (new & -> & Hnew). by apply Forall_app. Qed.

Lemma fuzzy_lookups_calls eid history patterns :
  (∀ p ok, P {| ev_call := FindNodesByPath (wildcard p) 10; ev_ok := ok |}) →
  extends P history (fuzzy_calls (fuzzy_lookups env eid history patterns)).
Proof.
  intros Hq. unfold fuzzy_lookups.
  apply (foldl_keeps (λ st, extends P history (fuzzy_calls st)));
    [|apply extends_refl].
  intros st p _ Hst. unfold fuzzy_lookup.
  destruct (find_nodes_by_path env _ _ _); simpl;
    apply extends_cons; auto; apply Hq.
Qed.

Lemma clear_existing_calls eid history :
  (∀ d ok, P {| ev_call := DeleteNodesByDocumentId d; ev_ok := ok |}) →
  extends P history (clear_existing env eid history).
Proof.
  intros Hd. unfold clear_existing.
  destruct (delete_nodes_by_document_id env _ _);
    apply extends_cons; try apply extends_refl; apply Hd.
Qed.

Lemma insert_nodes_calls history ns :
  (∀ n ok, embedding_ok n = true → is_Some (usable_original_id n) →
           P {| ev_call := InsertNode n; ev_ok := ok |}) →
  extends P history (insertion_calls (insert_nodes env history ns)).
Proof.
  intros Hi. unfold insert_nodes.
  apply (foldl_keeps (λ st, extends P history (insertion_calls st)));
    [|apply extends_refl].
  intros st n _ Hst. unfold insert_one.
  destruct (usable_original_id n) as [o|] eqn:Ho; [|exact Hst].
  destruct (embedding_ok n) eqn:He; simpl; [|exact Hst].
  destruct (insert_node env _ n); simpl; apply extends_cons; auto;
    apply Hi; rewrite ?Ho; eauto.
Qed.

Lemma set_parent_links_calls chunk_map id_map history :
  (∀ a b ok, P {| ev_call := UpdateNodeParent a b; ev_ok := ok |}) →
  extends P history
    (parent_calls (set_parent_links env chunk_map id_map history)).
Proof.
  intros Hu. unfold set_parent_links.
  apply (foldl_keeps (λ st, extends P history (parent_calls st)));
    [|apply extends_refl].
  intros st [o db_id] _ Hst. unfold set_parent_link. simpl.
  destruct (Py.dict_get o chunk_map) as [c|]; [|exact Hst].
  destruct (chunk_metadata c ≫= parent_id) as [par|]; [|exact Hst].
  destruct (Py.truthy_str par); [|exact Hst].
  destruct (Py.dict_get par id_map) as [pid|]; [|exact Hst].
  destruct (update_node_parent env _ _ _); simpl;
    apply extends_cons; auto; apply Hu.
Qed.

End Calls.

(** ** The reference passes *)

Section References.

Context {ParsedDoc DocTree : Type} (env : collaborators ParsedDoc DocTree).

(** Whatever the guarded write keeps, for distinct ends, both passes keep. *)
Section Keeps.

Variable I : reference_state → Prop.
Hypothesis insert_pair_keeps :
  ∀ kind weight st s t, s ≠ t → I st → I (insert_pair env kind weight st s t).

Lemma exact_pass_keeps id_map exact st :
  I st → I (exact_pass env id_map exact st).
Proof.
  unfold exact_pass. apply foldl_keeps.
  intros a [s t] _ Ha. unfold exact_reference. simpl.
  destruct (Py.dict_get s id_map) as [sd|]; [|exact Ha].
  destruct (Py.dict_get t id_map) as [td|]; [|exact Ha].
  destruct (Py.truthy_int sd && Py.truthy_int td
            && bool_decide (sd ≠ td)) eqn:Hg; [|exact Ha].
  apply insert_pair_keeps; [|exact Ha].
  apply andb_true_iff in Hg as [_ Hne]. by apply bool_decide_eq_true in Hne.
Qed.

Lemma fuzzy_pass_keeps fuzzy_map id_map chunk_map st :
  I st → I (fuzzy_pass env fuzzy_map id_map chunk_map st).
Proof.
  unfold fuzzy_pass. apply foldl_keeps.
  intros a [o c] _ Ha. unfold fuzzy_chunk. simpl.
  destruct (Py.dict_get o id_map) as [sd|]; [|exact Ha].
  destruct (Py.truthy_int sd); [|exact Ha].
  revert a Ha. apply foldl_keeps.
  intros a item _ Ha. unfold fuzzy_mention.
  destruct (path_key_str item) as [key|]; [|exact Ha].
  destruct (fuzzy_map !! key) as [targets|]; [|exact Ha].
  revert a Ha. apply foldl_keeps.
  intros a target _ Ha. unfold fuzzy_target.
  destruct (sn_id target) as [td|]; [|exact Ha].
  destruct (Py.truthy_int td && bool_decide (td ∈ Py.dict_values id_map)
            && bool_decide (td ≠ sd)) eqn:Hg; [|exact Ha].
  apply insert_pair_keeps; [|exact Ha].
  apply andb_true_iff in Hg as [_ Hne].
  apply bool_decide_eq_true in Hne. congruence.
Qed.

Lemma create_references_keeps m r fz id_map history :
  I (reference_init history) →
  I (create_references env m r fz id_map history).
Proof.
  intros H0. unfold create_references.
  by apply fuzzy_pass_keeps, exact_pass_keeps.
Qed.

End Keeps.

Lemma create_references_calls (P : event → Prop) m r fz id_map history :
  (∀ rf ok, source_node_id rf ≠ target_node_id rf →
            P {| ev_call := InsertReference rf; ev_ok := ok |}) →
  extends P history
    (reference_calls (create_references env m r fz id_map history)).
Proof.
  intros Hr.
  apply (create_references_keeps (λ st, extends P history (reference_calls st)));
    [|apply extends_refl].
  intros kind weight st s t Hne Hst. unfold insert_pair.
  destruct (decide ((s, t) ∈ inserted_reference_pairs st)); [exact Hst|].
  destruct (insert_reference env _ _); simpl; apply extends_cons; auto;
    by apply Hr.
Qed.

(** The set of inserted pairs holds exactly the pairs whose write has
    returned, and no pair's write has returned twice. *)
Definition pairs_invariant (st : reference_state) : Prop :=
  ∀ p, successes p (reference_calls st)
       = if decide (p ∈ inserted_reference_pairs st) then 1%nat else 0%nat.

Lemma successes_cons p e history :
  successes p (e :: history)
  = ((if decide (reference_pair e = Some p ∧ ev_ok e = true)
      then 1 else 0) + successes p history)%nat.
Proof. unfold successes. rewrite filter_cons. by case_decide. Qed.

Lemma insert_pair_invariant kind weight st s t :
  pairs_invariant st → pairs_invariant (insert_pair env kind weight st s t).
Proof.
  intros Hst p. unfold insert_pair.
  destruct (decide ((s, t) ∈ inserted_reference_pairs st)) as [Hin|Hout];
    [apply Hst|].
  destruct (insert_reference env _ _); simpl;
    rewrite successes_cons, Hst; simpl.
  - destruct (decide (p = (s, t))) as [->|Hp].
    + rewrite decide_True by done.
      rewrite (decide_False (P := (s, t) ∈ inserted_reference_pairs st)) by done.
      rewrite decide_True by set_solver. done.
    + rewrite decide_False by (intros [[=] _]; congruence).
      simpl. destruct (decide (p ∈ inserted_reference_pairs st)) as [Hp'|Hp'].
      * rewrite decide_True; [done|]. apply elem_of_union. by left.
      * rewrite decide_False; [done|].
        intros [?|?%elem_of_singleton]%elem_of_union; done.
  - rewrite decide_False by (by intros [_ ?]). done.
Qed.

Lemma successes_none p history :
  Forall (λ e, reference_pair e = None) history → successes p history = 0%nat.
Proof.
  induction 1 as [|e h He _ IH]; [done|].
  rewrite successes_cons, IH, decide_False; [done|].
  intros [Hp _]. congruence.
Qed.

Lemma create_references_successes m r fz id_map history p :
  Forall (λ e, reference_pair e = None) history →
  (successes p (reference_calls (create_references env m r fz id_map history))
   ≤ 1)%nat.
Proof.
  intros Hh.
  assert (pairs_invariant (create_references env m r fz id_map history)) as Hinv.
  { apply create_references_keeps.
    - intros kind weight st s t _. apply insert_pair_invariant.
    - intros q. simpl. rewrite successes_none by done.
      by rewrite decide_False by set_solver. }
  rewrite Hinv. case_decide; lia.
Qed.

End References.

(** ** The run as a whole *)

Section Run.

Context {ParsedDoc DocTree : Type} (env : collaborators ParsedDoc DocTree).

(** A run that ends before phase 4 makes no call and prints no summary. *)
Lemma phases_1_to_3_early file_path document_id early :
  phases_1_to_3 env file_path document_id = inl early →
  early = failure [] []
  ∨ early = success (effective_document_id file_path document_id) [] [].
Proof.
  unfold phases_1_to_3.
  repeat match goal with
         | |- context [match ?x with _ => _ end] => destruct x
         end; intros [= <-]; auto.
Qed.

(** The calls of the fuzzy lookups of a run are path queries. *)
Lemma fuzzy_phase_calls (P : event → Prop) eid cs :
  (∀ p ok, P {| ev_call := FindNodesByPath (wildcard p) 10; ev_ok := ok |}) →
  Forall P (fuzzy_calls (fuzzy_phase env eid cs)).
Proof.
  intros HP. apply (extends_Forall P []); [constructor|].
  by apply fuzzy_lookups_calls.
Qed.

(** The calls made after the fuzzy lookups, up to and including the
    insertion of the nodes and the parent links, are neither path queries
    nor references. *)
Lemma calls_until_insertion (P : event → Prop) eid cs ns :
  holds_between P →
  extends P (fuzzy_calls (fuzzy_phase env eid cs))
    (insertion_calls (insertion_phase env eid cs ns)).
Proof.
  intros HP. unfold insertion_phase.
  eapply extends_trans; [|apply insert_nodes_calls].
  - eapply extends_trans; [|apply clear_existing_calls].
    + apply extends_cons; [|apply extends_refl].
      by apply HP; [constructor | |].
    + intros. by apply HP; [constructor | |].
  - intros. by apply HP; [constructor | |].
Qed.

Lemma calls_until_references (P : event → Prop) eid cs ns chunk_map id_map :
  holds_between P →
  extends P (fuzzy_calls (fuzzy_phase env eid cs))
    (parent_calls
       (set_parent_links env chunk_map id_map
          (insertion_calls (insertion_phase env eid cs ns)))).
Proof.
  intros HP.
  eapply extends_trans; [by apply calls_until_insertion|].
  apply set_parent_links_calls. intros. by apply HP; [constructor | |].
Qed.

(** From the enriched chunks on, a run is the fuzzy lookups followed by
    calls that are not path queries. *)
Lemma phase_4_extends (P : event → Prop) eid cs :
  holds_between P →
  (∀ rf ok, source_node_id rf ≠ target_node_id rf →
            P {| ev_call := InsertReference rf; ev_ok := ok |}) →
  db_nodes_to_insert (node_mapper eid cs) ≠ [] →
  extends P (fuzzy_calls (fuzzy_phase env eid cs)) (calls (phase_4 env eid cs)).
Proof.
  intros HP Hr Hn. unfold phase_4.
  destruct (db_nodes_to_insert (node_mapper eid cs)) eqn:Hm; [done|].
  unfold embed_and_insert.
  destruct (generate_node_embeddings env _ _) as [ns|]; simpl.
  - destruct (nothing_inserted _); simpl.
    + by apply (calls_until_insertion P eid cs ns).
    + eapply extends_trans;
        [by apply (calls_until_references P eid cs ns)|].
      by apply create_references_calls.
  - apply extends_cons; [|apply extends_refl].
    by apply HP; [constructor | |].
Qed.

Lemma phase_4_calls eid cs :
  Forall (λ e, run_call (ev_call e)) (calls (phase_4 env eid cs)).
Proof.
  destruct (decide (db_nodes_to_insert (node_mapper eid cs) = [])) as [Hn|Hn].
  - unfold phase_4. rewrite Hn. constructor.
  - eapply extends_Forall; [|apply phase_4_extends; [| |exact Hn]].
    + apply fuzzy_phase_calls. intros. constructor.
    + by intros c ok Hc _ _.
    + intros. by constructor.
Qed.

Lemma process_document_calls file_path document_id :
  Forall (λ e, run_call (ev_call e))
    (calls (process_document env file_path document_id)).
Proof.
  unfold process_document.
  destruct (phases_1_to_3 env file_path document_id) as [early|cs] eqn:Hp.
  - apply phases_1_to_3_early in Hp as [-> | ->]; constructor.
  - apply phase_4_calls.
Qed.

Lemma phase_4_successes eid cs p :
  (successes p (calls (phase_4 env eid cs)) ≤ 1)%nat.
Proof.
  assert (∀ h, Forall (λ e, reference_pair e = None) h → successes p h ≤ 1)%nat
    as Hnone by (intros h Hh; rewrite successes_none by done; lia).
  assert (Forall (λ e, reference_pair e = None)
            (fuzzy_calls (fuzzy_phase env eid cs))) as Hfz
    by (by apply fuzzy_phase_calls).
  unfold phase_4.
  destruct (db_nodes_to_insert (node_mapper eid cs)) eqn:Hm;
    [by apply Hnone|].
  unfold embed_and_insert.
  destruct (generate_node_embeddings env _ _) as [ns|]; simpl.
  - destruct (nothing_inserted _); simpl.
    + apply Hnone. eapply extends_Forall; [exact Hfz|].
      apply (calls_until_insertion _ eid cs ns). by intros c ok _ _ Hc.
    + apply create_references_successes.
      eapply extends_Forall; [exact Hfz|].
      apply (calls_until_references _ eid cs ns). by intros c ok _ _ Hc.
  - apply Hnone. by constructor.
Qed.

End Run.

(** ** C2: the embedding gate *)

Section Gate.

Context {ParsedDoc DocTree : Type} (env : collaborators ParsedDoc DocTree).

Lemma embedding_ok_flag n :
  embedding_ok n = true ↔ embedding_generated (node_metadata n) = Some true.
Proof.
  unfold embedding_ok.
  destruct (embedding_generated (node_metadata n)) as [[]|];
    split; congruence.
Qed.

Lemma insert_one_skipped st n :
  skipped n → insert_one env st n = count_failed st.
Proof.
  intros Hs. unfold insert_one, usable_original_id.
  destruct Hs as [-> | Hflag]; [done|].
  destruct (original_id (node_metadata n)) as [o|]; [|done].
  destruct (Py.truthy_str o); [|done].
  destruct (embedding_ok n) eqn:He; [|done].
  by apply embedding_ok_flag in He.
Qed.

(** Every record is counted once, and every skipped record as failed. *)
Lemma insert_loop_counts ns st :
  let st' := foldl (insert_one env) st ns in
  (inserted_count st' + failed_count st'
   = inserted_count st + failed_count st + length ns)%nat
  ∧ (failed_count st + length (filter skipped ns) ≤ failed_count st')%nat.
Proof.
  revert st. induction ns as [|n ns IH]; intros st; simpl; [lia|].
  destruct (IH (insert_one env st n)) as [IH1 IH2].
  rewrite filter_cons.
  destruct (decide (skipped n)) as [Hs|Hs].
  - rewrite insert_one_skipped in * by done. simpl in *. lia.
  - revert IH1 IH2. generalize (foldl (insert_one env) (insert_one env st n) ns).
    unfold insert_one.
    destruct (usable_original_id n); [|simpl; lia].
    destruct (embedding_ok n); simpl; [|lia].
    destruct (insert_node env _ n); simpl; lia.
Qed.

End Gate.

(** C2. [insert_node] is called only for records whose metadata has
    [embedding_generated] true; a record that lacks [original_id] or whose
    flag is not true is skipped and counted as failed; so the insertion loop
    counts every record once, and at least the skipped ones as failed. *)
Theorem embedding_gate
    {ParsedDoc DocTree : Type} (env : collaborators ParsedDoc DocTree)
    (file_path : string) (document_id : option string) :
  (∀ e n, e ∈ calls (process_document env file_path document_id) →
          ev_call e = InsertNode n →
          embedding_generated (node_metadata n) = Some true)
  ∧ (∀ st n, skipped n → insert_one env st n = count_failed st)
  ∧ (∀ history ns,
       let st := insert_nodes env history ns in
       (length (filter skipped ns) ≤ failed_count st)%nat
       ∧ (inserted_count st + failed_count st = length ns)%nat).
Proof.
  split; [|split].
  - intros e n He Hc.
    pose proof (process_document_calls env file_path document_id) as Hall.
    rewrite Forall_forall in Hall. specialize (Hall e He).
    rewrite Hc in Hall. inversion Hall; subst.
    by apply embedding_ok_flag.
  - intros st n. apply insert_one_skipped.
  - intros history ns st.
    destruct (insert_loop_counts env ns (insertion_init history)) as [H1 H2].
    fold (insert_nodes env history ns) in H1, H2. fold st in H1, H2.
    simpl in *. lia.
Qed.

Lemma embedding_gate_witness :
  ∃ e n, e ∈ calls Fixture.scenario ∧ ev_call e = InsertNode n
         ∧ embedding_generated (node_metadata n) = Some true.
Proof.
  set (n := Fixture.embed true
              (node_data "A" "id1" Fixture.guide
                 (Fixture.section ["Guide"] None []))).
  exists (returned (InsertNode n)), n.
  assert (returned (InsertNode n) ∈ calls Fixture.scenario) as Hin.
  { vm_compute. do 3 apply list_elem_of_further. apply list_elem_of_here. }
  split; [exact Hin|]. split; [reflexivity|].
  exact (proj1 (embedding_gate (Fixture.healthy [Fixture.guide; Fixture.step1])
                  "docs/A.md" None) _ n Hin eq_refl).
Defined.

(** ** C3: nothing inserted *)

Section Outcome.

Context {ParsedDoc DocTree : Type} (env : collaborators ParsedDoc DocTree).

Lemma nothing_inserted_counts ins :
  nothing_inserted ins = true
  ↔ inserted_count ins = 0%nat ∧ (0 < failed_count ins)%nat.
Proof.
  unfold nothing_inserted.
  rewrite andb_true_iff, Nat.eqb_eq, Nat.ltb_lt. done.
Qed.

Lemma phase_4_result eid enriched_chunks :
  result (phase_4 env eid enriched_chunks) = None
  ∨ result (phase_4 env eid enriched_chunks) = Some eid.
Proof.
  unfold phase_4.
  destruct (db_nodes_to_insert _); [by right|].
  unfold embed_and_insert.
  destruct (generate_node_embeddings env _ _); [|by left].
  destruct (nothing_inserted _); [by left | by right].
Qed.

Lemma phase_4_nothing_inserted eid enriched_chunks failed :
  NodeInsertionComplete 0 failed ∈ stdout (phase_4 env eid enriched_chunks) →
  (0 < failed)%nat →
  result (phase_4 env eid enriched_chunks) = None.
Proof.
  unfold phase_4.
  destruct (db_nodes_to_insert _).
  { simpl. intros Hin. apply list_elem_of_singleton in Hin. done. }
  unfold embed_and_insert.
  destruct (generate_node_embeddings env _ _); [|done].
  destruct (nothing_inserted _) eqn:Hn; [done|].
  simpl. rewrite !elem_of_cons, elem_of_nil.
  intros [?|[[= Hi Hf]|[?|[?|[?|[]]]]]] Hpos; try done.
  apply not_true_iff_false in Hn. destruct Hn.
  apply nothing_inserted_counts. split; [done | lia].
Qed.

End Outcome.

(** C3. When the insertion loop ends with no node inserted and at least one
    record counted as failed, [process_document] returns no document id. *)
Theorem all_inserts_failed_is_fatal
    {ParsedDoc DocTree : Type} (env : collaborators ParsedDoc DocTree)
    (file_path : string) (document_id : option string) (failed : nat) :
  NodeInsertionComplete 0 failed
    ∈ stdout (process_document env file_path document_id) →
  (0 < failed)%nat →
  result (process_document env file_path document_id) = None.
Proof.
  unfold process_document.
  destruct (phases_1_to_3 env file_path document_id) as [early|cs] eqn:Hp.
  - apply phases_1_to_3_early in Hp as [-> | ->]; simpl;
      intros Hin; by apply elem_of_nil in Hin.
  - apply phase_4_nothing_inserted.
Qed.

Lemma all_inserts_failed_is_fatal_witness :
  NodeInsertionComplete 0 2 ∈ stdout Fixture.rejected_nodes
  ∧ result Fixture.rejected_nodes = None.
Proof.
  assert (NodeInsertionComplete 0 2 ∈ stdout Fixture.rejected_nodes) as Hin.
  { vm_compute. apply list_elem_of_here. }
  split; [exact Hin|].
  apply (all_inserts_failed_is_fatal
           (Fixture.world [Fixture.guide; Fixture.step1]
              true true true false true [])
           "docs/A.md" None 2 Hin).
  lia.
Defined.

(** ** C10: the document id of a run *)

(** C10, as amended. A run that succeeds returns the effective document
    id: the caller's id when one is given and is not the empty string, and
    otherwise the name of the source file without its extension. *)
Theorem returned_id_is_effective_id
    {ParsedDoc DocTree : Type} (env : collaborators ParsedDoc DocTree)
    (file_path : string) (document_id : option string) (returned_id : string) :
  result (process_document env file_path document_id) = Some returned_id →
  returned_id
  = match document_id with
    | Some given => if decide (given = "") then Py.stem file_path else given
    | None => Py.stem file_path
    end.
Proof.
  assert (effective_document_id file_path document_id
          = match document_id with
            | Some given => if decide (given = "") then Py.stem file_path else given
            | None => Py.stem file_path
            end) as <-.
  { unfold effective_document_id, Py.truthy_str.
    destruct document_id as [given|]; [|done].
    destruct (String.eqb_spec given ""); simpl; by case_decide. }
  unfold process_document.
  destruct (phases_1_to_3 env file_path document_id) as [early|cs] eqn:Hp.
  - apply phases_1_to_3_early in Hp as [-> | ->]; simpl; congruence.
  - destruct (phase_4_result env (effective_document_id file_path document_id) cs)
      as [-> | ->]; congruence.
Qed.

Lemma returned_id_is_effective_id_witness :
  result Fixture.scenario = Some "A" ∧ "A" = Py.stem "docs/A.md".
Proof.
  assert (result Fixture.scenario = Some "A") as Hr by reflexivity.
  split; [exact Hr|].
  exact (returned_id_is_effective_id
           (Fixture.healthy [Fixture.guide; Fixture.step1])
           "docs/A.md" None "A" Hr).
Defined.

(** C10 as stated fails: a caller who passes the empty string as the
    document id gets the file's stem back, not the id that was passed. *)
Lemma empty_document_id_is_replaced :
  result Fixture.empty_id = Some "A" ∧ result Fixture.empty_id ≠ Some "".
Proof. split; [reflexivity | discriminate]. Qed.

(** ** C6: no valid chunk *)

Lemma node_mapper_nodes eid enriched_chunks st :
  db_nodes_to_insert (foldl (map_chunk eid) st enriched_chunks) = []
  ↔ db_nodes_to_insert st = [] ∧ Forall discarded enriched_chunks.
Proof.
  revert st. induction enriched_chunks as [|c cs IH]; intros st; simpl.
  { split; [by intros ->|by intros [-> _]]. }
  rewrite IH, Forall_cons. unfold map_chunk, discarded.
  destruct (chunk_id c) as [i|], (chunk_metadata c) as [md|]; simpl;
    try (intuition; fail).
  split.
  - intros [Happ _]. by apply app_nil in Happ as [_ ?].
  - intros [_ [[?|?] _]]; done.
Qed.

(** C6. If no node record was prepared, which is when every chunk lacks an
    identity or a metadata payload, [process_document] returns the document
    id, having made no call to the store or to the embedder and printed no
    summary of reference resolution or of any later phase. *)
Theorem no_valid_chunk_succeeds
    {ParsedDoc DocTree : Type} (env : collaborators ParsedDoc DocTree)
    (file_path : string) (document_id : option string)
    (enriched_chunks : list chunk) :
  phases_1_to_3 env file_path document_id = inr enriched_chunks →
  db_nodes_to_insert
    (node_mapper (effective_document_id file_path document_id) enriched_chunks)
  = [] →
  Forall discarded enriched_chunks
  ∧ process_document env file_path document_id
    = {| result := Some (effective_document_id file_path document_id);
         calls := [];
         stdout := [NoValidNodes] |}.
Proof.
  intros Hp Hn. split.
  - by apply node_mapper_nodes in Hn as [_ ?].
  - unfold process_document. rewrite Hp. unfold phase_4. by rewrite Hn.
Qed.

Lemma no_valid_chunk_succeeds_witness :
  process_document (Fixture.healthy [Fixture.no_metadata "id1"]) "docs/A.md" None
  = {| result := Some "A"; calls := []; stdout := [NoValidNodes] |}.
Proof.
  exact (proj2 (no_valid_chunk_succeeds
                  (Fixture.healthy [Fixture.no_metadata "id1"])
                  "docs/A.md" None [Fixture.no_metadata "id1"]
                  eq_refl eq_refl)).
Defined.

(** ** The embedding call *)

Section Embedding.

Context {ParsedDoc DocTree : Type} (env : collaborators ParsedDoc DocTree).

Lemma phase_4_embedding_raised eid cs :
  db_nodes_to_insert (node_mapper eid cs) ≠ [] →
  embedding_phase env eid cs = None →
  phase_4 env eid cs
  = failure (raised (embedding_call eid cs) :: fuzzy_calls (fuzzy_phase env eid cs))
      (stdout (phase_4 env eid cs)).
Proof.
  unfold embedding_phase, fuzzy_phase, resolution, embedding_call, phase_4.
  intros Hn He.
  destruct (db_nodes_to_insert (node_mapper eid cs)) eqn:Hm; [done|].
  unfold embed_and_insert. rewrite Hm. simpl in *. by rewrite He.
Qed.

Lemma phase_4_embedding_returned eid cs ns :
  db_nodes_to_insert (node_mapper eid cs) ≠ [] →
  embedding_phase env eid cs = Some ns →
  let ins := insertion_phase env eid cs ns in
  NodeInsertionComplete (inserted_count ins) (failed_count ins)
    ∈ stdout (phase_4 env eid cs)
  ∧ result (phase_4 env eid cs)
    = if nothing_inserted ins then None else Some eid.
Proof.
  unfold embedding_phase, insertion_phase, fuzzy_phase, resolution,
    embedding_call, phase_4.
  intros Hn He.
  destruct (db_nodes_to_insert (node_mapper eid cs)) eqn:Hm; [done|].
  unfold embed_and_insert. rewrite Hm. simpl in *. rewrite He.
  destruct (nothing_inserted _); simpl; split; try done.
  - apply list_elem_of_here.
  - apply list_elem_of_further, list_elem_of_here.
Qed.

End Embedding.

(** ** C4: no reference from a node to itself *)

Lemma resolve_references_distinct index chunk_map :
  Forall (λ p, p.1 ≠ p.2)
    (exact_resolved_references (resolve_references index chunk_map)).
Proof.
  unfold resolve_references.
  apply (foldl_keeps (λ st, Forall (λ p, p.1 ≠ p.2) (exact_resolved_references st)));
    [|constructor].
  intros st [source c] _ Hst. unfold resolve_chunk. simpl.
  revert st Hst.
  apply (foldl_keeps (λ st, Forall (λ p, p.1 ≠ p.2) (exact_resolved_references st))).
  intros st item _ Hst. unfold resolve_mention.
  destruct (path_key_str item) as [key|]; [|exact Hst].
  destruct (index !! key) as [target|]; [|exact Hst].
  destruct (Py.truthy_str target); [|exact Hst].
  destruct (decide (source ≠ target)); [|exact Hst].
  simpl. apply Forall_app. split; [exact Hst|]. by repeat constructor.
Qed.

(** C4. Every reference the run hands to [insert_reference] has a source
    storage id different from its target storage id: exact resolution
    records no pair whose target is its source, the exact pass skips a pair
    whose two ends have the same storage id, and the fuzzy pass skips a
    candidate whose storage id is that of the source. *)
Theorem no_self_edges
    {ParsedDoc DocTree : Type} (env : collaborators ParsedDoc DocTree)
    (file_path : string) (document_id : option string) :
  (∀ e r, e ∈ calls (process_document env file_path document_id) →
          ev_call e = InsertReference r →
          source_node_id r ≠ target_node_id r)
  ∧ (∀ index chunk_map source target,
       (source, target)
         ∈ exact_resolved_references (resolve_references index chunk_map) →
       source ≠ target)
  ∧ (∀ id_map st source target,
       Py.dict_get source id_map = Py.dict_get target id_map →
       exact_reference env id_map st (source, target) = st)
  ∧ (∀ id_map st source_db_id target_node,
       sn_id target_node = Some source_db_id →
       fuzzy_target env id_map source_db_id st target_node = st).
Proof.
  repeat split.
  - intros e r He Hc.
    pose proof (process_document_calls env file_path document_id) as Hall.
    rewrite Forall_forall in Hall. specialize (Hall e He).
    rewrite Hc in Hall. by inversion Hall.
  - intros index chunk_map source target Hin.
    pose proof (resolve_references_distinct index chunk_map) as Hall.
    rewrite Forall_forall in Hall. exact (Hall _ Hin).
  - intros id_map st source target Heq. unfold exact_reference. simpl.
    rewrite Heq. destruct (Py.dict_get target id_map) as [d|]; [|done].
    rewrite bool_decide_eq_false_2 by (intros Hne; by apply Hne).
    by rewrite andb_false_r.
  - intros id_map st source_db_id target_node Hid. unfold fuzzy_target.
    rewrite Hid.
    rewrite (bool_decide_eq_false_2 (source_db_id ≠ source_db_id))
      by (intros Hne; by apply Hne).
    by rewrite andb_false_r.
Qed.

Lemma no_self_edges_witness :
  ∃ e r, e ∈ calls Fixture.scenario ∧ ev_call e = InsertReference r
         ∧ source_node_id r ≠ target_node_id r.
Proof.
  set (r := {| source_node_id := 2; target_node_id := 1;
               reference_type := exact_type; strength := exact_strength |}).
  exists (returned (InsertReference r)), r.
  assert (returned (InsertReference r) ∈ calls Fixture.scenario) as Hin.
  { vm_compute. apply list_elem_of_here. }
  split; [exact Hin|]. split; [reflexivity|].
  exact (proj1 (no_self_edges (Fixture.healthy [Fixture.guide; Fixture.step1])
                  "docs/A.md" None) _ r Hin eq_refl).
Defined.

(** ** C9: the path index *)

Lemma registers_spec key original :
  registers key original = true ↔ key ≠ unknown_path ∧ original ≠ "".
Proof.
  unfold registers, Py.truthy_str.
  rewrite andb_true_iff, bool_decide_eq_true, negb_true_iff.
  destruct (String.eqb_spec original ""); simpl; intuition congruence.
Qed.

Lemma map_chunk_index eid st c key :
  path_to_original_id_map (map_chunk eid st c) !! key
  = match chunk_id c, chunk_metadata c with
    | Some original, Some md =>
        if decide (path_str md = key ∧ registers key original = true)
        then Some original
        else path_to_original_id_map st !! key
    | _, _ => path_to_original_id_map st !! key
    end.
Proof.
  unfold map_chunk.
  destruct (chunk_id c) as [original|], (chunk_metadata c) as [md|]; try done.
  simpl. destruct (registers (path_str md) original) eqn:Hr.
  - destruct (decide (path_str md = key)) as [<-|Hne].
    + rewrite lookup_insert_eq. by rewrite decide_True.
    + rewrite lookup_insert_ne by done. rewrite decide_False; [done|].
      by intros [? _].
  - rewrite decide_False; [done|]. intros [<- ?]. congruence.
Qed.

Lemma map_chunk_unclaimed eid st c key :
  ¬ claims key c →
  path_to_original_id_map (map_chunk eid st c) !! key
  = path_to_original_id_map st !! key.
Proof.
  intros Hc. rewrite map_chunk_index.
  destruct (chunk_id c) as [original|] eqn:Hi,
           (chunk_metadata c) as [md|] eqn:Hm; try done.
  rewrite decide_False; [done|].
  intros [Hp Hr]. apply Hc. by exists original, md.
Qed.

(** Whatever the index holds was written by a chunk of the batch. *)
Lemma node_mapper_index eid cs st key original :
  path_to_original_id_map (foldl (map_chunk eid) st cs) !! key = Some original →
  path_to_original_id_map st !! key = Some original
  ∨ (key ≠ unknown_path ∧ original ≠ ""
     ∧ ∃ c, c ∈ cs ∧ claims key c ∧ chunk_id c = Some original).
Proof.
  revert st. induction cs as [|c cs IH]; intros st; simpl; [by left|].
  intros Hl. apply IH in Hl as [Hl|(? & ? & c' & ? & ? & ?)].
  - rewrite map_chunk_index in Hl.
    destruct (chunk_id c) as [o|] eqn:Hi,
             (chunk_metadata c) as [md|] eqn:Hm; try by left.
    case_decide as Hd; [|by left]. destruct Hd as [Hp Hr].
    injection Hl as ->. right. apply registers_spec in Hr as Hr'.
    destruct Hr'. repeat split; try done.
    exists c. split; [by left|]. split; [|done]. by exists original, md.
  - right. repeat split; try done. exists c'. split; [by right|done].
Qed.

(** C9, as amended. Among the chunks that write a path key into the index,
    which are those with a non-empty id whose path is not the
    "Unknown Path" sentinel, the one processed last wins: the index maps
    the key to its id, whatever earlier chunks wrote there. Nothing else
    is registered: a key of the index is never the sentinel and its value
    is never the empty id. *)
Theorem last_registering_chunk_wins
    (eid : string) (before after : list chunk) (c : chunk)
    (original : string) (md : metadata) :
  chunk_id c = Some original →
  chunk_metadata c = Some md →
  path_str md ≠ unknown_path →
  original ≠ "" →
  Forall (λ c', ¬ claims (path_str md) c') after →
  path_to_original_id_map (node_mapper eid (before ++ c :: after)) !! path_str md
  = Some original
  ∧ ∀ key value,
      path_to_original_id_map (node_mapper eid (before ++ c :: after)) !! key
      = Some value →
      key ≠ unknown_path ∧ value ≠ "".
Proof.
  intros Hi Hm Hp Ho Hafter. split.
  - unfold node_mapper. rewrite foldl_app. simpl.
    apply (foldl_keeps
             (λ st, path_to_original_id_map st !! path_str md = Some original)).
    + intros st c' Hin Hst. rewrite map_chunk_unclaimed; [done|].
      rewrite Forall_forall in Hafter. by apply Hafter.
    + rewrite map_chunk_index, Hi, Hm. rewrite decide_True; [done|].
      split; [done|]. by apply registers_spec.
  - intros key value Hl. unfold node_mapper in Hl.
    apply node_mapper_index in Hl as [Hl|(? & ? & _)]; [|done].
    simpl in Hl. by rewrite lookup_empty in Hl.
Qed.

Lemma last_registering_chunk_wins_witness :
  path_to_original_id_map
    (node_mapper "A" ([Fixture.guide] ++ Fixture.mk_chunk "id9"
                        (Fixture.section ["Guide"] None []) :: [Fixture.step1]))
    !! "Guide" = Some "id9".
Proof.
  refine (proj1 (last_registering_chunk_wins "A" [Fixture.guide] [Fixture.step1]
                   (Fixture.mk_chunk "id9" (Fixture.section ["Guide"] None []))
                   "id9" (Fixture.section ["Guide"] None [])
                   eq_refl eq_refl _ _ _)).
  - discriminate.
  - discriminate.
  - repeat constructor. intros (o & md & _ & Hm & Hp & _).
    injection Hm as <-. discriminate.
Defined.

(** C9 as stated fails: the later of two chunks with the path "Guide" has
    the empty id, does not write the index, and the key stays with the
    earlier chunk. *)
Lemma later_chunk_without_id_does_not_win :
  path_str (Fixture.section ["Guide"] None []) = "Guide"
  ∧ chunk_id Fixture.guide_again = Some ""
  ∧ path_to_original_id_map Fixture.same_path !! "Guide" = Some "id1"
  ∧ path_to_original_id_map Fixture.same_path !! "Guide"
    ≠ chunk_id Fixture.guide_again.
Proof. vm_compute. repeat split; discriminate. Qed.

(** ** C7: from hierarchy paths to exact edges and pending patterns *)

Section Resolution.

Variable index : gmap string string.

(** A property of the resolver state that no mention undoes ... *)
Variable K : resolver_state → Prop.
Hypothesis K_kept :
  ∀ source st item, K st → K (resolve_mention index source st item).

Lemma resolve_chunk_keeps st entry : K st → K (resolve_chunk index st entry).
Proof. unfold resolve_chunk. apply foldl_keeps. intros; by apply K_kept. Qed.

(** ... and that a mention of the batch establishes, holds at the end. *)
Lemma resolve_references_reaches chunk_map source c item :
  (source, c) ∈ chunk_map →
  item ∈ related_sections_of c →
  (∀ st, K (resolve_mention index source st item)) →
  K (resolve_references index chunk_map).
Proof.
  intros Hc Hi Hdoes. unfold resolve_references.
  apply list_elem_of_split in Hc as (l1 & l2 & ->).
  rewrite foldl_app. simpl.
  apply foldl_keeps; [intros; by apply resolve_chunk_keeps|].
  unfold resolve_chunk at 1. simpl.
  apply list_elem_of_split in Hi as (i1 & i2 & ->).
  rewrite foldl_app. simpl.
  apply foldl_keeps; [intros; by apply K_kept|]. apply Hdoes.
Qed.

End Resolution.

Lemma resolve_mention_keeps_exact index pair source st item :
  pair ∈ exact_resolved_references st →
  pair ∈ exact_resolved_references (resolve_mention index source st item).
Proof.
  intros Hin. unfold resolve_mention.
  destruct (path_key_str item) as [key|]; [|done].
  destruct (index !! key) as [target|]; [|done].
  destruct (Py.truthy_str target); [|done].
  destruct (decide (source ≠ target)); [|done].
  simpl. apply elem_of_app. by left.
Qed.

Lemma resolve_mention_keeps_pending index key source st item :
  key ∈ paths_needing_fuzzy_lookup st →
  key ∈ paths_needing_fuzzy_lookup (resolve_mention index source st item).
Proof.
  intros Hin. unfold resolve_mention, add_fuzzy.
  destruct (path_key_str item) as [key'|]; [|done].
  destruct (index !! key') as [target|]; simpl.
  - destruct (Py.truthy_str target); simpl.
    + by destruct (decide (source ≠ target)).
    + apply elem_of_union. by left.
  - apply elem_of_union. by left.
Qed.

(** A hit of the index with another chunk is recorded as an exact pair. *)
Lemma resolve_references_hit index chunk_map source c item key target :
  (∀ k v, index !! k = Some v → v ≠ "") →
  (source, c) ∈ chunk_map →
  item ∈ related_sections_of c →
  path_key_str item = Some key →
  index !! key = Some target →
  target ≠ source →
  (source, target) ∈ exact_resolved_references (resolve_references index chunk_map).
Proof.
  intros Hidx Hc Hi Hk Hl Hne.
  apply (resolve_references_reaches index
           (λ st, (source, target) ∈ exact_resolved_references st)
           (resolve_mention_keeps_exact index (source, target))
           chunk_map source c item Hc Hi).
  intros st. unfold resolve_mention. rewrite Hk, Hl.
  assert (Py.truthy_str target = true) as ->.
  { unfold Py.truthy_str. apply negb_true_iff.
    destruct (String.eqb_spec target ""); [|done]. by apply Hidx in Hl. }
  rewrite decide_True by done. simpl.
  apply elem_of_app. right. apply list_elem_of_here.
Qed.

(** A miss of the index puts the key into the pending set. *)
Lemma resolve_references_miss index chunk_map source c item key :
  (source, c) ∈ chunk_map →
  item ∈ related_sections_of c →
  path_key_str item = Some key →
  index !! key = None →
  key ∈ paths_needing_fuzzy_lookup (resolve_references index chunk_map).
Proof.
  intros Hc Hi Hk Hl.
  apply (resolve_references_reaches index
           (λ st, key ∈ paths_needing_fuzzy_lookup st)
           (resolve_mention_keeps_pending index key)
           chunk_map source c item Hc Hi).
  intros st. unfold resolve_mention, add_fuzzy. rewrite Hk, Hl. simpl.
  apply elem_of_union. right. by apply elem_of_singleton.
Qed.





(** ** C5: the batch of fuzzy lookups *)

Lemma wildcard_inj p q : wildcard p = wildcard q → p = q.
Proof.
  unfold wildcard. intros [= H]. revert q H.
  induction p as [|a p IH]; intros [|b q] H; simpl in H.
  - done.
  - injection H as _ H. destruct q; discriminate.
  - injection H as _ H. destruct p; discriminate.
  - injection H as -> H. f_equal. by apply IH.
Qed.

Section Lookups.

Context {ParsedDoc DocTree : Type} (env : collaborators ParsedDoc DocTree).
Variable eid : string.

Lemma fuzzy_lookups_snoc ps p :
  fuzzy_lookups env eid [] (ps ++ [p])
  = fuzzy_lookup env eid (fuzzy_lookups env eid [] ps) p.
Proof. unfold fuzzy_lookups. by rewrite foldl_app. Qed.

(** One lookup: one query, recorded with its outcome; the entry of the
    pattern is the only one that can change. *)
Lemma fuzzy_lookup_step st p :
  ∃ e,
    fuzzy_calls (fuzzy_lookup env eid st p) = e :: fuzzy_calls st
    ∧ ev_call e = FindNodesByPath (wildcard p) 10
    ∧ (∀ q, q ≠ p →
            fuzzy_path_to_nodes_map (fuzzy_lookup env eid st p) !! q
            = fuzzy_path_to_nodes_map st !! q)
    ∧ match find_nodes_by_path env (fuzzy_calls st) (wildcard p) 10 with
      | Some raw =>
          ev_ok e = true
          ∧ fuzzy_lookup_errors (fuzzy_lookup env eid st p)
            = fuzzy_lookup_errors st
          ∧ fuzzy_path_to_nodes_map (fuzzy_lookup env eid st p) !! p
            = match filter (same_document eid) raw with
              | [] => fuzzy_path_to_nodes_map st !! p
              | found => Some found
              end
      | None =>
          ev_ok e = false
          ∧ fuzzy_lookup_errors (fuzzy_lookup env eid st p)
            = S (fuzzy_lookup_errors st)
          ∧ fuzzy_path_to_nodes_map (fuzzy_lookup env eid st p) !! p
            = fuzzy_path_to_nodes_map st !! p
      end.
Proof.
  unfold fuzzy_lookup.
  destruct (find_nodes_by_path env (fuzzy_calls st) (wildcard p) 10)
    as [raw|]; simpl; eexists; (split; [reflexivity|]); simpl;
    (split; [reflexivity|]); [|done].
  destruct raw as [|n raw]; [done|].
  destruct (filter (same_document eid) (n :: raw)) as [|f found]; [done|].
  split; [|by rewrite lookup_insert_eq].
  intros q Hq. by rewrite lookup_insert_ne.
Qed.

Lemma fuzzy_lookups_length ps :
  length (fuzzy_calls (fuzzy_lookups env eid [] ps)) = length ps.
Proof.
  induction ps as [|p ps IH] using rev_ind; [done|].
  rewrite fuzzy_lookups_snoc, length_app. simpl.
  destruct (fuzzy_lookup_step (fuzzy_lookups env eid [] ps) p)
    as (e & -> & _). simpl. lia.
Qed.

Lemma fuzzy_lookups_queries ps :
  Forall (λ e, ∃ q, q ∈ ps ∧ ev_call e = FindNodesByPath (wildcard q) 10)
    (fuzzy_calls (fuzzy_lookups env eid [] ps)).
Proof.
  induction ps as [|p ps IH] using rev_ind; [constructor|].
  rewrite fuzzy_lookups_snoc.
  destruct (fuzzy_lookup_step (fuzzy_lookups env eid [] ps) p)
    as (e & -> & He & _).
  constructor.
  - exists p. split; [|done]. apply elem_of_app. right. apply list_elem_of_here.
  - eapply Forall_impl; [exact IH|]. intros e' (q & Hq & Hc).
    exists q. split; [|done]. apply elem_of_app. by left.
Qed.

Lemma fuzzy_lookups_errors ps :
  fuzzy_lookup_errors (fuzzy_lookups env eid [] ps)
  = length (filter (λ e, ev_ok e = false)
              (fuzzy_calls (fuzzy_lookups env eid [] ps))).
Proof.
  induction ps as [|p ps IH] using rev_ind; [done|].
  rewrite fuzzy_lookups_snoc.
  destruct (fuzzy_lookup_step (fuzzy_lookups env eid [] ps) p)
    as (e & -> & _ & _ & Hout).
  rewrite filter_cons.
  destruct (find_nodes_by_path env _ _ _); destruct Hout as (-> & -> & _);
    simpl; by rewrite IH.
Qed.

Lemma fuzzy_lookups_once ps q :
  NoDup ps →
  queries (wildcard q) 10 (fuzzy_calls (fuzzy_lookups env eid [] ps))
  = if decide (q ∈ ps) then 1%nat else 0%nat.
Proof.
  induction ps as [|p ps IH] using rev_ind; intros Hnd.
  { rewrite decide_False; [done|]. apply not_elem_of_nil. }
  apply NoDup_app in Hnd as (Hps & Hp & _).
  rewrite fuzzy_lookups_snoc.
  destruct (fuzzy_lookup_step (fuzzy_lookups env eid [] ps) p)
    as (e & -> & He & _).
  assert (query_of e = Some (wildcard p, 10)) as Hq
    by (unfold query_of; by rewrite He).
  unfold queries in *. rewrite filter_cons.
  specialize (IH Hps).
  destruct (decide (q = p)) as [->|Hne].
  - rewrite decide_True by done. simpl. rewrite IH.
    rewrite decide_False by (intros Hin; apply (Hp p Hin), list_elem_of_here).
    rewrite decide_True; [done|]. apply elem_of_app. right. apply list_elem_of_here.
  - rewrite decide_False
      by (rewrite Hq; intros Hw; apply Hne; symmetry;
          apply wildcard_inj; congruence).
    rewrite IH. destruct (decide (q ∈ ps)) as [Hin|Hout].
    + rewrite decide_True; [done|]. apply elem_of_app. by left.
    + rewrite decide_False; [done|].
      intros [?|?%list_elem_of_singleton]%elem_of_app; done.
Qed.

Lemma fuzzy_lookups_map ps :
  NoDup ps →
  (∀ q, q ∉ ps → fuzzy_path_to_nodes_map (fuzzy_lookups env eid [] ps) !! q = None)
  ∧ (∀ q, q ∈ ps → looked_up env eid (fuzzy_lookups env eid [] ps) q).
Proof.
  induction ps as [|p ps IH] using rev_ind; intros Hnd.
  { split; [intros; apply lookup_empty|]. intros q Hq.
    by apply elem_of_nil in Hq. }
  apply NoDup_app in Hnd as (Hps & Hp & _).
  destruct (IH Hps) as [Hout Hin]. clear IH.
  assert (p ∉ ps) as Hfresh by (intros H; apply (Hp p H), list_elem_of_here).
  rewrite fuzzy_lookups_snoc.
  destruct (fuzzy_lookup_step (fuzzy_lookups env eid [] ps) p)
    as (e & Hc & He & Hother & Hthis).
  split.
  - intros q Hq. apply not_elem_of_app in Hq as [Hq Hqp].
    rewrite Hother; [by apply Hout|].
    intros ->. apply Hqp, list_elem_of_here.
  - intros q [Hq|Hq%list_elem_of_singleton]%elem_of_app.
    + destruct (Hin q Hq) as (e' & before & after & Hc' & He' & Hres).
      exists e', before, (e :: after). rewrite Hc, Hc'.
      split; [done|]. split; [done|].
      rewrite Hother by (intros ->; done). exact Hres.
    + subst q. exists e, (fuzzy_calls (fuzzy_lookups env eid [] ps)), [].
      rewrite Hc. split; [done|]. split; [done|].
      destruct (find_nodes_by_path env _ _ _) as [raw|].
      * destruct Hthis as (Hok & _ & Hm). split; [done|].
        rewrite Hm, (Hout p Hfresh). done.
      * destruct Hthis as (Hok & _ & Hm). split; [done|].
        by rewrite Hm, (Hout p Hfresh).
Qed.

End Lookups.

Section Batch.

Context {ParsedDoc DocTree : Type} (env : collaborators ParsedDoc DocTree).

Lemma extends_queries pattern cap history out :
  extends (λ e, query_of e = None) history out →
  queries pattern cap out = queries pattern cap history.
Proof.
  intros (new & -> & Hnew). unfold queries. rewrite filter_app, length_app.
  replace (filter (λ e, query_of e = Some (pattern, cap)) new) with (@nil event);
    [done|].
  induction Hnew as [|e new He _ IH]; [done|].
  rewrite filter_cons, decide_False; [exact IH|]. congruence.
Qed.

(** Discarded chunks leave the chunk map as it is. *)
Lemma node_mapper_chunk_map eid cs st :
  Forall discarded cs →
  original_id_to_chunk_map (foldl (map_chunk eid) st cs)
  = original_id_to_chunk_map st.
Proof.
  intros Hd. revert st. induction Hd as [|c cs Hc _ IH]; intros st; [done|].
  simpl. rewrite IH. unfold map_chunk.
  destruct Hc as [-> | Hm]; [done|]. rewrite Hm. by destruct (chunk_id c).
Qed.

(** A batch with a pending pattern has a node record. *)
Lemma pending_needs_nodes eid cs p :
  p ∈ paths_needing_fuzzy_lookup (resolution eid cs) →
  db_nodes_to_insert (node_mapper eid cs) ≠ [].
Proof.
  intros Hp Hn. unfold node_mapper in Hn.
  apply node_mapper_nodes in Hn as [_ Hd].
  unfold resolution, node_mapper in Hp.
  rewrite (node_mapper_chunk_map eid cs mapper_init Hd) in Hp.
  by apply not_elem_of_empty in Hp.
Qed.

Lemma phase_4_lookups_summary eid cs :
  db_nodes_to_insert (node_mapper eid cs) ≠ [] →
  FuzzyLookupsComplete
    (size (fuzzy_path_to_nodes_map (fuzzy_phase env eid cs)))
    (fuzzy_lookup_errors (fuzzy_phase env eid cs))
    ∈ stdout (phase_4 env eid cs).
Proof.
  intros Hn. unfold phase_4.
  destruct (db_nodes_to_insert (node_mapper eid cs)) eqn:Hm; [done|].
  unfold embed_and_insert.
  destruct (generate_node_embeddings env _ _) as [ns|]; simpl.
  - destruct (nothing_inserted _); simpl.
    + apply list_elem_of_further, list_elem_of_here.
    + do 2 apply list_elem_of_further. apply list_elem_of_here.
  - apply list_elem_of_here.
Qed.

End Batch.

(** C5. In a run, every pending pattern is queried exactly once, wrapped
    in "%" on both sides and with the cap 10: the calls of the run are the
    batch of lookups followed by calls that are not path queries, and the
    batch holds one query per pending pattern and nothing else. The number
    of lookup errors that the run reports is the number of queries that
    raised, and a query that raises does not keep the other patterns from
    being queried. The output map holds, for a pattern whose query returned
    rows, those of the rows whose document id is the run's, and holds no
    entry for a pattern with no such row or whose query raised. *)
Theorem fuzzy_lookup_batch
    {ParsedDoc DocTree : Type} (env : collaborators ParsedDoc DocTree)
    (file_path : string) (document_id : option string)
    (eid : string) (cs : list chunk) (p : string) :
  phases_1_to_3 env file_path document_id = inr cs →
  eid = effective_document_id file_path document_id →
  p ∈ paths_needing_fuzzy_lookup (resolution eid cs) →
  queries ("%" ++ p ++ "%") 10 (calls (process_document env file_path document_id))
  = 1%nat
  ∧ extends (λ e, query_of e = None)
      (fuzzy_calls (fuzzy_phase env eid cs))
      (calls (process_document env file_path document_id))
  ∧ length (fuzzy_calls (fuzzy_phase env eid cs))
    = size (paths_needing_fuzzy_lookup (resolution eid cs))
  ∧ Forall (λ e, ∃ q, q ∈ paths_needing_fuzzy_lookup (resolution eid cs)
                      ∧ ev_call e = FindNodesByPath ("%" ++ q ++ "%") 10)
      (fuzzy_calls (fuzzy_phase env eid cs))
  ∧ FuzzyLookupsComplete
      (size (fuzzy_path_to_nodes_map (fuzzy_phase env eid cs)))
      (fuzzy_lookup_errors (fuzzy_phase env eid cs))
      ∈ stdout (process_document env file_path document_id)
  ∧ fuzzy_lookup_errors (fuzzy_phase env eid cs)
    = length (filter (λ e, ev_ok e = false) (fuzzy_calls (fuzzy_phase env eid cs)))
  ∧ looked_up env eid (fuzzy_phase env eid cs) p
  ∧ ∀ q found,
      fuzzy_path_to_nodes_map (fuzzy_phase env eid cs) !! q = Some found →
      q ∈ paths_needing_fuzzy_lookup (resolution eid cs)
      ∧ found ≠ [] ∧ Forall (same_document eid) found.
Proof.
  intros Hrun -> Hp. unfold process_document. rewrite Hrun.
  set (eid := effective_document_id file_path document_id) in *.
  pose proof (pending_needs_nodes eid cs p Hp) as Hn.
  assert (extends (λ e, query_of e = None)
            (fuzzy_calls (fuzzy_phase env eid cs))
            (calls (phase_4 env eid cs))) as Hext.
  { apply phase_4_extends; [by intros c ok _ Hq _ | done | done]. }
  unfold fuzzy_phase in *.
  set (pending := paths_needing_fuzzy_lookup (resolution eid cs)) in *.
  pose proof (NoDup_elements pending) as Hnd.
  destruct (fuzzy_lookups_map env eid (elements pending) Hnd) as [Hout Hin].
  assert (queries (wildcard p) 10
            (fuzzy_calls (fuzzy_lookups env eid [] (elements pending))) = 1%nat)
    as Hone.
  { rewrite fuzzy_lookups_once by done.
    rewrite decide_True; [done|]. by apply elem_of_elements. }
  split; [|split; [|split; [|split; [|split; [|split; [|split]]]]]].
  - change ("%" ++ p ++ "%") with (wildcard p).
    by rewrite (extends_queries _ _ _ _ Hext).
  - exact Hext.
  - apply fuzzy_lookups_length.
  - eapply Forall_impl; [apply fuzzy_lookups_queries|].
    intros e (q & Hq & Hc). exists q. split; [by apply elem_of_elements|done].
  - by apply (phase_4_lookups_summary env eid cs).
  - apply fuzzy_lookups_errors.
  - apply Hin. by apply elem_of_elements.
  - intros q found Hm.
    destruct (decide (q ∈ elements pending)) as [Hq|Hq];
      [|by rewrite (Hout q Hq) in Hm].
    split; [by apply elem_of_elements|].
    destruct (Hin q Hq) as (e & before & after & _ & _ & Hres).
    destruct (find_nodes_by_path env before (wildcard q) 10) as [raw|];
      [|destruct Hres as [_ Hres]; congruence].
    destruct Hres as [_ Hres]. rewrite Hm in Hres.
    destruct (filter (same_document eid) raw) as [|f fs] eqn:Hf; [done|].
    injection Hres as ->. split; [done|].
    rewrite <- Hf. apply Forall_forall. intros x Hx.
    by apply list_elem_of_filter in Hx as [? _].
Qed.

Lemma fuzzy_lookup_batch_witness :
  queries "%Appendix%" 10 (calls Fixture.with_rows) = 1%nat
  ∧ fuzzy_path_to_nodes_map
      (fuzzy_phase
         (Fixture.world [Fixture.guide; Fixture.step1_twice]
            true true true true true Fixture.rows)
         "A" [Fixture.guide; Fixture.step1_twice])
    !! "Appendix"
    = Some [Fixture.row 7 "A" "Guide > Appendix"; Fixture.row 9 "A" "Appendix"].
Proof.
  assert ("Appendix"
            ∈ paths_needing_fuzzy_lookup
                (resolution "A" [Fixture.guide; Fixture.step1_twice])) as Hp.
  { apply elem_of_elements. vm_compute. apply list_elem_of_here. }
  split.
  - exact (proj1 (fuzzy_lookup_batch
                    (Fixture.world [Fixture.guide; Fixture.step1_twice]
                       true true true true true Fixture.rows)
                    "docs/A.md" None "A" [Fixture.guide; Fixture.step1_twice]
                    "Appendix" eq_refl eq_refl Hp)).
  - vm_compute. reflexivity.
Defined.

(** * Further properties *)

(** ** Insertion-ordered dictionaries *)

Section Dict.

Context {K V : Type} `{EqDecision K}.

Lemma dict_get_set_eq (k : K) (v : V) d : Py.dict_get k (Py.dict_set k v d) = Some v.
Proof.
  induction d as [|[k' v'] d IH]; simpl.
  - by rewrite decide_True.
  - destruct (decide (k = k')) as [->|Hne]; simpl.
    + by rewrite decide_True.
    + by rewrite decide_False.
Qed.

Lemma dict_get_set_ne (k k' : K) (v : V) d :
  k ≠ k' → Py.dict_get k' (Py.dict_set k v d) = Py.dict_get k' d.
Proof.
  intros Hne. induction d as [|[k0 v0] d IH]; simpl.
  - by rewrite decide_False.
  - destruct (decide (k = k0)) as [->|Hk]; simpl.
    + by rewrite !decide_False.
    + destruct (decide (k' = k0)); [done | exact IH].
Qed.

Lemma dict_get_elem (k : K) (v : V) d : Py.dict_get k d = Some v → (k, v) ∈ d.
Proof.
  induction d as [|[k' v'] d IH]; simpl; [done|].
  destruct (decide (k = k')) as [->|Hne].
  - intros [= ->]. apply list_elem_of_here.
  - intros H. apply list_elem_of_further. by apply IH.
Qed.

Lemma dict_get_value (k : K) (v : V) d :
  Py.dict_get k d = Some v → v ∈ Py.dict_values d.
Proof.
  intros H. apply dict_get_elem in H. unfold Py.dict_values.
  apply list_elem_of_fmap. by exists (k, v).
Qed.

Lemma dict_set_elem (k k' : K) (v v' : V) d :
  (k', v') ∈ Py.dict_set k v d → (k', v') = (k, v) ∨ (k', v') ∈ d.
Proof.
  induction d as [|[k0 v0] d IH]; simpl.
  - intros H%list_elem_of_singleton. by left.
  - destruct (decide (k = k0)) as [->|Hne]; intros H%elem_of_cons.
    + destruct H as [H|H]; [by left|]. right. by apply list_elem_of_further.
    + destruct H as [->|H]; [right; apply list_elem_of_here|].
      apply IH in H as [H|H]; [by left|]. right. by apply list_elem_of_further.
Qed.

Lemma dict_set_keys_in (k : K) (v : V) d :
  k ∈ d.*1 → (Py.dict_set k v d).*1 = d.*1.
Proof.
  induction d as [|[k0 v0] d IH]; intros Hin; [by apply elem_of_nil in Hin|].
  cbn [Py.dict_set]. destruct (decide (k = k0)) as [->|Hne]; [done|].
  rewrite !fmap_cons. f_equal. apply IH.
  rewrite fmap_cons in Hin. by apply elem_of_cons in Hin as [?|?].
Qed.

Lemma dict_set_keys_out (k : K) (v : V) d :
  k ∉ d.*1 → (Py.dict_set k v d).*1 = (d.*1 ++ [k])%list.
Proof.
  induction d as [|[k0 v0] d IH]; intros Hout; [done|].
  rewrite fmap_cons in Hout. apply not_elem_of_cons in Hout as [Hne Hout].
  cbn [Py.dict_set]. rewrite decide_False by done.
  rewrite !fmap_cons. simpl. f_equal. by apply IH.
Qed.

Lemma dict_set_NoDup (k : K) (v : V) d :
  NoDup d.*1 → NoDup (Py.dict_set k v d).*1.
Proof.
  intros Hd. destruct (decide (k ∈ d.*1)) as [Hin|Hout].
  - by rewrite dict_set_keys_in.
  - rewrite dict_set_keys_out by done.
    apply NoDup_app. split; [done|]. split; [|apply NoDup_singleton].
    intros x Hx ->%list_elem_of_singleton. done.
Qed.

Lemma dict_set_length (k : K) (v : V) d :
  (length (Py.dict_set k v d) ≤ S (length d))%nat.
Proof.
  induction d as [|[k0 v0] d IH]; simpl; [lia|].
  destruct (decide (k = k0)); simpl; lia.
Qed.

Lemma dict_elem_get (k : K) (v : V) d :
  NoDup d.*1 → (k, v) ∈ d → Py.dict_get k d = Some v.
Proof.
  induction d as [|[k0 v0] d IH]; simpl; intros Hnd Hin;
    [by apply elem_of_nil in Hin|].
  apply NoDup_cons in Hnd as [Hk0 Hnd].
  apply elem_of_cons in Hin as [[= -> ->]|Hin].
  - by rewrite decide_True.
  - rewrite decide_False; [by apply IH|].
    intros ->. apply Hk0. apply list_elem_of_fmap. by exists (k0, v).
Qed.

End Dict.

(** ** The node mapper *)

Lemma node_mapper_records eid cs st :
  db_nodes_to_insert (foldl (map_chunk eid) st cs)
  = (db_nodes_to_insert st ++ omap (record_of eid) cs)%list.
Proof.
  revert st. induction cs as [|c cs IH]; intros st; simpl.
  - by rewrite app_nil_r.
  - rewrite IH. unfold map_chunk, record_of.
    destruct (chunk_id c) as [o|], (chunk_metadata c) as [md|]; simpl; try done.
    by rewrite <- app_assoc.
Qed.

Lemma omap_cons_eq {A B : Type} (f : A → option B) (x : A) (l : list A) :
  omap f (x :: l)
  = match f x with Some y => y :: omap f l | None => omap f l end.
Proof. done. Qed.

(** X1. The node records are those of the kept chunks, one per chunk and in
    the order of the chunks; together with the discarded chunks they
    account for every chunk; and each record carries the document id of the
    run and the identifier of its chunk, and no embedding yet. *)
Theorem node_records_follow_chunks (eid : string) (cs : list chunk) :
  db_nodes_to_insert (node_mapper eid cs) = omap (record_of eid) cs
  ∧ (length (db_nodes_to_insert (node_mapper eid cs))
     + length (filter discarded cs) = length cs)%nat
  ∧ Forall (λ n, document_id n = eid
                 ∧ is_Some (original_id (node_metadata n))
                 ∧ embedding_generated (node_metadata n) = None
                 ∧ embedding n = None)
      (db_nodes_to_insert (node_mapper eid cs)).
Proof.
  assert (db_nodes_to_insert (node_mapper eid cs) = omap (record_of eid) cs)
    as Heq by (unfold node_mapper; by rewrite node_mapper_records).
  rewrite Heq. split; [done|]. split.
  - clear Heq. induction cs as [|c cs IH]; [done|].
    rewrite filter_cons, omap_cons_eq.
    destruct (decide (discarded c)) as [Hd|Hd].
    + assert (record_of eid c = None) as ->.
      { unfold record_of. destruct Hd as [-> | ->]; [done|].
        by destruct (chunk_id c). }
      simpl. lia.
    + assert (∃ n, record_of eid c = Some n) as [n ->].
      { unfold record_of, discarded in *.
        destruct (chunk_id c), (chunk_metadata c); eauto;
          exfalso; apply Hd; auto. }
      simpl. lia.
  - apply Forall_forall. intros n Hn.
    apply list_elem_of_omap in Hn as (c & _ & Hc). unfold record_of in Hc.
    destruct (chunk_id c) as [o|], (chunk_metadata c) as [md|]; try done.
    injection Hc as <-. simpl. eauto.
Qed.

Lemma last_filter_cons {A : Type} (P : A → Prop) `{∀ x, Decision (P x)}
    (x : A) (l : list A) :
  last (filter P (x :: l))
  = match last (filter P l) with
    | Some y => Some y
    | None => if decide (P x) then Some x else None
    end.
Proof.
  rewrite filter_cons. destruct (decide (P x)); [|by destruct (last _)].
  rewrite last_cons. by destruct (last _).
Qed.

Lemma node_mapper_chunk_lookup eid cs st original :
  Py.dict_get original (original_id_to_chunk_map (foldl (map_chunk eid) st cs))
  = match last (filter (has_id original) cs) with
    | Some c => Some c
    | None => Py.dict_get original (original_id_to_chunk_map st)
    end.
Proof.
  revert st. induction cs as [|c cs IH]; intros st; [done|].
  simpl foldl. rewrite IH, last_filter_cons.
  destruct (last (filter (has_id original) cs)); [done|].
  destruct (decide (has_id original c)) as [[Hi Hm]|Hno]; unfold map_chunk.
  - rewrite Hi. destruct (chunk_metadata c); [|done]. simpl.
    by rewrite dict_get_set_eq.
  - destruct (chunk_id c) as [o|] eqn:Hi; [|done].
    destruct (chunk_metadata c) as [md|] eqn:Hm; [|done]. simpl.
    rewrite dict_get_set_ne; [done|].
    intros ->. apply Hno. split; [done|]. by rewrite Hm.
Qed.

Lemma node_mapper_keys eid cs st :
  NoDup (original_id_to_chunk_map st).*1 →
  NoDup (original_id_to_chunk_map (foldl (map_chunk eid) st cs)).*1.
Proof.
  apply (foldl_keeps (λ st, NoDup (original_id_to_chunk_map st).*1)).
  intros a c _ Ha. unfold map_chunk.
  destruct (chunk_id c) as [o|], (chunk_metadata c) as [md|]; try done.
  simpl. by apply dict_set_NoDup.
Qed.

(** X2. The chunk map has one entry per identifier, and the entry of an
    identifier is the last kept chunk of the batch that has it: a later
    chunk with the identifier of an earlier one replaces it. *)
Theorem chunk_map_holds_last_chunk
    (eid : string) (cs : list chunk) (original : string) :
  NoDup (original_id_to_chunk_map (node_mapper eid cs)).*1
  ∧ Py.dict_get original (original_id_to_chunk_map (node_mapper eid cs))
    = last (filter (has_id original) cs).
Proof.
  split.
  - apply node_mapper_keys. constructor.
  - unfold node_mapper. rewrite node_mapper_chunk_lookup.
    by destruct (last _).
Qed.

(** ** Reference resolution, read backwards *)

Lemma resolve_references_sound index chunk_map :
  (∀ source target,
     (source, target)
       ∈ exact_resolved_references (resolve_references index chunk_map) →
     target ≠ source
     ∧ ∃ key, mentions chunk_map source key ∧ index !! key = Some target)
  ∧ (∀ key,
       key ∈ paths_needing_fuzzy_lookup (resolve_references index chunk_map) →
       ∃ source, mentions chunk_map source key
                 ∧ (index !! key = None ∨ index !! key = Some "")).
Proof.
  unfold resolve_references.
  apply (foldl_keeps
    (λ st,
       (∀ source target,
          (source, target) ∈ exact_resolved_references st →
          target ≠ source
          ∧ ∃ key, mentions chunk_map source key ∧ index !! key = Some target)
       ∧ (∀ key,
            key ∈ paths_needing_fuzzy_lookup st →
            ∃ source, mentions chunk_map source key
                      ∧ (index !! key = None ∨ index !! key = Some "")))).
  2:{ split; [intros ?? H; by apply elem_of_nil in H|].
      intros ? H. by apply not_elem_of_empty in H. }
  intros st [s c] Hc Hst. unfold resolve_chunk. simpl.
  revert Hst.
  apply (foldl_keeps
    (λ st,
       (∀ source target,
          (source, target) ∈ exact_resolved_references st →
          target ≠ source
          ∧ ∃ key, mentions chunk_map source key ∧ index !! key = Some target)
       ∧ (∀ key,
            key ∈ paths_needing_fuzzy_lookup st →
            ∃ source, mentions chunk_map source key
                      ∧ (index !! key = None ∨ index !! key = Some "")))).
  intros a item Hi [Hex Hpe]. unfold resolve_mention.
  destruct (path_key_str item) as [key|] eqn:Hk; [|done].
  assert (mentions chunk_map s key) as Hm by (by exists c, item).
  destruct (index !! key) as [target|] eqn:Hl.
  - destruct (Py.truthy_str target) eqn:Ht.
    + destruct (decide (s ≠ target)) as [Hne|]; [|done].
      split; [|exact Hpe]. simpl.
      intros source tgt [H|H%list_elem_of_singleton]%elem_of_app;
        [by apply Hex|].
      injection H as -> ->. split; [done|]. by exists key.
    + split; [exact Hex|]. simpl.
      intros k [H|H%elem_of_singleton]%elem_of_union; [by apply Hpe|].
      subst k. exists s. split; [done|]. right. rewrite Hl. f_equal.
      unfold Py.truthy_str in Ht. apply negb_false_iff in Ht.
      by apply String.eqb_eq in Ht.
  - split; [exact Hex|]. simpl.
    intros k [H|H%elem_of_singleton]%elem_of_union; [by apply Hpe|].
    subst k. exists s. split; [done|]. by left.
Qed.

Lemma node_mapper_index_values eid cs key value :
  path_to_original_id_map (node_mapper eid cs) !! key = Some value → value ≠ "".
Proof.
  intros Hv. unfold node_mapper in Hv.
  apply node_mapper_index in Hv as [Hv|(_ & ? & _)]; [|done].
  simpl in Hv. by rewrite lookup_empty in Hv.
Qed.

(** X3. The exact pairs of a batch are exactly the mentions that hit the
    path index with another chunk: the pair (source, target) is recorded if
    and only if the chunk stored under source mentions a path key that the
    index maps to target, and target is not source. *)
Theorem exact_pairs_are_the_hits
    (eid : string) (cs : list chunk) (source target : string) :
  (source, target) ∈ exact_resolved_references (resolution eid cs)
  ↔ target ≠ source
    ∧ ∃ key,
        mentions (original_id_to_chunk_map (node_mapper eid cs)) source key
        ∧ path_to_original_id_map (node_mapper eid cs) !! key = Some target.
Proof.
  unfold resolution. split.
  - apply resolve_references_sound.
  - intros (Hne & key & (c & item & Hc & Hi & Hk) & Hl).
    apply (resolve_references_hit _ _ source c item key target); try done.
    intros k v. apply node_mapper_index_values.
Qed.

Lemma resolution_pending_sound eid cs key :
  key ∈ paths_needing_fuzzy_lookup (resolution eid cs) →
  path_to_original_id_map (node_mapper eid cs) !! key = None
  ∧ ∃ source,
      mentions (original_id_to_chunk_map (node_mapper eid cs)) source key.
Proof.
  unfold resolution. intros H.
  apply resolve_references_sound in H as (s & Hm & [Hl|Hl]).
  - split; [done|]. by exists s.
  - by apply node_mapper_index_values in Hl.
Qed.

(** X4. The pending patterns of a batch are exactly the mentioned path keys
    that the path index lacks: a key is looked up in the store if and only
    if some chunk of the batch mentions it and no chunk of the batch has
    registered it. *)
Theorem pending_patterns_are_the_misses
    (eid : string) (cs : list chunk) (key : string) :
  key ∈ paths_needing_fuzzy_lookup (resolution eid cs)
  ↔ path_to_original_id_map (node_mapper eid cs) !! key = None
    ∧ ∃ source,
        mentions (original_id_to_chunk_map (node_mapper eid cs)) source key.
Proof.
  split; [apply resolution_pending_sound|]. unfold resolution.
  intros (Hl & s & c & item & Hc & Hi & Hk).
  by apply (resolve_references_miss _ _ s c item key).
Qed.

(** ** The shape of a run *)

Section Shape.

Context {ParsedDoc DocTree : Type} (env : collaborators ParsedDoc DocTree).

Lemma phase_4_outcome eid cs : outcome env eid cs (phase_4 env eid cs).
Proof.
  destruct (db_nodes_to_insert (node_mapper eid cs)) as [|n l] eqn:Hn.
  { unfold phase_4. rewrite Hn. by constructor. }
  assert (db_nodes_to_insert (node_mapper eid cs) ≠ []) as Hne
    by (by rewrite Hn).
  destruct (embedding_phase env eid cs) as [ns|] eqn:He.
  - destruct (nothing_inserted (insertion_phase env eid cs ns)) eqn:Hi.
    + replace (phase_4 env eid cs)
        with (failure (insertion_calls (insertion_phase env eid cs ns))
                (insertion_lines env eid cs ns)); [by constructor|].
      unfold phase_4. rewrite Hn.
      unfold embedding_phase, fuzzy_phase, resolution in He.
      unfold embed_and_insert. rewrite Hn in He |- *. simpl in He. rewrite He.
      unfold insertion_phase, embedding_call, fuzzy_phase, resolution in Hi.
      rewrite Hn in Hi. simpl in Hi. rewrite Hi.
      unfold insertion_lines, lookup_lines, insertion_phase, embedding_call,
        fuzzy_phase, resolution. by rewrite Hn.
    + replace (phase_4 env eid cs)
        with (success eid (reference_calls (reference_phase env eid cs ns))
                (final_lines env eid cs ns)); [by constructor|].
      unfold phase_4. rewrite Hn.
      unfold embedding_phase, fuzzy_phase, resolution in He.
      unfold embed_and_insert. rewrite Hn in He |- *. simpl in He. rewrite He.
      unfold insertion_phase, embedding_call, fuzzy_phase, resolution in Hi.
      rewrite Hn in Hi. simpl in Hi. rewrite Hi.
      unfold materialize, final_lines, insertion_lines, lookup_lines,
        reference_phase, parent_phase, insertion_phase, embedding_call,
        fuzzy_phase, resolution. by rewrite Hn.
  - rewrite (phase_4_embedding_raised env eid cs Hne He).
    replace (stdout (phase_4 env eid cs)) with (lookup_lines env eid cs);
      [by constructor|].
    unfold phase_4. rewrite Hn.
    unfold embedding_phase, fuzzy_phase, resolution in He.
    unfold embed_and_insert. rewrite Hn in He |- *. simpl in He.
    by rewrite He.
Qed.

(** A run ends before phase 4 without a call or a summary line, or is one
    of the four outcomes of phase 4. *)
Lemma process_document_outcome file_path document_id :
  (calls (process_document env file_path document_id) = []
   ∧ stdout (process_document env file_path document_id) = []
   ∧ ∃ early, phases_1_to_3 env file_path document_id = inl early)
  ∨ ∃ cs,
      phases_1_to_3 env file_path document_id = inr cs
      ∧ outcome env (effective_document_id file_path document_id) cs
          (process_document env file_path document_id).
Proof.
  unfold process_document.
  destruct (phases_1_to_3 env file_path document_id) as [early|cs] eqn:Hp.
  - left. apply phases_1_to_3_early in Hp as Hp'.
    destruct Hp' as [-> | ->]; eauto.
  - right. exists cs. split; [done|]. apply phase_4_outcome.
Qed.

End Shape.

(** ** What each phase adds to the history *)

Lemma extends_impl (P Q : event → Prop) history out :
  (∀ e, P e → Q e) → extends P history out → extends Q history out.
Proof.
  intros HPQ (new & -> & Hnew). exists new. split; [done|].
  by eapply Forall_impl.
Qed.

Lemma extends_elem (P : event → Prop) history out e :
  extends P history out → e ∈ out → P e ∨ e ∈ history.
Proof.
  intros (new & -> & Hnew) [Hin|Hin]%elem_of_app; [left|by right].
  rewrite Forall_forall in Hnew. by apply Hnew.
Qed.

Lemma extends_length (P : event → Prop) history out :
  extends P history out → (length history ≤ length out)%nat.
Proof. intros (new & -> & _). rewrite length_app. lia. Qed.

Lemma count_calls_cons kind ok e history :
  count_calls kind ok (e :: history)
  = ((if decide (kind (ev_call e) = true ∧ ev_ok e = ok) then 1 else 0)
     + count_calls kind ok history)%nat.
Proof. unfold count_calls. rewrite filter_cons. by case_decide. Qed.

Lemma count_calls_extends (P : event → Prop) kind ok history out :
  (∀ e, P e → kind (ev_call e) = false) →
  extends P history out →
  count_calls kind ok out = count_calls kind ok history.
Proof.
  intros HP (new & -> & Hnew).
  induction Hnew as [|e new He _ IH]; [done|].
  simpl. rewrite count_calls_cons, IH, decide_False; [done|].
  intros [Hk _]. apply HP in He. congruence.
Qed.

Lemma count_calls_none (P : event → Prop) kind ok history :
  (∀ e, P e → kind (ev_call e) = false) →
  Forall P history → count_calls kind ok history = 0%nat.
Proof.
  intros HP Hh.
  rewrite (count_calls_extends P kind ok [] history HP); [done|].
  exists history. by rewrite app_nil_r.
Qed.

Section Provenance.

Context {ParsedDoc DocTree : Type} (env : collaborators ParsedDoc DocTree).

(** *** The insertion loop *)

(** The records handed to [insert_node] are the insertable ones, each once
    and in the order of the list. *)
Lemma insert_loop_insertions ns st :
  insertions (insertion_calls (foldl (insert_one env) st ns))
  = (rev (filter insertable ns) ++ insertions (insertion_calls st))%list.
Proof.
  revert st. induction ns as [|n ns IH]; intros st; [done|].
  simpl foldl. rewrite IH, filter_cons.
  destruct (decide (insertable n)) as [[[o Ho] He]|Hno].
  - unfold insert_one. rewrite Ho, He. simpl.
    rewrite <- app_assoc. simpl.
    by destruct (insert_node env _ n).
  - assert (insert_one env st n = count_failed st) as ->; [|done].
    unfold insert_one, insertable in *.
    destruct (usable_original_id n) as [o|]; [|done].
    destruct (embedding_ok n); [|done].
    exfalso. apply Hno. eauto.
Qed.

(** The counters of the insertion loop against its calls and its input. *)
Lemma insert_loop_counters ns st :
  (inserted_count (foldl (insert_one env) st ns)
   + count_calls is_insert_node true (insertion_calls st)
   = inserted_count st
     + count_calls is_insert_node true
         (insertion_calls (foldl (insert_one env) st ns)))%nat
  ∧ (failed_count (foldl (insert_one env) st ns)
     + count_calls is_insert_node false (insertion_calls st)
     = failed_count st
       + count_calls is_insert_node false
           (insertion_calls (foldl (insert_one env) st ns))
       + length (filter (λ n, ¬ insertable n) ns))%nat.
Proof.
  revert st. induction ns as [|n ns IH]; intros st; [simpl; lia|].
  simpl foldl. destruct (IH (insert_one env st n)) as [IH1 IH2].
  revert IH1 IH2. generalize (foldl (insert_one env) (insert_one env st n) ns).
  intros st' IH1 IH2. rewrite filter_cons.
  destruct (decide (insertable n)) as [[[o Ho] He]|Hno].
  - rewrite decide_False by (intros H; apply H; split; [eauto | done]).
    revert IH1 IH2. unfold insert_one. rewrite Ho, He. simpl.
    destruct (insert_node env _ n); simpl; rewrite !count_calls_cons; simpl;
      repeat case_decide; try lia;
      match goal with
      | H : ¬ (_ ∧ _) |- _ => exfalso; apply H; done
      | H : _ ∧ _ |- _ => destruct H; done
      end.
  - rewrite decide_True by done.
    assert (insert_one env st n = count_failed st) as Hskip.
    { unfold insert_one, insertable in *.
      destruct (usable_original_id n) as [o|]; [|done].
      destruct (embedding_ok n); [|done].
      exfalso. apply Hno. eauto. }
    rewrite Hskip in IH1, IH2. simpl in *. lia.
Qed.

(** The id map has one entry per identifier, each of them assigned, and no
    more entries than nodes were inserted. *)
Lemma insert_loop_id_map ns st :
  NoDup (original_id_to_db_id_map st).*1 →
  Forall (assigned env ns) (original_id_to_db_id_map st) →
  (length (original_id_to_db_id_map st) ≤ inserted_count st)%nat →
  NoDup (original_id_to_db_id_map (foldl (insert_one env) st ns)).*1
  ∧ Forall (assigned env ns)
      (original_id_to_db_id_map (foldl (insert_one env) st ns))
  ∧ (length (original_id_to_db_id_map (foldl (insert_one env) st ns))
     ≤ inserted_count (foldl (insert_one env) st ns))%nat.
Proof.
  intros H1 H2 H3.
  apply (foldl_keeps
    (λ st, NoDup (original_id_to_db_id_map st).*1
           ∧ Forall (assigned env ns) (original_id_to_db_id_map st)
           ∧ (length (original_id_to_db_id_map st) ≤ inserted_count st)%nat));
    [|done].
  intros a n Hn (Ha1 & Ha2 & Ha3). unfold insert_one.
  destruct (usable_original_id n) as [o|] eqn:Ho; [|done].
  destruct (embedding_ok n) eqn:He; simpl; [|done].
  destruct (insert_node env (insertion_calls a) n) as [db_id|] eqn:Hi;
    simpl; [|done].
  split; [by apply dict_set_NoDup|]. split.
  - apply Forall_forall. intros [o' v'] Hin.
    apply dict_set_elem in Hin as [[= -> ->]|Hin].
    + by exists n, (insertion_calls a).
    + rewrite Forall_forall in Ha2. by apply Ha2.
  - pose proof (dict_set_length o db_id (original_id_to_db_id_map a)). lia.
Qed.

End Provenance.

Section Links.

Context {ParsedDoc DocTree : Type} (env : collaborators ParsedDoc DocTree).

(** *** Parent links *)

Lemma set_parent_links_provenance chunk_map id_map history :
  extends (parent_link chunk_map id_map) history
    (parent_calls (set_parent_links env chunk_map id_map history)).
Proof.
  unfold set_parent_links.
  apply (foldl_keeps
    (λ st, extends (parent_link chunk_map id_map) history (parent_calls st)));
    [|apply extends_refl].
  intros st [o db_id] Hin Hst. unfold set_parent_link. simpl.
  destruct (Py.dict_get o chunk_map) as [c|] eqn:Hc; [|exact Hst].
  destruct (chunk_metadata c) as [md|] eqn:Hm; simpl; [|exact Hst].
  destruct (parent_id md) as [par|] eqn:Hp; [|exact Hst].
  destruct (Py.truthy_str par) eqn:Ht; [|exact Hst].
  destruct (Py.dict_get par id_map) as [pid|] eqn:Hpid; [|exact Hst].
  assert (par ≠ "") as Hpar.
  { intros ->. done. }
  destruct (update_node_parent env _ _ _); simpl; apply extends_cons; auto;
    by exists o, db_id, c, md, par, pid.
Qed.

Lemma parent_loop_counters chunk_map id_map l st :
  (length (parent_calls (foldl (set_parent_link env chunk_map id_map) st l))
   ≤ length (parent_calls st) + length l)%nat
  ∧ (parent_links_set (foldl (set_parent_link env chunk_map id_map) st l)
     + count_calls is_update_parent true (parent_calls st)
     = parent_links_set st
       + count_calls is_update_parent true
           (parent_calls (foldl (set_parent_link env chunk_map id_map) st l)))%nat
  ∧ (parent_link_errors (foldl (set_parent_link env chunk_map id_map) st l)
     + count_calls is_update_parent false (parent_calls st)
     = parent_link_errors st
       + count_calls is_update_parent false
           (parent_calls (foldl (set_parent_link env chunk_map id_map) st l)))%nat.
Proof.
  revert st. induction l as [|[o db_id] l IH]; intros st; [simpl; lia|].
  simpl foldl.
  destruct (IH (set_parent_link env chunk_map id_map st (o, db_id)))
    as (IH1 & IH2 & IH3).
  revert IH1 IH2 IH3.
  generalize (foldl (set_parent_link env chunk_map id_map)
                (set_parent_link env chunk_map id_map st (o, db_id)) l).
  intros st'. unfold set_parent_link. simpl.
  destruct (Py.dict_get o chunk_map) as [c|]; [|lia].
  destruct (chunk_metadata c ≫= parent_id) as [par|]; [|lia].
  destruct (Py.truthy_str par); [|lia].
  destruct (Py.dict_get par id_map) as [pid|]; [|lia].
  destruct (update_node_parent env _ _ _); simpl;
    rewrite !count_calls_cons; simpl;
    repeat case_decide; try lia;
    match goal with
    | H : ¬ (_ ∧ _) |- _ => exfalso; apply H; done
    | H : _ ∧ _ |- _ => destruct H; done
    end.
Qed.

(** At most one parent update per entry of the id map, and the two
    counters are the numbers of updates that returned and that raised. *)
Lemma set_parent_links_counters chunk_map id_map history :
  (length (parent_calls (set_parent_links env chunk_map id_map history))
   ≤ length history + length id_map)%nat
  ∧ (parent_links_set (set_parent_links env chunk_map id_map history)
     + count_calls is_update_parent true history
     = count_calls is_update_parent true
         (parent_calls (set_parent_links env chunk_map id_map history)))%nat
  ∧ (parent_link_errors (set_parent_links env chunk_map id_map history)
     + count_calls is_update_parent false history
     = count_calls is_update_parent false
         (parent_calls (set_parent_links env chunk_map id_map history)))%nat.
Proof.
  unfold set_parent_links.
  destruct (parent_loop_counters chunk_map id_map id_map
              {| parent_links_set := 0; parent_link_errors := 0;
                 parent_calls := history |}) as (H1 & H2 & H3).
  simpl in *. lia.
Qed.

(** *** The reference passes *)

Lemma insert_pair_extends (P : event → Prop) history kind weight st s t :
  (∀ ok, P {| ev_call := InsertReference
                {| source_node_id := s; target_node_id := t;
                   reference_type := kind; strength := weight |};
              ev_ok := ok |}) →
  extends P history (reference_calls st) →
  extends P history (reference_calls (insert_pair env kind weight st s t)).
Proof.
  intros HP Hst. unfold insert_pair.
  destruct (decide ((s, t) ∈ inserted_reference_pairs st)); [exact Hst|].
  destruct (insert_reference env _ _); simpl;
    (apply extends_cons; [apply HP | exact Hst]).
Qed.

Lemma exact_pass_provenance id_map exact st :
  extends (exact_edge id_map exact) (reference_calls st)
    (reference_calls (exact_pass env id_map exact st)).
Proof.
  unfold exact_pass.
  apply (foldl_keeps
    (λ st', extends (exact_edge id_map exact) (reference_calls st)
              (reference_calls st'))); [|apply extends_refl].
  intros a [s t] Hin Ha. unfold exact_reference. simpl.
  destruct (Py.dict_get s id_map) as [sd|] eqn:Hs; [|exact Ha].
  destruct (Py.dict_get t id_map) as [td|] eqn:Ht; [|exact Ha].
  destruct (Py.truthy_int sd && Py.truthy_int td
            && bool_decide (sd ≠ td)); [|exact Ha].
  apply insert_pair_extends; [|exact Ha].
  intros ok. by eexists s, t, _.
Qed.

Lemma fuzzy_pass_provenance fuzzy_map id_map chunk_map st :
  extends (fuzzy_edge fuzzy_map id_map chunk_map) (reference_calls st)
    (reference_calls (fuzzy_pass env fuzzy_map id_map chunk_map st)).
Proof.
  unfold fuzzy_pass.
  apply (foldl_keeps
    (λ st', extends (fuzzy_edge fuzzy_map id_map chunk_map) (reference_calls st)
              (reference_calls st'))); [|apply extends_refl].
  intros a [o c] Hc Ha. unfold fuzzy_chunk. simpl.
  destruct (Py.dict_get o id_map) as [sd|] eqn:Hs; [|exact Ha].
  destruct (Py.truthy_int sd); [|exact Ha].
  revert a Ha.
  apply (foldl_keeps
    (λ st', extends (fuzzy_edge fuzzy_map id_map chunk_map) (reference_calls st)
              (reference_calls st'))).
  intros a item Hi Ha. unfold fuzzy_mention.
  destruct (path_key_str item) as [key|] eqn:Hk; [|exact Ha].
  destruct (fuzzy_map !! key) as [rows|] eqn:Hr; [|exact Ha].
  revert a Ha.
  apply (foldl_keeps
    (λ st', extends (fuzzy_edge fuzzy_map id_map chunk_map) (reference_calls st)
              (reference_calls st'))).
  intros a row Hrow Ha. unfold fuzzy_target.
  destruct (sn_id row) as [td|] eqn:Hid; [|exact Ha].
  destruct (Py.truthy_int td && bool_decide (td ∈ Py.dict_values id_map)
            && bool_decide (td ≠ sd)) eqn:Hg; [|exact Ha].
  apply insert_pair_extends; [|exact Ha].
  apply andb_true_iff in Hg as [Hg _]. apply andb_true_iff in Hg as [_ Hv].
  apply bool_decide_eq_true in Hv.
  intros ok. by eexists o, c, item, key, rows, row, _.
Qed.

Lemma create_references_provenance m r fz id_map history :
  extends (λ e, exact_edge id_map (exact_resolved_references r) e
                ∨ fuzzy_edge (fuzzy_path_to_nodes_map fz) id_map
                    (original_id_to_chunk_map m) e)
    history (reference_calls (create_references env m r fz id_map history)).
Proof.
  unfold create_references.
  apply (extends_trans _ history
           (reference_calls
              (exact_pass env id_map (exact_resolved_references r)
                 (reference_init history)))).
  - apply (extends_impl (exact_edge id_map (exact_resolved_references r)));
      [intros e He; by left|].
    apply (exact_pass_provenance id_map (exact_resolved_references r)
             (reference_init history)).
  - apply (extends_impl
             (fuzzy_edge (fuzzy_path_to_nodes_map fz) id_map
                (original_id_to_chunk_map m)));
      [intros e He; by right|].
    apply fuzzy_pass_provenance.
Qed.

(** The two counters of the reference passes are the numbers of
    [insert_reference] calls that returned and that raised. *)
Lemma create_references_counters m r fz id_map history :
  (references_created (create_references env m r fz id_map history)
   + count_calls is_insert_reference true history
   = count_calls is_insert_reference true
       (reference_calls (create_references env m r fz id_map history)))%nat
  ∧ (reference_errors (create_references env m r fz id_map history)
     + count_calls is_insert_reference false history
     = count_calls is_insert_reference false
         (reference_calls (create_references env m r fz id_map history)))%nat.
Proof.
  apply (create_references_keeps env
    (λ st,
       (references_created st + count_calls is_insert_reference true history
        = count_calls is_insert_reference true (reference_calls st))%nat
       ∧ (reference_errors st + count_calls is_insert_reference false history
          = count_calls is_insert_reference false (reference_calls st))%nat));
    [|simpl; lia].
  intros kind weight st s t _ [H1 H2]. unfold insert_pair.
  destruct (decide ((s, t) ∈ inserted_reference_pairs st)); [done|].
  destruct (insert_reference env _ _); simpl;
    rewrite !count_calls_cons; simpl;
    repeat case_decide; try lia;
    match goal with
    | H : ¬ (_ ∧ _) |- _ => exfalso; apply H; done
    | H : _ ∧ _ |- _ => destruct H; done
    end.
Qed.

End Links.

(** ** The calls of a run, phase by phase *)

Lemma sorted_step (k : nat) history out :
  StronglySorted not_after history →
  Forall (λ e, (phase_of (ev_call e) ≤ k)%nat) history →
  extends (λ e, phase_of (ev_call e) = k) history out →
  StronglySorted not_after out
  ∧ Forall (λ e, (phase_of (ev_call e) ≤ k)%nat) out.
Proof.
  intros Hs Hh (new & -> & Hnew).
  induction Hnew as [|e new He _ [IH1 IH2]]; [done|].
  simpl. split.
  - constructor; [exact IH1|].
    eapply Forall_impl; [exact IH2|]. intros e' He'.
    unfold not_after. simpl in *. lia.
  - constructor; [simpl in *; lia | exact IH2].
Qed.

Lemma phases_below (k k' : nat) history :
  (k ≤ k')%nat →
  Forall (λ e, (phase_of (ev_call e) ≤ k)%nat) history →
  Forall (λ e, (phase_of (ev_call e) ≤ k')%nat) history.
Proof.
  intros Hk H. eapply Forall_impl; [exact H|].
  intros e He. simpl in *. lia.
Qed.

Lemma phase_not_cleared e :
  phase_of (ev_call e) ≠ 2%nat → cleared e = None.
Proof. unfold cleared. by destruct (ev_call e). Qed.

Lemma phase_not_inserted e :
  phase_of (ev_call e) ≠ 3%nat → inserted_record e = None.
Proof. unfold inserted_record. by destruct (ev_call e). Qed.

Lemma clears_extends (P : event → Prop) history out :
  (∀ e, P e → cleared e = None) →
  extends P history out → clears out = clears history.
Proof.
  intros HP (new & -> & Hnew).
  induction Hnew as [|e new He _ IH]; [done|].
  change ((e :: new) ++ history)%list with (e :: (new ++ history))%list.
  unfold clears in *. rewrite omap_cons_eq, (HP e He). exact IH.
Qed.

Lemma insertions_extends (P : event → Prop) history out :
  (∀ e, P e → inserted_record e = None) →
  extends P history out → insertions out = insertions history.
Proof.
  intros HP (new & -> & Hnew).
  induction Hnew as [|e new He _ IH]; [done|].
  change ((e :: new) ++ history)%list with (e :: (new ++ history))%list.
  unfold insertions in *. rewrite omap_cons_eq, (HP e He). exact IH.
Qed.

Lemma clears_phase (k : nat) history out :
  k ≠ 2%nat →
  extends (λ e, phase_of (ev_call e) = k) history out →
  clears out = clears history.
Proof.
  intros Hk. apply clears_extends. intros e He.
  apply phase_not_cleared. by rewrite He.
Qed.

Lemma insertions_phase (k : nat) history out :
  k ≠ 3%nat →
  extends (λ e, phase_of (ev_call e) = k) history out →
  insertions out = insertions history.
Proof.
  intros Hk. apply insertions_extends. intros e He.
  apply phase_not_inserted. by rewrite He.
Qed.

Section ByPhase.

Context {ParsedDoc DocTree : Type} (env : collaborators ParsedDoc DocTree).
Variables (eid : string) (cs : list chunk).

Lemma fuzzy_phase_phase :
  extends (λ e, phase_of (ev_call e) = 0%nat) []
    (fuzzy_calls (fuzzy_phase env eid cs)).
Proof. unfold fuzzy_phase. by apply fuzzy_lookups_calls. Qed.

(** Clearing adds one call, for the document of the run. *)
Lemma clear_existing_event history :
  ∃ ok, clear_existing env eid history
        = {| ev_call := DeleteNodesByDocumentId eid; ev_ok := ok |} :: history.
Proof.
  unfold clear_existing.
  destruct (delete_nodes_by_document_id env history eid);
    [by exists true | by exists false].
Qed.

(** The history the insertion loop starts from. *)
Lemma insertion_phase_start ns :
  ∃ ok,
    extends (λ e, phase_of (ev_call e) = 3%nat)
        ({| ev_call := DeleteNodesByDocumentId eid; ev_ok := ok |}
         :: returned (embedding_call eid cs)
         :: fuzzy_calls (fuzzy_phase env eid cs))
        (insertion_calls (insertion_phase env eid cs ns)).
Proof.
  unfold insertion_phase.
  destruct (clear_existing_event
              (returned (embedding_call eid cs)
               :: fuzzy_calls (fuzzy_phase env eid cs))) as [ok ->].
  exists ok. by apply insert_nodes_calls.
Qed.

End ByPhase.

Section Anatomy.

Context {ParsedDoc DocTree : Type} (env : collaborators ParsedDoc DocTree).
Variables (eid : string) (cs : list chunk).

Lemma parent_phase_phase ns :
  extends (λ e, phase_of (ev_call e) = 4%nat)
    (insertion_calls (insertion_phase env eid cs ns))
    (parent_calls (parent_phase env eid cs ns)).
Proof. unfold parent_phase. by apply set_parent_links_calls. Qed.

Lemma reference_phase_phase ns :
  extends (λ e, phase_of (ev_call e) = 5%nat)
    (parent_calls (parent_phase env eid cs ns))
    (reference_calls (reference_phase env eid cs ns)).
Proof. unfold reference_phase. by apply create_references_calls. Qed.

Lemma fuzzy_phase_sorted :
  StronglySorted not_after (fuzzy_calls (fuzzy_phase env eid cs))
  ∧ Forall (λ e, (phase_of (ev_call e) ≤ 0)%nat)
      (fuzzy_calls (fuzzy_phase env eid cs)).
Proof.
  apply (sorted_step 0 []); [constructor | constructor|].
  apply fuzzy_phase_phase.
Qed.

Lemma embedding_sorted ok :
  StronglySorted not_after
    ({| ev_call := embedding_call eid cs; ev_ok := ok |}
     :: fuzzy_calls (fuzzy_phase env eid cs))
  ∧ Forall (λ e, (phase_of (ev_call e) ≤ 1)%nat)
      ({| ev_call := embedding_call eid cs; ev_ok := ok |}
       :: fuzzy_calls (fuzzy_phase env eid cs)).
Proof.
  destruct fuzzy_phase_sorted as [Hs Hf].
  apply (sorted_step 1 (fuzzy_calls (fuzzy_phase env eid cs)));
    [done | apply (phases_below 0); [lia | done]|].
  apply extends_cons; [done | apply extends_refl].
Qed.

Lemma insertion_phase_sorted ns :
  StronglySorted not_after (insertion_calls (insertion_phase env eid cs ns))
  ∧ Forall (λ e, (phase_of (ev_call e) ≤ 3)%nat)
      (insertion_calls (insertion_phase env eid cs ns)).
Proof.
  destruct (insertion_phase_start env eid cs ns) as [ok Hext].
  destruct (embedding_sorted true) as [Hs Hf].
  eapply (sorted_step 3); [| |exact Hext].
  - apply StronglySorted_cons. split; [|exact Hs].
    eapply Forall_impl; [exact Hf|]. intros e He.
    unfold not_after. simpl in *. lia.
  - constructor; [simpl; lia|]. apply (phases_below 1); [lia | done].
Qed.

Lemma parent_phase_sorted ns :
  StronglySorted not_after (parent_calls (parent_phase env eid cs ns))
  ∧ Forall (λ e, (phase_of (ev_call e) ≤ 4)%nat)
      (parent_calls (parent_phase env eid cs ns)).
Proof.
  destruct (insertion_phase_sorted ns) as [Hs Hf].
  eapply (sorted_step 4); [exact Hs| |apply parent_phase_phase].
  apply (phases_below 3); [lia | done].
Qed.

Lemma reference_phase_sorted ns :
  StronglySorted not_after (reference_calls (reference_phase env eid cs ns))
  ∧ Forall (λ e, (phase_of (ev_call e) ≤ 5)%nat)
      (reference_calls (reference_phase env eid cs ns)).
Proof.
  destruct (parent_phase_sorted ns) as [Hs Hf].
  eapply (sorted_step 5); [exact Hs| |apply reference_phase_phase].
  apply (phases_below 4); [lia | done].
Qed.

Lemma outcome_sorted r :
  outcome env eid cs r → StronglySorted not_after (calls r).
Proof.
  intros [Hn | Hn He | ns Hn He Hi | ns Hn He Hi]; simpl.
  - constructor.
  - apply (embedding_sorted false).
  - apply insertion_phase_sorted.
  - apply reference_phase_sorted.
Qed.

(** The documents cleared in each outcome. *)
Lemma fuzzy_phase_clears : clears (fuzzy_calls (fuzzy_phase env eid cs)) = [].
Proof. by rewrite (clears_phase 0 [] _ ltac:(lia) (fuzzy_phase_phase env eid cs)). Qed.

Lemma insertion_phase_clears ns :
  clears (insertion_calls (insertion_phase env eid cs ns)) = [eid].
Proof.
  destruct (insertion_phase_start env eid cs ns) as [ok Hext].
  rewrite (clears_phase 3 _ _ ltac:(lia) Hext).
  unfold clears. rewrite !omap_cons_eq. simpl.
  f_equal. apply fuzzy_phase_clears.
Qed.

End Anatomy.

(** ** Properties of the whole run *)

Lemma count_calls_phase (k j : nat) kind ok history out :
  (∀ c, kind c = true → phase_of c = j) →
  k ≠ j →
  extends (λ e, phase_of (ev_call e) = k) history out →
  count_calls kind ok out = count_calls kind ok history.
Proof.
  intros Hkind Hk. apply count_calls_extends. intros e He.
  destruct (kind (ev_call e)) eqn:Hc; [|done].
  apply Hkind in Hc. congruence.
Qed.

Lemma count_calls_below (k j : nat) kind ok history :
  (∀ c, kind c = true → phase_of c = j) →
  (k < j)%nat →
  Forall (λ e, (phase_of (ev_call e) ≤ k)%nat) history →
  count_calls kind ok history = 0%nat.
Proof.
  intros Hkind Hk. apply count_calls_none. intros e He.
  destruct (kind (ev_call e)) eqn:Hc; [|done].
  apply Hkind in Hc. simpl in *. lia.
Qed.

Lemma insert_node_phase c : is_insert_node c = true → phase_of c = 3%nat.
Proof. by destruct c. Qed.

Lemma update_parent_phase c : is_update_parent c = true → phase_of c = 4%nat.
Proof. by destruct c. Qed.

Lemma insert_reference_phase c :
  is_insert_reference c = true → phase_of c = 5%nat.
Proof. by destruct c. Qed.

Lemma extends_keeps (P : event → Prop) history out e :
  extends P history out → e ∈ history → e ∈ out.
Proof. intros (new & -> & _) He. apply elem_of_app. by right. Qed.

Section Whole.

Context {ParsedDoc DocTree : Type} (env : collaborators ParsedDoc DocTree).

Lemma process_document_phase_4 file_path document_id cs :
  phases_1_to_3 env file_path document_id = inr cs →
  outcome env (effective_document_id file_path document_id) cs
    (process_document env file_path document_id).
Proof.
  intros Hp. unfold process_document. rewrite Hp. apply phase_4_outcome.
Qed.

(** Of the four outcomes, the two in which the embedder returned [ns]. *)
Lemma outcome_embedded eid cs ns r :
  outcome env eid cs r →
  embedding_phase env eid cs = Some ns →
  db_nodes_to_insert (node_mapper eid cs) ≠ [] →
  r = failure (insertion_calls (insertion_phase env eid cs ns))
        (insertion_lines env eid cs ns)
  ∨ (nothing_inserted (insertion_phase env eid cs ns) = false
     ∧ r = success eid (reference_calls (reference_phase env eid cs ns))
             (final_lines env eid cs ns)).
Proof.
  intros [Hn | Hn He | ns' Hn He Hi | ns' Hn He Hi] He' Hn'; try congruence.
  - left. congruence.
  - right. assert (ns' = ns) as -> by congruence. done.
Qed.

Lemma insertion_phase_insertions eid cs ns :
  insertions (insertion_calls (insertion_phase env eid cs ns))
  = rev (filter insertable ns).
Proof.
  unfold insertion_phase, insert_nodes. rewrite insert_loop_insertions. simpl.
  destruct (clear_existing_event env eid
              (returned (embedding_call eid cs)
               :: fuzzy_calls (fuzzy_phase env eid cs))) as [ok ->].
  unfold insertions. rewrite !omap_cons_eq. simpl.
  fold (insertions (fuzzy_calls (fuzzy_phase env eid cs))).
  rewrite (insertions_phase 0 [] _ ltac:(lia) (fuzzy_phase_phase env eid cs)).
  by rewrite app_nil_r.
Qed.

Lemma reference_phase_insertions eid cs ns :
  insertions (reference_calls (reference_phase env eid cs ns))
  = rev (filter insertable ns).
Proof.
  rewrite (insertions_phase 5 _ _ ltac:(lia) (reference_phase_phase env eid cs ns)).
  rewrite (insertions_phase 4 _ _ ltac:(lia) (parent_phase_phase env eid cs ns)).
  apply insertion_phase_insertions.
Qed.

Lemma insertion_phase_counters eid cs ns :
  inserted_count (insertion_phase env eid cs ns)
  = count_calls is_insert_node true
      (insertion_calls (insertion_phase env eid cs ns))
  ∧ (failed_count (insertion_phase env eid cs ns)
     = count_calls is_insert_node false
         (insertion_calls (insertion_phase env eid cs ns))
       + length (filter (λ n, ¬ insertable n) ns))%nat.
Proof.
  unfold insertion_phase, insert_nodes.
  destruct (clear_existing_event env eid
              (returned (embedding_call eid cs)
               :: fuzzy_calls (fuzzy_phase env eid cs))) as [ok Hc].
  rewrite Hc.
  set (h := {| ev_call := DeleteNodesByDocumentId eid; ev_ok := ok |}
            :: returned (embedding_call eid cs)
            :: fuzzy_calls (fuzzy_phase env eid cs)).
  destruct (insert_loop_counters env ns (insertion_init h)) as [H1 H2].
  assert (Forall (λ e, (phase_of (ev_call e) ≤ 2)%nat) h) as Hh.
  { constructor; [simpl; lia|].
    destruct (embedding_sorted env eid cs true) as [_ Hf].
    apply (phases_below 1); [lia | done]. }
  assert (∀ ok', count_calls is_insert_node ok' h = 0%nat) as Hz.
  { intros ok'. apply (count_calls_below 2 3); [apply insert_node_phase|lia|done]. }
  simpl in H1, H2. rewrite !Hz in H1, H2. lia.
Qed.

End Whole.

(** X5. The calls of a run are made phase by phase: in its history every
    call belongs to the phase of the calls made before it or to a later
    one, in the order path queries, embedding call, clearing of the
    document, node insertions, parent updates, references. *)
Theorem calls_follow_the_phases
    {ParsedDoc DocTree : Type} (env : collaborators ParsedDoc DocTree)
    (file_path : string) (document_id : option string) :
  StronglySorted not_after (calls (process_document env file_path document_id)).
Proof.
  destruct (process_document_outcome env file_path document_id)
    as [(-> & _)|(cs & _ & Hout)]; [constructor|].
  by apply outcome_sorted in Hout.
Qed.


(** X7. The counters a run reports are the counts of its calls: the
    inserted count is the number of [insert_node] calls that returned and
    the failed count is at least the number that raised; the parent links
    set and the parent link errors are the numbers of [update_node_parent]
    calls that returned and that raised; the references created and the
    reference errors are the numbers of [insert_reference] calls that
    returned and that raised. *)
Theorem reported_counts_are_call_counts
    {ParsedDoc DocTree : Type} (env : collaborators ParsedDoc DocTree)
    (file_path : string) (document_id : option string) :
  (∀ inserted failed,
     NodeInsertionComplete inserted failed
       ∈ stdout (process_document env file_path document_id) →
     inserted
     = count_calls is_insert_node true
         (calls (process_document env file_path document_id))
     ∧ (count_calls is_insert_node false
          (calls (process_document env file_path document_id))
        ≤ failed)%nat)
  ∧ (∀ links link_errors created errors,
       RelationshipsComplete links link_errors created errors
         ∈ stdout (process_document env file_path document_id) →
       links
       = count_calls is_update_parent true
           (calls (process_document env file_path document_id))
       ∧ link_errors
         = count_calls is_update_parent false
             (calls (process_document env file_path document_id))
       ∧ created
         = count_calls is_insert_reference true
             (calls (process_document env file_path document_id))
       ∧ errors
         = count_calls is_insert_reference false
             (calls (process_document env file_path document_id))).
Proof.
  set (eid := effective_document_id file_path document_id).
  destruct (process_document_outcome env file_path document_id)
    as [(_ & -> & _)|(cs & _ & Hout)].
  { split; intros; by match goal with H : _ ∈ [] |- _ => apply elem_of_nil in H end. }
  fold eid in Hout.
  destruct Hout as [Hn | Hn He | ns Hn He Hi | ns Hn He Hi];
    unfold failure, success; cbn [calls stdout result].
  - split; intros *; rewrite list_elem_of_singleton; done.
  - unfold lookup_lines. split; intros *; rewrite !elem_of_cons, elem_of_nil;
      intros [?|[?|[?|[]]]]; done.
  - unfold insertion_lines, lookup_lines.
    split; intros *; rewrite !elem_of_cons, elem_of_nil;
      intros [H|[?|[?|[?|[]]]]]; try done.
    injection H as -> ->.
    destruct (insertion_phase_counters env eid cs ns) as [H1 H2].
    split; [done | lia].
  - pose proof (reference_phase_phase env eid cs ns) as E5.
    pose proof (parent_phase_phase env eid cs ns) as E4.
    destruct (insertion_phase_sorted env eid cs ns) as [_ F3].
    destruct (parent_phase_sorted env eid cs ns) as [_ F4].
    unfold final_lines, insertion_lines, lookup_lines.
    split; intros *; rewrite !elem_of_cons, elem_of_nil;
      intros [H|[H|[?|[?|[?|[]]]]]]; try done.
    + injection H as -> ->.
      destruct (insertion_phase_counters env eid cs ns) as [H1 H2].
      rewrite !(count_calls_phase 5 3 _ _ _ _ insert_node_phase ltac:(lia) E5).
      rewrite !(count_calls_phase 4 3 _ _ _ _ insert_node_phase ltac:(lia) E4).
      split; [done | lia].
    + injection H as -> -> -> ->.
      rewrite !(count_calls_phase 5 4 _ _ _ _ update_parent_phase ltac:(lia) E5).
      destruct (set_parent_links_counters env
                  (original_id_to_chunk_map (node_mapper eid cs))
                  (original_id_to_db_id_map (insertion_phase env eid cs ns))
                  (insertion_calls (insertion_phase env eid cs ns)))
        as (_ & P1 & P2).
      fold (parent_phase env eid cs ns) in P1, P2.
      assert (∀ ok, count_calls is_update_parent ok
                      (insertion_calls (insertion_phase env eid cs ns)) = 0%nat)
        as Z4.
      { intros ok.
        apply (count_calls_below 3 4); [apply update_parent_phase|lia|done]. }
      rewrite !Z4 in P1, P2.
      destruct (create_references_counters env (node_mapper eid cs)
                  (resolution eid cs) (fuzzy_phase env eid cs)
                  (original_id_to_db_id_map (insertion_phase env eid cs ns))
                  (parent_calls (parent_phase env eid cs ns))) as (R1 & R2).
      fold (reference_phase env eid cs ns) in R1, R2.
      assert (∀ ok, count_calls is_insert_reference ok
                      (parent_calls (parent_phase env eid cs ns)) = 0%nat)
        as Z5.
      { intros ok.
        apply (count_calls_below 4 5); [apply insert_reference_phase|lia|done]. }
      rewrite !Z5 in R1, R2.
      repeat split; lia.
Qed.

Lemma reported_counts_are_call_counts_witness :
  NodeInsertionComplete 2 0 ∈ stdout Fixture.scenario
  ∧ 2%nat = count_calls is_insert_node true (calls Fixture.scenario).
Proof.
  assert (NodeInsertionComplete 2 0 ∈ stdout Fixture.scenario) as Hin.
  { vm_compute. apply list_elem_of_further, list_elem_of_here. }
  split; [exact Hin|].
  exact (proj1 (proj1 (reported_counts_are_call_counts
                         (Fixture.healthy [Fixture.guide; Fixture.step1])
                         "docs/A.md" None) 2%nat 0%nat Hin)).
Defined.

(** X8. When the embedder has returned its records, the run hands to
    [insert_node] exactly the records that carry a non-empty [original_id]
    and a true [embedding_generated], each of them once and in the order
    in which the embedder returned them, whatever the store answers. *)
Theorem every_gated_record_is_attempted_once
    {ParsedDoc DocTree : Type} (env : collaborators ParsedDoc DocTree)
    (file_path : string) (document_id : option string)
    (eid : string) (cs : list chunk) (ns : list node) :
  phases_1_to_3 env file_path document_id = inr cs →
  eid = effective_document_id file_path document_id →
  db_nodes_to_insert (node_mapper eid cs) ≠ [] →
  embedding_phase env eid cs = Some ns →
  rev (insertions (calls (process_document env file_path document_id)))
  = filter insertable ns.
Proof.
  intros Hp -> Hn He.
  apply process_document_phase_4 in Hp.
  destruct (outcome_embedded env _ cs ns _ Hp He Hn) as [-> | [_ ->]];
    unfold failure, success; cbn [calls stdout result].
  - by rewrite insertion_phase_insertions, rev_involutive.
  - by rewrite reference_phase_insertions, rev_involutive.
Qed.

Lemma every_gated_record_is_attempted_once_witness :
  rev (insertions (calls Fixture.scenario))
  = filter insertable
      (map (Fixture.embed true)
         (db_nodes_to_insert (node_mapper "A" [Fixture.guide; Fixture.step1]))).
Proof.
  apply (every_gated_record_is_attempted_once
           (Fixture.healthy [Fixture.guide; Fixture.step1])
           "docs/A.md" None "A" [Fixture.guide; Fixture.step1]);
    [reflexivity | reflexivity | discriminate | reflexivity].
Defined.

(** ** C1: the set of inserted pairs *)

Lemma successes_elem (p : Z * Z) (e : event) (history : list event) :
  e ∈ history → reference_pair e = Some p → ev_ok e = true →
  (0 < successes p history)%nat.
Proof.
  intros Hin Hp Hok. unfold successes.
  assert (e ∈ filter (λ e, reference_pair e = Some p ∧ ev_ok e = true) history)
    as Hf by (by apply list_elem_of_filter).
  destruct (filter _ history); [by apply elem_of_nil in Hf | simpl; lia].
Qed.

Lemma no_references_no_retry (history : list event) :
  Forall (λ e, reference_pair e = None) history →
  StronglySorted no_retry history.
Proof.
  induction 1 as [|e h He Hh IH]; constructor; [exact IH|].
  eapply Forall_impl; [exact Hh|].
  intros e' He' p Hp. congruence.
Qed.

Lemma below_references (history : list event) :
  Forall (λ e, (phase_of (ev_call e) ≤ 4)%nat) history →
  Forall (λ e, reference_pair e = None) history.
Proof.
  intros H. eapply Forall_impl; [exact H|].
  intros [c ok]. unfold reference_pair. simpl. destruct c; simpl; [done..|lia].
Qed.

Section Pairs.

Context {ParsedDoc DocTree : Type} (env : collaborators ParsedDoc DocTree).

(** What the guarded write does to the history and to the set. *)
Lemma insert_pair_step kind weight st s t :
  if decide ((s, t) ∈ inserted_reference_pairs st)
  then insert_pair env kind weight st s t = st
  else ∃ e,
    reference_calls (insert_pair env kind weight st s t)
    = e :: reference_calls st
    ∧ reference_pair e = Some (s, t)
    ∧ inserted_reference_pairs (insert_pair env kind weight st s t)
      = if ev_ok e
        then inserted_reference_pairs st ∪ {[(s, t)]}
        else inserted_reference_pairs st.
Proof.
  unfold insert_pair.
  destruct (decide ((s, t) ∈ inserted_reference_pairs st)); [done|].
  destruct (insert_reference env _ _); eexists; simpl; done.
Qed.

Lemma insert_pair_no_retry kind weight st s t :
  pairs_invariant st ∧ StronglySorted no_retry (reference_calls st) →
  pairs_invariant (insert_pair env kind weight st s t)
  ∧ StronglySorted no_retry
      (reference_calls (insert_pair env kind weight st s t)).
Proof.
  intros [Hinv Hs]. split; [by apply insert_pair_invariant|].
  pose proof (insert_pair_step kind weight st s t) as Hstep.
  destruct (decide ((s, t) ∈ inserted_reference_pairs st)) as [Hin|Hout];
    [by rewrite Hstep|].
  destruct Hstep as (e & -> & He & _).
  constructor; [exact Hs|].
  apply Forall_forall. intros e' He' p Hp Hok Heq.
  assert (p = (s, t)) as -> by congruence.
  pose proof (successes_elem _ _ _ He' Hp Hok) as Hpos.
  rewrite Hinv, decide_False in Hpos by done. lia.
Qed.

Lemma create_references_pairs m r fz id_map history :
  Forall (λ e, reference_pair e = None) history →
  pairs_invariant (create_references env m r fz id_map history)
  ∧ StronglySorted no_retry
      (reference_calls (create_references env m r fz id_map history)).
Proof.
  intros Hh.
  apply (create_references_keeps env
           (λ st, pairs_invariant st
                  ∧ StronglySorted no_retry (reference_calls st))).
  - intros kind weight st s t _. apply insert_pair_no_retry.
  - split; [|by apply no_references_no_retry].
    intros q. simpl. rewrite successes_none by done.
    rewrite decide_False; [done|]. apply not_elem_of_empty.
Qed.

(** The set after the two passes holds the pairs whose write has returned
    and no other. *)
Lemma create_references_set m r fz id_map history p :
  Forall (λ e, reference_pair e = None) history →
  (p ∈ inserted_reference_pairs (create_references env m r fz id_map history)
   ↔ successes p
       (reference_calls (create_references env m r fz id_map history)) = 1%nat)
  ∧ (p ∉ inserted_reference_pairs (create_references env m r fz id_map history)
     ↔ successes p
         (reference_calls (create_references env m r fz id_map history))
       = 0%nat).
Proof.
  intros Hh. destruct (create_references_pairs m r fz id_map history Hh)
    as [Hinv _].
  rewrite (Hinv p).
  destruct (decide (p ∈ inserted_reference_pairs
                          (create_references env m r fz id_map history)));
    split; split; done.
Qed.

(** In a run no pair is written again once its write has returned, and no
    pair's write returns twice. *)
Lemma process_document_no_retry file_path document_id :
  StronglySorted no_retry (calls (process_document env file_path document_id))
  ∧ ∀ p, (successes p (calls (process_document env file_path document_id))
          ≤ 1)%nat.
Proof.
  assert (∀ h, Forall (λ e, (phase_of (ev_call e) ≤ 4)%nat) h →
               StronglySorted no_retry h ∧ ∀ p, (successes p h ≤ 1)%nat)
    as Hlow.
  { intros h Hh%below_references. split; [by apply no_references_no_retry|].
    intros p. rewrite successes_none by done. lia. }
  destruct (process_document_outcome env file_path document_id)
    as [(-> & _)|(cs & _ & Hout)]; [apply Hlow; constructor|].
  set (eid := effective_document_id file_path document_id) in *.
  destruct Hout as [Hn | Hn He | ns Hn He Hi | ns Hn He Hi];
    unfold failure, success; cbn [calls].
  - apply Hlow. constructor.
  - apply Hlow. apply (phases_below 1); [lia|].
    apply (embedding_sorted env eid cs false).
  - apply Hlow. apply (phases_below 3); [lia|].
    apply (insertion_phase_sorted env eid cs ns).
  - unfold reference_phase.
    assert (Forall (λ e, reference_pair e = None)
              (parent_calls (parent_phase env eid cs ns))) as Hh.
    { apply below_references, (parent_phase_sorted env eid cs ns). }
    destruct (create_references_pairs (node_mapper eid cs) (resolution eid cs)
                (fuzzy_phase env eid cs)
                (original_id_to_db_id_map (insertion_phase env eid cs ns))
                _ Hh) as [Hinv Hs].
    split; [exact Hs|]. intros p. rewrite (Hinv p). case_decide; lia.
Qed.

End Pairs.

(** C1, as amended. The guarded write looks the pair up in the set of
    inserted pairs before it calls [insert_reference], calls it once when
    the pair is not there, and adds the pair to the set only when the call
    has returned. So after the two passes the set holds exactly the pairs
    whose write has returned, and a pair whose writes have all failed is
    not in it; and in a run no pair is written again once its write has
    returned, so that at most one [insert_reference] call returns for a
    directed pair of storage ids, whichever of the two passes finds it. *)
Theorem one_successful_insert_per_pair
    {ParsedDoc DocTree : Type} (env : collaborators ParsedDoc DocTree) :
  (∀ kind weight st source_db_id target_db_id,
     if decide ((source_db_id, target_db_id) ∈ inserted_reference_pairs st)
     then insert_pair env kind weight st source_db_id target_db_id = st
     else ∃ e,
       reference_calls
         (insert_pair env kind weight st source_db_id target_db_id)
       = e :: reference_calls st
       ∧ reference_pair e = Some (source_db_id, target_db_id)
       ∧ inserted_reference_pairs
           (insert_pair env kind weight st source_db_id target_db_id)
         = if ev_ok e
           then inserted_reference_pairs st
                ∪ {[(source_db_id, target_db_id)]}
           else inserted_reference_pairs st)
  ∧ (∀ m r fz id_map history p,
       Forall (λ e, reference_pair e = None) history →
       (p ∈ inserted_reference_pairs
              (create_references env m r fz id_map history)
        ↔ successes p
            (reference_calls (create_references env m r fz id_map history))
          = 1%nat)
       ∧ (p ∉ inserted_reference_pairs
                (create_references env m r fz id_map history)
          ↔ successes p
              (reference_calls (create_references env m r fz id_map history))
            = 0%nat))
  ∧ (∀ file_path document_id,
       StronglySorted no_retry
         (calls (process_document env file_path document_id))
       ∧ ∀ p, (successes p (calls (process_document env file_path document_id))
               ≤ 1)%nat).
Proof.
  split; [|split].
  - intros. apply insert_pair_step.
  - intros. by apply create_references_set.
  - intros. apply process_document_no_retry.
Qed.

(** The two passes over the scenario in which the store rejects every
    reference: the pair (2, 1) is written twice, never with success, and
    it is not in the set. *)
Lemma one_successful_insert_per_pair_witness :
  let env := Fixture.world [Fixture.guide; Fixture.step1_twice]
               true true true true false [] in
  let cs := [Fixture.guide; Fixture.step1_twice] in
  let st := create_references env (node_mapper "A" cs) (resolution "A" cs)
              (fuzzy_phase env "A" cs) [("id1", 1); ("id2", 2)] [] in
  attempts (2, 1) (reference_calls st) = 2%nat
  ∧ successes (2, 1) (reference_calls st) = 0%nat
  ∧ (2, 1) ∉ inserted_reference_pairs st.
Proof.
  intros env cs st.
  assert (successes (2, 1) (reference_calls st) = 0%nat) as Hs
    by (vm_compute; reflexivity).
  split; [vm_compute; reflexivity|]. split; [exact Hs|].
  apply (proj2 (proj1 (proj2 (one_successful_insert_per_pair env))
                  (node_mapper "A" cs) (resolution "A" cs)
                  (fuzzy_phase env "A" cs) [("id1", 1); ("id2", 2)] []
                  (2, 1) (Forall_nil_2 _))).
  exact Hs.
Defined.

(** C1 as stated fails: when the store rejects the reference from storage
    id 2 to storage id 1, the second mention of the same section makes the
    run call [insert_reference] for that pair a second time. *)
Lemma failed_pair_is_attempted_again :
  result Fixture.rejected_references = Some "A"
  ∧ attempts (2, 1) (calls Fixture.rejected_references) = 2%nat
  ∧ ¬ (attempts (2%Z, 1%Z) (calls Fixture.rejected_references) ≤ 1)%nat.
Proof. vm_compute. repeat split; lia. Qed.

(** ** C8: the embedding call and the records without an embedding *)

Section EmbeddingStep.

Context {ParsedDoc DocTree : Type} (env : collaborators ParsedDoc DocTree).

(** A record that is handed to [insert_node] has a true flag. *)
Lemma insertable_flag n :
  insertable n → embedding_generated (node_metadata n) = Some true.
Proof. intros [_ H]. by apply embedding_ok_flag. Qed.

(** The insertion loop counts every record once. *)
Lemma insertion_phase_total eid cs ns :
  (inserted_count (insertion_phase env eid cs ns)
   + failed_count (insertion_phase env eid cs ns) = length ns)%nat.
Proof.
  unfold insertion_phase, insert_nodes.
  destruct (insert_loop_counts env ns
              (insertion_init
                 (clear_existing env eid
                    (returned (embedding_call eid cs)
                     :: fuzzy_calls (fuzzy_phase env eid cs))))) as [H _].
  simpl in H. exact H.
Qed.

(** The run in which the embedder has returned [ns], seen from its calls
    and its output. *)
Lemma embedded_run eid cs ns r :
  outcome env eid cs r →
  embedding_phase env eid cs = Some ns →
  db_nodes_to_insert (node_mapper eid cs) ≠ [] →
  returned (embedding_call eid cs) ∈ calls r
  ∧ clears (calls r) = [eid]
  ∧ rev (insertions (calls r)) = filter insertable ns
  ∧ NodeInsertionComplete
      (count_calls is_insert_node true (calls r))
      (count_calls is_insert_node false (calls r)
       + length (filter (λ n, ¬ insertable n) ns))
      ∈ stdout r
  ∧ (count_calls is_insert_node true (calls r)
     + (count_calls is_insert_node false (calls r)
        + length (filter (λ n, ¬ insertable n) ns)) = length ns)%nat
  ∧ result r
    = if decide (count_calls is_insert_node true (calls r) = 0%nat ∧ ns ≠ [])
      then None else Some eid.
Proof.
  intros Hout He Hn.
  assert (returned (embedding_call eid cs)
            ∈ insertion_calls (insertion_phase env eid cs ns)) as Hemb.
  { destruct (insertion_phase_start env eid cs ns) as [ok Hext].
    apply (extends_keeps _ _ _ _ Hext).
    apply list_elem_of_further, list_elem_of_here. }
  destruct (insertion_phase_counters env eid cs ns) as [C1 C2].
  pose proof (insertion_phase_total eid cs ns) as Ct.
  pose proof (reference_phase_phase env eid cs ns) as E5.
  pose proof (parent_phase_phase env eid cs ns) as E4.
  assert (nothing_inserted (insertion_phase env eid cs ns) = true
          ↔ count_calls is_insert_node true
              (insertion_calls (insertion_phase env eid cs ns)) = 0%nat
            ∧ ns ≠ []) as Hfatal.
  { rewrite nothing_inserted_counts, <- C1. split.
    - intros [H0 Hf]. split; [done|]. intros Hnil.
      assert (length ns = 0%nat) as Hl by (by rewrite Hnil). lia.
    - intros [H0 Hne]. split; [done|].
      destruct ns; [done|]. cbn [length] in Ct. lia. }
  assert (insertion_lines env eid cs ns
          = NodeInsertionComplete
              (count_calls is_insert_node true
                 (insertion_calls (insertion_phase env eid cs ns)))
              (count_calls is_insert_node false
                 (insertion_calls (insertion_phase env eid cs ns))
               + length (filter (λ n, ¬ insertable n) ns))
            :: lookup_lines env eid cs) as Hlines.
  { unfold insertion_lines. by rewrite <- C1, <- C2. }
  rewrite C1, C2 in Ct.
  destruct Hout as [Hn' | Hn' He' | ns' Hn' He' Hi | ns' Hn' He' Hi];
    try congruence;
    assert (ns' = ns) as -> by congruence;
    unfold failure, success; cbn [calls stdout result].
  - split; [exact Hemb|]. split; [apply insertion_phase_clears|].
    split; [by rewrite insertion_phase_insertions, rev_involutive|].
    split; [rewrite Hlines; apply list_elem_of_here|].
    split; [exact Ct|].
    rewrite decide_True; [done | by apply Hfatal].
  - rewrite !(count_calls_phase 5 3 _ _ _ _ insert_node_phase ltac:(lia) E5).
    rewrite !(count_calls_phase 4 3 _ _ _ _ insert_node_phase ltac:(lia) E4).
    split; [by apply (extends_keeps _ _ _ _ E5), (extends_keeps _ _ _ _ E4)|].
    split.
    { rewrite (clears_phase 5 _ _ ltac:(lia) E5).
      rewrite (clears_phase 4 _ _ ltac:(lia) E4).
      apply insertion_phase_clears. }
    split; [by rewrite reference_phase_insertions, rev_involutive|].
    split.
    { unfold final_lines. rewrite Hlines.
      apply list_elem_of_further, list_elem_of_here. }
    split; [exact Ct|].
    rewrite decide_False; [done|].
    intros H%Hfatal. congruence.
Qed.

End EmbeddingStep.

(** C8, as amended. If the call of the embedding provider raises, the run
    stops there and returns no document id. If the call returns, records
    without an embedding do not stop the run at that step: it goes on to
    clear the document and to the insertion loop, which hands to
    [insert_node] every record that has an [original_id] and a true flag
    and no other, and counts each of the others as failed. Such a run
    returns the document id when at least one [insert_node] call has
    returned, or when the embedder returned no record; it returns no
    document id exactly when there were records and no [insert_node] call
    has returned, as when no record has got an embedding. *)
Theorem embedding_call_failure_is_fatal
    {ParsedDoc DocTree : Type} (env : collaborators ParsedDoc DocTree)
    (file_path : string) (document_id : option string) (cs : list chunk) :
  phases_1_to_3 env file_path document_id = inr cs →
  db_nodes_to_insert (node_mapper (effective_document_id file_path document_id) cs)
  ≠ [] →
  (embedding_phase env (effective_document_id file_path document_id) cs = None →
   result (process_document env file_path document_id) = None
   ∧ calls (process_document env file_path document_id)
     = raised (embedding_call (effective_document_id file_path document_id) cs)
       :: fuzzy_calls
            (fuzzy_phase env (effective_document_id file_path document_id) cs))
  ∧ (∀ ns,
       embedding_phase env (effective_document_id file_path document_id) cs
       = Some ns →
       returned
         (embedding_call (effective_document_id file_path document_id) cs)
         ∈ calls (process_document env file_path document_id)
       ∧ clears (calls (process_document env file_path document_id))
         = [effective_document_id file_path document_id]
       ∧ rev (insertions (calls (process_document env file_path document_id)))
         = filter insertable ns
       ∧ (∀ n, embedding_generated (node_metadata n) ≠ Some true →
               n ∉ insertions
                     (calls (process_document env file_path document_id)))
       ∧ (∃ inserted failed,
            NodeInsertionComplete inserted failed
              ∈ stdout (process_document env file_path document_id)
            ∧ inserted
              = count_calls is_insert_node true
                  (calls (process_document env file_path document_id))
            ∧ (inserted + failed = length ns)%nat
            ∧ (length
                 (filter
                    (λ n, embedding_generated (node_metadata n) ≠ Some true)
                    ns)
               ≤ failed)%nat)
       ∧ (result (process_document env file_path document_id)
          = Some (effective_document_id file_path document_id)
          ↔ ns = []
            ∨ (0 < count_calls is_insert_node true
                     (calls (process_document env file_path document_id)))%nat)
       ∧ (result (process_document env file_path document_id) = None
          ↔ ns ≠ []
            ∧ count_calls is_insert_node true
                (calls (process_document env file_path document_id))
              = 0%nat)).
Proof.
  intros Hp Hn.
  set (eid := effective_document_id file_path document_id) in *.
  split.
  - intros He. unfold process_document. rewrite Hp. fold eid.
    rewrite (phase_4_embedding_raised env eid cs Hn He). done.
  - intros ns He.
    apply process_document_phase_4 in Hp. fold eid in Hp.
    destruct (embedded_run env eid cs ns _ Hp He Hn)
      as (Hemb & Hclear & Hins & Hline & Htotal & Hres).
    set (r := process_document env file_path document_id) in *.
    split; [exact Hemb|]. split; [exact Hclear|]. split; [exact Hins|].
    assert (∀ n, embedding_generated (node_metadata n) ≠ Some true →
                 ¬ insertable n) as Hflag.
    { intros n Hf Hi. by apply Hf, insertable_flag. }
    split; [|split; [|split]].
    + intros n Hf Hin.
      apply list_elem_of_In, in_rev, list_elem_of_In in Hin.
      rewrite Hins in Hin.
      apply list_elem_of_filter in Hin as [Hi _]. by apply (Hflag n).
    + eexists _, _. split; [exact Hline|]. split; [done|].
      split; [exact Htotal|].
      etrans; [|apply Nat.le_add_l].
      clear -Hflag. induction ns as [|n ns IH]; [done|].
      rewrite !filter_cons.
      destruct (decide (embedding_generated (node_metadata n) ≠ Some true))
        as [Hf|Hf].
      * rewrite decide_True by (by apply Hflag). simpl. lia.
      * case_decide; simpl; lia.
    + rewrite Hres. case_decide as Hd.
      * split; [done|]. intros [->|Hpos]; destruct Hd as [H0 Hne]; [done|lia].
      * split; [intros _|done].
        destruct (decide (ns = [])) as [|Hne]; [by left|]. right.
        destruct (count_calls is_insert_node true (calls r)) eqn:Hc; [|lia].
        destruct Hd. done.
    + rewrite Hres. case_decide as Hd.
      * split; [intros _|done]. destruct Hd. done.
      * split; [done|]. intros [Hne H0]. destruct Hd. done.
Qed.

(** With the provider down the run stops at the embedding call; with a
    provider that embeds the record of "Guide" and not that of
    "Guide > Step1" the run inserts the first, counts the second as failed
    and returns the document id. *)
Lemma embedding_call_failure_is_fatal_witness :
  (result Fixture.embedder_down = None
   ∧ calls Fixture.embedder_down
     = [raised (embedding_call "A" [Fixture.guide; Fixture.step1])])
  ∧ (result Fixture.partly_embedded = Some "A"
     ∧ NodeInsertionComplete 1 1 ∈ stdout Fixture.partly_embedded
     ∧ rev (insertions (calls Fixture.partly_embedded))
       = filter insertable
           (map (Fixture.embed_except ["id2"])
              (db_nodes_to_insert
                 (node_mapper "A" [Fixture.guide; Fixture.step1])))).
Proof.
  split.
  - exact (proj1 (embedding_call_failure_is_fatal
                    (Fixture.world [Fixture.guide; Fixture.step1]
                       false true true true true [])
                    "docs/A.md" None [Fixture.guide; Fixture.step1]
                    eq_refl ltac:(discriminate))
             eq_refl).
  - destruct (proj2 (embedding_call_failure_is_fatal
                       (Fixture.embedding_all_but ["id2"]
                          [Fixture.guide; Fixture.step1])
                       "docs/A.md" None [Fixture.guide; Fixture.step1]
                       eq_refl ltac:(discriminate))
                (map (Fixture.embed_except ["id2"])
                   (db_nodes_to_insert
                      (node_mapper "A" [Fixture.guide; Fixture.step1])))
                eq_refl)
      as (_ & _ & Hins & _ & _ & Hres & _).
    split; [|split; [|exact Hins]].
    + apply Hres. right. vm_compute. lia.
    + vm_compute. apply list_elem_of_further, list_elem_of_here.
Defined.

(** C8 as stated fails: with a provider that answers and a store that
    accepts everything, the run in which no record has got an embedding
    returns no document id, though no call has raised; the records fail
    one by one and nothing else does. *)
Lemma failed_embeddings_alone_are_fatal :
  result Fixture.nothing_embedded = None
  ∧ Forall (λ e, ev_ok e = true) (calls Fixture.nothing_embedded)
  ∧ returned (embedding_call "A" [Fixture.guide; Fixture.step1])
      ∈ calls Fixture.nothing_embedded
  ∧ insertions (calls Fixture.nothing_embedded) = []
  ∧ stdout Fixture.nothing_embedded
    = [NodeInsertionComplete 0 2; FuzzyLookupsComplete 0 0;
       IdentifiedFuzzyPaths 0; FoundExactReferences 1].
Proof.
  split; [reflexivity|]. split; [|split; [|split; reflexivity]].
  - vm_compute. repeat constructor.
  - vm_compute. apply list_elem_of_further, list_elem_of_here.
Qed.

(** ** Where the written rows and edges come from *)

Section Edges.

Context {ParsedDoc DocTree : Type} (env : collaborators ParsedDoc DocTree).

(** The rows kept for a pattern belong to the document of the run, and the
    pattern was pending. *)
Lemma fuzzy_phase_rows eid cs key rows :
  fuzzy_path_to_nodes_map (fuzzy_phase env eid cs) !! key = Some rows →
  key ∈ paths_needing_fuzzy_lookup (resolution eid cs)
  ∧ Forall (same_document eid) rows.
Proof.
  unfold fuzzy_phase.
  set (pending := paths_needing_fuzzy_lookup (resolution eid cs)).
  destruct (fuzzy_lookups_map env eid (elements pending)
              (NoDup_elements pending)) as [Hout Hin].
  intros Hm.
  destruct (decide (key ∈ elements pending)) as [Hq|Hq];
    [|by rewrite (Hout key Hq) in Hm].
  split; [by apply elem_of_elements|].
  destruct (Hin key Hq) as (e & before & after & _ & _ & Hres).
  destruct (find_nodes_by_path env before (wildcard key) 10) as [raw|];
    [|destruct Hres as [_ Hres]; congruence].
  destruct Hres as [_ Hres]. rewrite Hm in Hres.
  destruct (filter (same_document eid) raw) as [|f fs] eqn:Hf; [done|].
  injection Hres as ->. rewrite <- Hf. apply Forall_forall. intros x Hx.
  by apply list_elem_of_filter in Hx as [? _].
Qed.

(** The references of a run, each an exact or a fuzzy edge. *)
Lemma run_references file_path document_id eid cs ns e r :
  phases_1_to_3 env file_path document_id = inr cs →
  eid = effective_document_id file_path document_id →
  embedding_phase env eid cs = Some ns →
  e ∈ calls (process_document env file_path document_id) →
  ev_call e = InsertReference r →
  exact_edge (original_id_to_db_id_map (insertion_phase env eid cs ns))
    (exact_resolved_references (resolution eid cs)) e
  ∨ fuzzy_edge (fuzzy_path_to_nodes_map (fuzzy_phase env eid cs))
      (original_id_to_db_id_map (insertion_phase env eid cs ns))
      (original_id_to_chunk_map (node_mapper eid cs)) e.
Proof.
  intros Hp -> He Hin Hc.
  apply process_document_phase_4 in Hp. revert Hin.
  set (eid := effective_document_id file_path document_id) in *.
  assert (∀ k h, (k < 5)%nat →
            Forall (λ e, (phase_of (ev_call e) ≤ k)%nat) h → e ∈ h → False)
    as Hlow.
  { intros k h Hk Hf Hin. rewrite Forall_forall in Hf. apply Hf in Hin.
    rewrite Hc in Hin. simpl in Hin. lia. }
  destruct Hp as [Hn | Hn He' | ns' Hn He' Hi | ns' Hn He' Hi];
    unfold failure, success; cbn [calls]; intros Hin.
  - by apply elem_of_nil in Hin.
  - congruence.
  - assert (ns' = ns) as -> by congruence.
    destruct (insertion_phase_sorted env eid cs ns) as [_ F3].
    exfalso. by apply (Hlow 3%nat _ ltac:(lia) F3).
  - assert (ns' = ns) as -> by congruence.
    destruct (parent_phase_sorted env eid cs ns) as [_ F4].
    pose proof (create_references_provenance env (node_mapper eid cs)
                  (resolution eid cs) (fuzzy_phase env eid cs)
                  (original_id_to_db_id_map (insertion_phase env eid cs ns))
                  (parent_calls (parent_phase env eid cs ns))) as Hprov.
    fold (reference_phase env eid cs ns) in Hprov.
    destruct (extends_elem _ _ _ _ Hprov Hin) as [H|H]; [exact H|].
    exfalso. by apply (Hlow 4%nat _ ltac:(lia) F4).
Qed.

(** The parent updates of a run, each a parent link. *)
Lemma run_parent_links file_path document_id eid cs ns e db_id db_parent_id :
  phases_1_to_3 env file_path document_id = inr cs →
  eid = effective_document_id file_path document_id →
  embedding_phase env eid cs = Some ns →
  e ∈ calls (process_document env file_path document_id) →
  ev_call e = UpdateNodeParent db_id db_parent_id →
  parent_link (original_id_to_chunk_map (node_mapper eid cs))
    (original_id_to_db_id_map (insertion_phase env eid cs ns)) e.
Proof.
  intros Hp -> He Hin Hc.
  apply process_document_phase_4 in Hp. revert Hin.
  set (eid := effective_document_id file_path document_id) in *.
  destruct Hp as [Hn | Hn He' | ns' Hn He' Hi | ns' Hn He' Hi];
    unfold failure, success; cbn [calls]; intros Hin.
  - by apply elem_of_nil in Hin.
  - congruence.
  - assert (ns' = ns) as -> by congruence.
    destruct (insertion_phase_sorted env eid cs ns) as [_ F3].
    rewrite Forall_forall in F3. apply F3 in Hin.
    rewrite Hc in Hin. simpl in Hin. lia.
  - assert (ns' = ns) as -> by congruence.
    destruct (extends_elem _ _ _ _ (reference_phase_phase env eid cs ns) Hin)
      as [H|H]; [rewrite Hc in H; done|].
    pose proof (set_parent_links_provenance env
                  (original_id_to_chunk_map (node_mapper eid cs))
                  (original_id_to_db_id_map (insertion_phase env eid cs ns))
                  (insertion_calls (insertion_phase env eid cs ns))) as Hprov.
    fold (parent_phase env eid cs ns) in Hprov.
    destruct (extends_elem _ _ _ _ Hprov H) as [H'|H']; [exact H'|].
    destruct (insertion_phase_sorted env eid cs ns) as [_ F3].
    rewrite Forall_forall in F3. apply F3 in H'.
    rewrite Hc in H'. simpl in H'. lia.
Qed.

End Edges.

(** X9. Every reference a run writes joins two rows that the run itself
    has inserted, and it is written as "related_section_exact" with
    strength 9/10 or as "related_section_fuzzy" with strength 7/10. *)
Theorem references_join_inserted_rows
    {ParsedDoc DocTree : Type} (env : collaborators ParsedDoc DocTree)
    (file_path : string) (document_id : option string)
    (eid : string) (cs : list chunk) (ns : list node)
    (e : event) (r : reference) :
  phases_1_to_3 env file_path document_id = inr cs →
  eid = effective_document_id file_path document_id →
  embedding_phase env eid cs = Some ns →
  e ∈ calls (process_document env file_path document_id) →
  ev_call e = InsertReference r →
  source_node_id r
    ∈ Py.dict_values (original_id_to_db_id_map (insertion_phase env eid cs ns))
  ∧ target_node_id r
      ∈ Py.dict_values (original_id_to_db_id_map (insertion_phase env eid cs ns))
  ∧ ((reference_type r = "related_section_exact" ∧ strength r = 9 # 10)
     ∨ (reference_type r = "related_section_fuzzy" ∧ strength r = 7 # 10)).
Proof.
  intros Hp Heid He Hin Hc.
  destruct (run_references env _ _ eid cs ns e r Hp Heid He Hin Hc)
    as [(s & t & r' & Hc' & _ & Hs & Ht & Hty & Hst)
       |(o & c & item & key & rows & row & r' & Hc' & _ & Hs & _ & _ & _ & _
         & _ & Ht & Hty & Hst)];
    rewrite Hc in Hc'; injection Hc' as <-.
  - split; [by eapply dict_get_value|]. split; [by eapply dict_get_value|].
    left. by split.
  - split; [by eapply dict_get_value|]. split; [done|]. right. by split.
Qed.

Lemma references_join_inserted_rows_witness :
  (2:Z) ∈ Py.dict_values
            (original_id_to_db_id_map
               (insertion_phase
                  (Fixture.healthy [Fixture.guide; Fixture.step1]) "A"
                  [Fixture.guide; Fixture.step1]
                  (map (Fixture.embed true)
                     (db_nodes_to_insert
                        (node_mapper "A" [Fixture.guide; Fixture.step1]))))).
Proof.
  refine (proj1 (references_join_inserted_rows
                   (Fixture.healthy [Fixture.guide; Fixture.step1])
                   "docs/A.md" None "A" [Fixture.guide; Fixture.step1] _
                   (returned (InsertReference
                                {| source_node_id := 2; target_node_id := 1;
                                   reference_type := exact_type;
                                   strength := exact_strength |}))
                   _ eq_refl eq_refl eq_refl _ eq_refl)).
  vm_compute. apply list_elem_of_here.
Defined.

Section Answers.

Context {ParsedDoc DocTree : Type} (env : collaborators ParsedDoc DocTree).

(** The rows kept for a pattern are the rows of the document of the run
    among those the store returned when the pattern was looked up. *)
Lemma fuzzy_phase_answer eid cs key rows :
  fuzzy_path_to_nodes_map (fuzzy_phase env eid cs) !! key = Some rows →
  ∃ q before after raw,
    fuzzy_calls (fuzzy_phase env eid cs) = (after ++ q :: before)%list
    ∧ ev_call q = FindNodesByPath (wildcard key) 10
    ∧ ev_ok q = true
    ∧ find_nodes_by_path env before (wildcard key) 10 = Some raw
    ∧ rows = filter (same_document eid) raw.
Proof.
  unfold fuzzy_phase.
  set (pending := paths_needing_fuzzy_lookup (resolution eid cs)).
  destruct (fuzzy_lookups_map env eid (elements pending)
              (NoDup_elements pending)) as [Hout Hin].
  intros Hm.
  destruct (decide (key ∈ elements pending)) as [Hq|Hq];
    [|by rewrite (Hout key Hq) in Hm].
  destruct (Hin key Hq) as (q & before & after & Hcalls & Hcall & Hres).
  exists q, before, after.
  destruct (find_nodes_by_path env before (wildcard key) 10) as [raw|];
    [|destruct Hres as [_ Hres]; congruence].
  destruct Hres as [Hok Hres]. exists raw.
  split; [exact Hcalls|]. split; [exact Hcall|]. split; [exact Hok|].
  split; [done|].
  rewrite Hm in Hres.
  destruct (filter (same_document eid) raw); [done | congruence].
Qed.

(** A run that writes a reference has gone through every phase, so its
    history ends with the path queries. *)
Lemma run_after_lookups file_path document_id eid cs ns e r :
  phases_1_to_3 env file_path document_id = inr cs →
  eid = effective_document_id file_path document_id →
  embedding_phase env eid cs = Some ns →
  e ∈ calls (process_document env file_path document_id) →
  ev_call e = InsertReference r →
  ∃ later,
    calls (process_document env file_path document_id)
    = (later ++ fuzzy_calls (fuzzy_phase env eid cs))%list.
Proof.
  intros Hp -> He Hin Hc.
  apply process_document_phase_4 in Hp. revert Hin.
  set (eid := effective_document_id file_path document_id) in *.
  assert (∀ k h, (k < 5)%nat →
            Forall (λ e, (phase_of (ev_call e) ≤ k)%nat) h → e ∈ h → False)
    as Hlow.
  { intros k h Hk Hf Hin. rewrite Forall_forall in Hf. apply Hf in Hin.
    rewrite Hc in Hin. simpl in Hin. lia. }
  destruct Hp as [Hn | Hn He' | ns' Hn He' Hi | ns' Hn He' Hi];
    unfold failure, success; cbn [calls]; intros Hin.
  - by apply elem_of_nil in Hin.
  - congruence.
  - destruct (insertion_phase_sorted env eid cs ns') as [_ F3].
    exfalso. by apply (Hlow 3%nat _ ltac:(lia) F3).
  - destruct (reference_phase_phase env eid cs ns') as (l5 & -> & _).
    destruct (parent_phase_phase env eid cs ns') as (l4 & -> & _).
    destruct (insertion_phase_start env eid cs ns') as (ok & l3 & -> & _).
    eexists (l5 ++ l4 ++ l3 ++ [_; _])%list.
    by rewrite <- !app_assoc.
Qed.

End Answers.

(** X10. Every reference a run writes answers to a mention. An exact
    reference joins the rows of a pair that exact resolution recorded. A
    fuzzy reference starts at the row of a chunk that mentions a path key
    which no chunk of the batch has registered, and ends at a row of the
    list that the fuzzy map holds for that key; the row belongs to the
    document of the run, and it is among the rows that the store returned
    when the run queried it with the pattern of that key and the cap 10. *)
Theorem references_answer_to_mentions
    {ParsedDoc DocTree : Type} (env : collaborators ParsedDoc DocTree)
    (file_path : string) (document_id : option string)
    (eid : string) (cs : list chunk) (ns : list node)
    (e : event) (r : reference) :
  phases_1_to_3 env file_path document_id = inr cs →
  eid = effective_document_id file_path document_id →
  embedding_phase env eid cs = Some ns →
  e ∈ calls (process_document env file_path document_id) →
  ev_call e = InsertReference r →
  (reference_type r = "related_section_exact"
   ∧ ∃ source target,
       (source, target) ∈ exact_resolved_references (resolution eid cs)
       ∧ Py.dict_get source
           (original_id_to_db_id_map (insertion_phase env eid cs ns))
         = Some (source_node_id r)
       ∧ Py.dict_get target
           (original_id_to_db_id_map (insertion_phase env eid cs ns))
         = Some (target_node_id r))
  ∨ (reference_type r = "related_section_fuzzy"
     ∧ ∃ source key rows row,
         mentions (original_id_to_chunk_map (node_mapper eid cs)) source key
         ∧ path_to_original_id_map (node_mapper eid cs) !! key = None
         ∧ Py.dict_get source
             (original_id_to_db_id_map (insertion_phase env eid cs ns))
           = Some (source_node_id r)
         ∧ fuzzy_path_to_nodes_map (fuzzy_phase env eid cs) !! key = Some rows
         ∧ row ∈ rows
         ∧ sn_id row = Some (target_node_id r)
         ∧ sn_document_id row = Some eid
         ∧ ∃ q later before raw,
             calls (process_document env file_path document_id)
             = (later ++ q :: before)%list
             ∧ ev_call q = FindNodesByPath (wildcard key) 10
             ∧ ev_ok q = true
             ∧ find_nodes_by_path env before (wildcard key) 10 = Some raw
             ∧ row ∈ raw).
Proof.
  intros Hp Heid He Hin Hc.
  destruct (run_references env _ _ eid cs ns e r Hp Heid He Hin Hc)
    as [(s & t & r' & Hc' & Hex & Hs & Ht & Hty & _)
       |(o & c & item & key & rows & row & r' & Hc' & Hoc & Hs & Hi & Hk
         & Hrows & Hrow & Hid & _ & Hty & _)];
    rewrite Hc in Hc'; injection Hc' as <-.
  - left. split; [done|]. by exists s, t.
  - right. split; [done|]. exists o, key, rows, row.
    destruct (fuzzy_phase_answer env eid cs key rows Hrows)
      as (q & before & after & raw & Hcalls & Hq & Hok & Hraw & ->).
    apply list_elem_of_filter in Hrow as Hrow'. destruct Hrow' as [Hdoc Hin'].
    apply fuzzy_phase_rows in Hrows as Hrows'. destruct Hrows' as [Hpend _].
    apply resolution_pending_sound in Hpend as [Hmiss _].
    destruct (run_after_lookups env _ _ eid cs ns e r Hp Heid He Hin Hc)
      as [later Hlater].
    split; [by exists c, item|]. split; [done|]. split; [done|].
    split; [done|]. split; [done|]. split; [done|]. split; [exact Hdoc|].
    exists q, (later ++ after)%list, before, raw.
    split; [by rewrite Hlater, Hcalls, <- app_assoc|]. done.
Qed.

(** In the scenario the reference from row 2 to row 1 is exact; in the
    run whose chunk mentions only "Appendix" it is fuzzy, and the row 1 of
    the document "A" is among the rows the store returned for
    "%Appendix%". *)
Lemma references_answer_to_mentions_witness :
  (∃ source target,
     (source, target)
       ∈ exact_resolved_references
           (resolution "A" [Fixture.guide; Fixture.step1])
     ∧ Py.dict_get source
         (original_id_to_db_id_map
            (insertion_phase
               (Fixture.healthy [Fixture.guide; Fixture.step1]) "A"
               [Fixture.guide; Fixture.step1]
               (map (Fixture.embed true)
                  (db_nodes_to_insert
                     (node_mapper "A" [Fixture.guide; Fixture.step1])))))
       = Some 2)
  ∧ (∃ key rows row,
       fuzzy_path_to_nodes_map
         (fuzzy_phase
            (Fixture.world [Fixture.guide; Fixture.step1_appendix]
               true true true true true Fixture.appendix_rows)
            "A" [Fixture.guide; Fixture.step1_appendix]) !! key
       = Some rows
       ∧ row ∈ rows
       ∧ sn_id row = Some 1
       ∧ sn_document_id row = Some "A").
Proof.
  split.
  - destruct (references_answer_to_mentions
                (Fixture.healthy [Fixture.guide; Fixture.step1])
                "docs/A.md" None "A" [Fixture.guide; Fixture.step1]
                (map (Fixture.embed true)
                   (db_nodes_to_insert
                      (node_mapper "A" [Fixture.guide; Fixture.step1])))
                (returned (InsertReference
                             {| source_node_id := 2; target_node_id := 1;
                                reference_type := exact_type;
                                strength := exact_strength |}))
                {| source_node_id := 2; target_node_id := 1;
                   reference_type := exact_type; strength := exact_strength |}
                eq_refl eq_refl eq_refl
                ltac:(vm_compute; apply list_elem_of_here) eq_refl)
      as [(_ & s & t & Hex & Hs & _)|(Hty & _)].
    + by exists s, t.
    + discriminate Hty.
  - set (env := Fixture.world [Fixture.guide; Fixture.step1_appendix]
                  true true true true true Fixture.appendix_rows).
    set (cs := [Fixture.guide; Fixture.step1_appendix]).
    set (r := {| source_node_id := 2; target_node_id := 1;
                 reference_type := fuzzy_type; strength := fuzzy_strength |}).
    assert (phases_1_to_3 env "docs/A.md" None = inr cs) as Hp
      by (vm_compute; reflexivity).
    assert (embedding_phase env "A" cs
            = Some (map (Fixture.embed true)
                      (db_nodes_to_insert (node_mapper "A" cs)))) as He
      by (vm_compute; reflexivity).
    assert (returned (InsertReference r)
              ∈ calls (process_document env "docs/A.md" None)) as Hin
      by (vm_compute; apply list_elem_of_here).
    destruct (references_answer_to_mentions env "docs/A.md" None "A" cs
                _ _ r Hp eq_refl He Hin eq_refl)
      as [(Hty & _)
         |(_ & s & key & rows & row & _ & _ & _ & Hm & Hrow & Hid & Hdoc & _)].
    + discriminate Hty.
    + exists key, rows, row.
      exact (conj Hm (conj Hrow (conj Hid Hdoc))).
Defined.

Lemma count_calls_app kind ok l1 l2 :
  count_calls kind ok (l1 ++ l2)
  = (count_calls kind ok l1 + count_calls kind ok l2)%nat.
Proof. unfold count_calls. by rewrite filter_app, length_app. Qed.

Lemma count_calls_both kind l :
  (count_calls kind true l + count_calls kind false l ≤ length l)%nat.
Proof.
  induction l as [|e l IH]; [done|].
  rewrite !count_calls_cons. simpl.
  repeat case_decide; try lia.
  repeat match goal with H : _ ∧ _ |- _ => destruct H end. congruence.
Qed.

(** X11. Every parent update of a run sets, for a chunk whose node the run
    has inserted and whose metadata names a non-empty [parent_id] that the
    run has inserted too, the row of the chunk under the row of that
    parent: [update_node_parent] is never called with a row of another
    run, nor for a chunk without a declared parent. *)
Theorem parent_updates_follow_the_chunks
    {ParsedDoc DocTree : Type} (env : collaborators ParsedDoc DocTree)
    (file_path : string) (document_id : option string)
    (eid : string) (cs : list chunk) (ns : list node)
    (e : event) (db_id db_parent_id : Z) :
  phases_1_to_3 env file_path document_id = inr cs →
  eid = effective_document_id file_path document_id →
  embedding_phase env eid cs = Some ns →
  e ∈ calls (process_document env file_path document_id) →
  ev_call e = UpdateNodeParent db_id db_parent_id →
  ∃ original chunk_data md original_parent_id,
    (original, db_id)
      ∈ original_id_to_db_id_map (insertion_phase env eid cs ns)
    ∧ Py.dict_get original (original_id_to_chunk_map (node_mapper eid cs))
      = Some chunk_data
    ∧ chunk_metadata chunk_data = Some md
    ∧ parent_id md = Some original_parent_id
    ∧ original_parent_id ≠ ""
    ∧ Py.dict_get original_parent_id
        (original_id_to_db_id_map (insertion_phase env eid cs ns))
      = Some db_parent_id.
Proof.
  intros Hp Heid He Hin Hc.
  destruct (run_parent_links env _ _ eid cs ns e _ _ Hp Heid He Hin Hc)
    as (o & a & c & md & par & b & Hc' & H1 & H2 & H3 & H4 & H5 & H6).
  rewrite Hc in Hc'. injection Hc' as <- <-.
  by exists o, c, md, par.
Qed.

Lemma parent_updates_follow_the_chunks_witness :
  ∃ original chunk_data md original_parent_id,
    (original, 2)
      ∈ original_id_to_db_id_map
          (insertion_phase
             (Fixture.healthy [Fixture.guide; Fixture.step1]) "A"
             [Fixture.guide; Fixture.step1]
             (map (Fixture.embed true)
                (db_nodes_to_insert
                   (node_mapper "A" [Fixture.guide; Fixture.step1]))))
    ∧ Py.dict_get original
        (original_id_to_chunk_map
           (node_mapper "A" [Fixture.guide; Fixture.step1]))
      = Some chunk_data
    ∧ chunk_metadata chunk_data = Some md
    ∧ parent_id md = Some original_parent_id
    ∧ original_parent_id ≠ ""
    ∧ Py.dict_get original_parent_id
        (original_id_to_db_id_map
           (insertion_phase
              (Fixture.healthy [Fixture.guide; Fixture.step1]) "A"
              [Fixture.guide; Fixture.step1]
              (map (Fixture.embed true)
                 (db_nodes_to_insert
                    (node_mapper "A" [Fixture.guide; Fixture.step1])))))
      = Some 1.
Proof.
  apply (parent_updates_follow_the_chunks
           (Fixture.healthy [Fixture.guide; Fixture.step1])
           "docs/A.md" None "A" [Fixture.guide; Fixture.step1] _
           (returned (UpdateNodeParent 2 1)) 2 1
           eq_refl eq_refl eq_refl);
    [|reflexivity].
  vm_compute. apply list_elem_of_further, list_elem_of_here.
Defined.

Lemma id_map_bound
    {ParsedDoc DocTree : Type} (env : collaborators ParsedDoc DocTree)
    eid cs ns :
  (length (original_id_to_db_id_map (insertion_phase env eid cs ns))
   ≤ inserted_count (insertion_phase env eid cs ns))%nat.
Proof.
  unfold insertion_phase, insert_nodes. apply insert_loop_id_map; simpl;
    [constructor | constructor | lia].
Qed.


(** X13. A run sets no more parent links than it has inserted nodes: the
    parent links set and the parent link errors that it reports add up to
    at most the inserted count that it reports. *)
Theorem parent_links_bounded_by_inserted_nodes
    {ParsedDoc DocTree : Type} (env : collaborators ParsedDoc DocTree)
    (file_path : string) (document_id : option string)
    (inserted failed links link_errors created errors : nat) :
  NodeInsertionComplete inserted failed
    ∈ stdout (process_document env file_path document_id) →
  RelationshipsComplete links link_errors created errors
    ∈ stdout (process_document env file_path document_id) →
  (links + link_errors ≤ inserted)%nat.
Proof.
  set (eid := effective_document_id file_path document_id).
  destruct (process_document_outcome env file_path document_id)
    as [(_ & -> & _)|(cs & _ & Hout)].
  { intros H. by apply elem_of_nil in H. }
  fold eid in Hout.
  destruct Hout as [Hn | Hn He | ns Hn He Hi | ns Hn He Hi];
    unfold failure, success; cbn [calls stdout result].
  - intros H%list_elem_of_singleton. done.
  - unfold lookup_lines. rewrite !elem_of_cons, elem_of_nil.
    intros [?|[?|[?|[]]]]; done.
  - unfold insertion_lines, lookup_lines. intros _.
    rewrite !elem_of_cons, elem_of_nil. intros [?|[?|[?|[?|[]]]]]; done.
  - unfold final_lines, insertion_lines, lookup_lines.
    rewrite !elem_of_cons, !elem_of_nil.
    intros HN HR.
    assert (inserted = inserted_count (insertion_phase env eid cs ns)) as ->
      by (destruct HN as [HN|[HN|[HN|[HN|[HN|[]]]]]]; congruence).
    assert (links = parent_links_set (parent_phase env eid cs ns)
            ∧ link_errors = parent_link_errors (parent_phase env eid cs ns))
      as [-> ->]
      by (destruct HR as [HR|[HR|[HR|[HR|[HR|[]]]]]]; split; congruence).
    clear HN HR.
    destruct (set_parent_links_counters env
                (original_id_to_chunk_map (node_mapper eid cs))
                (original_id_to_db_id_map (insertion_phase env eid cs ns))
                (insertion_calls (insertion_phase env eid cs ns)))
      as (L & P1 & P2).
    pose proof (set_parent_links_provenance env
                  (original_id_to_chunk_map (node_mapper eid cs))
                  (original_id_to_db_id_map (insertion_phase env eid cs ns))
                  (insertion_calls (insertion_phase env eid cs ns)))
      as (new & Hnew & _).
    fold (parent_phase env eid cs ns) in L, P1, P2, Hnew.
    rewrite Hnew in L, P1, P2. rewrite !count_calls_app in P1, P2.
    rewrite length_app in L.
    pose proof (count_calls_both is_update_parent new) as Hboth.
    pose proof (id_map_bound env eid cs ns) as Hlen.
    revert L P1 P2 Hboth Hlen.
    generalize (parent_links_set (parent_phase env eid cs ns)),
      (parent_link_errors (parent_phase env eid cs ns)).
    intros. lia.
Qed.

Lemma parent_links_bounded_by_inserted_nodes_witness : (1 + 0 ≤ 2)%nat.
Proof.
  apply (parent_links_bounded_by_inserted_nodes
           (Fixture.healthy [Fixture.guide; Fixture.step1])
           "docs/A.md" None 2 0 1 0 1 0).
  - vm_compute. apply list_elem_of_further, list_elem_of_here.
  - vm_compute. apply list_elem_of_here.
Defined.

(** ** Before phase 4, and after the run *)

(** X14. The store and the embedder are not called unless the file exists,
    the components were constructed, the file was read and is not blank,
    and parsing, tree building, chunking and enrichment have all returned,
    with at least one chunk that has both an id and metadata. *)
Theorem collaborators_untouched_until_phase_4
    {ParsedDoc DocTree : Type} (env : collaborators ParsedDoc DocTree)
    (file_path : string) (document_id : option string) (e : event) :
  e ∈ calls (process_document env file_path document_id) →
  path_exists env file_path = true
  ∧ components_initialize env = true
  ∧ ∃ text parsed tree chunks cs,
      read_text env file_path = Some text
      ∧ Py.is_blank text = false
      ∧ parse_document env text = Some parsed
      ∧ build_hierarchy_tree env parsed = Some (Some tree)
      ∧ create_chunks env tree = Some chunks
      ∧ process_chunks env chunks tree = Some cs
      ∧ ¬ Forall discarded cs.
Proof.
  unfold process_document.
  destruct (phases_1_to_3 env file_path document_id) as [early|cs] eqn:Hp.
  { apply phases_1_to_3_early in Hp as [-> | ->]; simpl;
      intros H; by apply elem_of_nil in H. }
  intros Hin.
  assert (¬ Forall discarded cs) as Hkept.
  { intros Hd.
    destruct (phase_4_outcome env
                (effective_document_id file_path document_id) cs)
      as [Hn | Hn _ | ns Hn _ _ | ns Hn _ _];
      try (apply Hn; unfold node_mapper; by apply node_mapper_nodes).
    by apply elem_of_nil in Hin. }
  clear Hin. revert Hp. unfold phases_1_to_3.
  destruct (path_exists env file_path); simpl; [|done].
  destruct (components_initialize env); simpl; [|done].
  destruct (read_text env file_path) as [text|]; [|done].
  destruct (Py.is_blank text) eqn:Hb; [done|].
  destruct (parse_document env text) as [parsed|] eqn:H1; [|done].
  destruct (build_hierarchy_tree env parsed) as [[tree|]|] eqn:H2; try done.
  destruct (create_chunks env tree) as [chunks|] eqn:H3; [|done].
  destruct (process_chunks env chunks tree) as [cs'|] eqn:H4; [|done].
  intros [= <-]. split; [done|]. split; [done|].
  by exists text, parsed, tree, chunks, cs'.
Qed.

Lemma collaborators_untouched_until_phase_4_witness :
  path_exists (Fixture.healthy [Fixture.guide; Fixture.step1]) "docs/A.md"
  = true.
Proof.
  refine (proj1 (collaborators_untouched_until_phase_4
                   (Fixture.healthy [Fixture.guide; Fixture.step1])
                   "docs/A.md" None
                   (returned (InsertReference
                                {| source_node_id := 2; target_node_id := 1;
                                   reference_type := exact_type;
                                   strength := exact_strength |})) _)).
  vm_compute. apply list_elem_of_here.
Defined.

Section MainProperties.

Context {ParsedDoc DocTree : Type} (env : collaborators ParsedDoc DocTree).

Lemma process_document_result file_path document_id :
  result (process_document env file_path document_id) = None
  ∨ result (process_document env file_path document_id)
    = Some (effective_document_id file_path document_id).
Proof.
  unfold process_document.
  destruct (phases_1_to_3 env file_path document_id) as [early|cs] eqn:Hp.
  - apply phases_1_to_3_early in Hp as [-> | ->]; [by left | by right].
  - apply phase_4_result.
Qed.

End MainProperties.

(** X15. [main] exits with status 0 exactly when [process_document] has
    returned the effective document id and that id is not empty, and with
    status 1 otherwise. It issues no search after a failed processing, and
    every hierarchical search it issues carries the query, the match count
    and the context depth of the command line and is restricted to the
    document id that the processing returned. *)
Theorem main_exit_status_and_searches
    {ParsedDoc DocTree : Type} (env : collaborators ParsedDoc DocTree)
    (ret : retrieval) (args : arguments) :
  (exit_status (main env ret args) = 0
   ↔ result (process_document env (arg_file args) (arg_id args))
     = Some (effective_document_id (arg_file args) (arg_id args))
     ∧ effective_document_id (arg_file args) (arg_id args) ≠ "")
  ∧ (exit_status (main env ret args) = 0 ∨ exit_status (main env ret args) = 1)
  ∧ (exit_status (main env ret args) = 1 → searches (main env ret args) = [])
  ∧ (∀ query k d doc,
       HierarchicalSearch query k d doc ∈ searches (main env ret args) →
       doc = effective_document_id (arg_file args) (arg_id args)
       ∧ arg_query args = Some query ∧ query ≠ ""
       ∧ k = arg_match_count args ∧ d = arg_context_depth args).
Proof.
  unfold main.
  destruct (process_document_result env (arg_file args) (arg_id args))
    as [Hr|Hr]; rewrite Hr.
  { simpl. split; [|split; [|split]].
    - split; [done | by intros [? _]].
    - by right.
    - done.
    - intros * H. by apply elem_of_nil in H. }
  set (eid := effective_document_id (arg_file args) (arg_id args)).
  assert (Py.truthy_str eid = true ↔ eid ≠ "") as Ht.
  { unfold Py.truthy_str. destruct (String.eqb_spec eid ""); simpl;
      split; congruence. }
  destruct (Py.truthy_str eid); simpl.
  2:{ split; [|split; [|split]].
    - split; [done|]. intros [_ He]. by apply Ht in He.
    - by right.
    - done.
    - intros * H. by apply elem_of_nil in H. }
  split; [|split; [|split]].
  - split; [|done]. intros _. split; [done|]. by apply Ht.
  - by left.
  - done.
  - intros query k d doc [H|H]%elem_of_app.
    + unfold run_test_query in H.
      destruct (arg_query args) as [q|]; [|by apply elem_of_nil in H].
      destruct (Py.truthy_str q) eqn:Hq; simpl in H;
        [|by apply elem_of_nil in H].
      destruct (query_manager_initialize ret); [|by apply elem_of_nil in H].
      apply list_elem_of_singleton in H. injection H as -> -> -> ->.
      repeat split; try done. intros ->. done.
    + unfold run_full_retrieval in H.
      destruct (arg_test_query args) as [tq|]; [|by apply elem_of_nil in H].
      destruct (Py.truthy_str tq && retrieval_manager_initialize ret);
        [|by apply elem_of_nil in H].
      by apply list_elem_of_singleton in H.
Qed.

Lemma main_exit_status_and_searches_witness :
  exit_status
    (main (Fixture.healthy [Fixture.guide; Fixture.step1])
       {| query_manager_initialize := true;
          retrieval_manager_initialize := true |}
       {| arg_file := "docs/A.md"; arg_id := None;
          arg_query := Some "setup"; arg_match_count := 5;
          arg_context_depth := 2; arg_test_query := None |})
  = 0.
Proof.
  apply (proj1 (main_exit_status_and_searches
                  (Fixture.healthy [Fixture.guide; Fixture.step1])
                  {| query_manager_initialize := true;
                     retrieval_manager_initialize := true |}
                  {| arg_file := "docs/A.md"; arg_id := None;
                     arg_query := Some "setup"; arg_match_count := 5;
                     arg_context_depth := 2; arg_test_query := None |})).
  split; [reflexivity | discriminate].
Defined.

(** ** The database page *)

Example editor_url_standard :
  get_supabase_sql_editor_url "https://abcd1234.supabase.co"
  = "https://supabase.com/dashboard/project/abcd1234/sql/new".
Proof. reflexivity. Qed.

Example editor_url_no_scheme :
  get_supabase_sql_editor_url "abcd1234.supabase.co" = dashboard_url.
Proof. reflexivity. Qed.

Example split_overlap : PyStr.split "//" "a///b//" = ["a"; "/b"; ""].
Proof. reflexivity. Qed.

(** *** Strings *)

Lemma append_cons (c : Ascii.ascii) (a b : string) :
  String c a ++ b = String c (a ++ b).
Proof. reflexivity. Qed.

Lemma append_nil_l (s : string) : "" ++ s = s.
Proof. reflexivity. Qed.

Lemma append_nil_r (s : string) : s ++ "" = s.
Proof.
  induction s as [|c s IH]; [done | by rewrite append_cons, IH].
Qed.

Lemma append_assoc (a b c : string) : (a ++ b) ++ c = a ++ b ++ c.
Proof.
  induction a as [|x a IH]; [done | by rewrite !append_cons, IH].
Qed.

Lemma prefix_nil (s : string) : String.prefix "" s = true.
Proof. by destruct s. Qed.

Lemma prefix_app (a b : string) : String.prefix a (a ++ b) = true.
Proof.
  induction a as [|x a IH]; [apply prefix_nil|].
  rewrite append_cons. simpl.
  destruct (Ascii.ascii_dec x x); [exact IH | done].
Qed.

Lemma contains_prefix (sub s : string) :
  String.prefix sub s = true → PyStr.contains sub s = true.
Proof. intros H. destruct s; cbn [PyStr.contains]; [done | by rewrite H]. Qed.

Lemma contains_app_r (sub a s : string) :
  PyStr.contains sub s = true → PyStr.contains sub (a ++ s) = true.
Proof.
  intros H. induction a as [|x a IH]; [done|].
  rewrite append_cons. simpl. rewrite IH. apply orb_true_r.
Qed.

Lemma contains_middle (sub a b : string) :
  PyStr.contains sub (a ++ sub ++ b) = true.
Proof. apply contains_app_r, contains_prefix, prefix_app. Qed.

(** A one-character text occurs where its character does. *)
Lemma prefix_char (x c : Ascii.ascii) (s : string) :
  String.prefix (String x "") (String c s) = bool_decide (x = c).
Proof.
  simpl. destruct (Ascii.ascii_dec x c) as [->|Hne].
  - by rewrite prefix_nil, bool_decide_eq_true_2.
  - by rewrite bool_decide_eq_false_2.
Qed.

Lemma contains_char_cons (x c : Ascii.ascii) (s : string) :
  PyStr.contains (String x "") (String c s)
  = bool_decide (x = c) || PyStr.contains (String x "") s.
Proof. cbn [PyStr.contains]. by rewrite prefix_char. Qed.

Lemma contains_char_app (x : Ascii.ascii) (a b : string) :
  PyStr.contains (String x "") (a ++ b)
  = PyStr.contains (String x "") a || PyStr.contains (String x "") b.
Proof.
  induction a as [|c a IH].
  - rewrite append_nil_l. simpl. by destruct (PyStr.contains _ b).
  - rewrite append_cons, !contains_char_cons, IH. by rewrite orb_assoc.
Qed.

(** *** [split] *)

Lemma split_aux_length sep skip cur s :
  (1 ≤ length (PyStr.split_aux sep skip cur s))%nat.
Proof.
  revert skip cur. induction s as [|c s IH]; intros skip cur;
    cbn [PyStr.split_aux length]; [lia|].
  destruct skip; [|apply IH].
  destruct (String.prefix sep (String c s)); cbn [length]; [lia | apply IH].
Qed.

Lemma split_aux_found sep cur s :
  sep ≠ "" → PyStr.contains sep s = true →
  (2 ≤ length (PyStr.split_aux sep 0 cur s))%nat.
Proof.
  intros Hsep. revert cur. induction s as [|c s IH]; intros cur.
  - cbn [PyStr.contains]. destruct sep; done.
  - cbn [PyStr.contains PyStr.split_aux].
    destruct (String.prefix sep (String c s)); cbn [orb length].
    + intros _. pose proof (split_aux_length sep (String.length sep - 1) "" s).
      lia.
    + apply IH.
Qed.

(** The first piece begins with the text read so far. *)
Lemma split_aux_head sep skip cur s :
  ∃ more, hd "" (PyStr.split_aux sep skip cur s) = cur ++ more.
Proof.
  revert skip cur. induction s as [|c s IH]; intros skip cur;
    cbn [PyStr.split_aux hd].
  - exists "". by rewrite append_nil_r.
  - destruct skip; [|apply IH].
    destruct (String.prefix sep (String c s)); cbn [hd].
    + exists "". by rewrite append_nil_r.
    + destruct (IH 0%nat (cur ++ String c "")) as [more ->].
      exists (String c more). by rewrite append_assoc.
Qed.

(** Text without the character of a one-character separator, or without
    a slash, is read into the current piece. *)
Lemma split_aux_skip_text (sep : string) (x : Ascii.ascii) rest cur text s :
  sep = String x rest →
  PyStr.contains (String x "") text = false →
  PyStr.split_aux sep 0 cur (text ++ s) = PyStr.split_aux sep 0 (cur ++ text) s.
Proof.
  intros ->. revert cur. induction text as [|c text IH]; intros cur Hc.
  - by rewrite append_nil_l, append_nil_r.
  - rewrite contains_char_cons in Hc.
    apply orb_false_iff in Hc as [Hx Ht]. apply bool_decide_eq_false in Hx.
    rewrite append_cons. cbn [PyStr.split_aux String.prefix].
    destruct (Ascii.ascii_dec x c); [done|].
    rewrite IH by done. by rewrite append_assoc.
Qed.

(** The first piece of a text split at dots has no dot. *)
Lemma split_dot_head cur s :
  PyStr.contains "." cur = false →
  PyStr.contains "." (hd "" (PyStr.split_aux "." 0 cur s)) = false.
Proof.
  revert cur. induction s as [|c s IH]; intros cur Hc; [done|].
  cbn [PyStr.split_aux]. rewrite prefix_char.
  destruct (decide ("."%char = c)) as [<-|Hne].
  - by rewrite bool_decide_eq_true_2.
  - rewrite bool_decide_eq_false_2 by done. apply IH.
    rewrite contains_char_app, Hc, contains_char_cons.
    by rewrite bool_decide_eq_false_2.
Qed.

(** A text is its first piece at dots, then nothing or a dot and more. *)
Lemma split_dot_cut cur s :
  ∃ tail, cur ++ s = hd "" (PyStr.split_aux "." 0 cur s) ++ tail
          ∧ (tail = "" ∨ String.prefix "." tail = true).
Proof.
  revert cur. induction s as [|c s IH]; intros cur.
  - exists "". by split; [|left].
  - cbn [PyStr.split_aux]. rewrite prefix_char.
    destruct (decide ("."%char = c)) as [<-|Hne].
    + rewrite bool_decide_eq_true_2 by done. exists (String "." s).
      split; [done|]. right. simpl. apply prefix_nil.
    + rewrite bool_decide_eq_false_2 by done.
      destruct (IH (cur ++ String c "")) as (tail & Ht & Hp).
      exists tail. split; [|done]. rewrite <- Ht. by rewrite append_assoc.
Qed.

(** With both texts in the address the two length tests of the code hold,
    and the project reference is the first piece at dots of the second
    piece at "//". *)
Lemma editor_url_text (supabase_url : string) :
  PyStr.contains "//" supabase_url = true →
  PyStr.contains "supabase" supabase_url = true →
  get_supabase_sql_editor_url supabase_url
  = sql_editor_url
      (hd "" (PyStr.split "." (nth 1 (PyStr.split "//" supabase_url) ""))).
Proof.
  intros Hs Hsupa. unfold get_supabase_sql_editor_url.
  rewrite Hs, Hsupa. cbn [andb].
  pose proof (split_aux_found "//" "" supabase_url ltac:(done) Hs) as Hlen.
  fold (PyStr.split "//" supabase_url) in Hlen.
  destruct (Nat.ltb_spec 1 (length (PyStr.split "//" supabase_url))) as [_|?];
    [|lia].
  set (domain := nth 1 (PyStr.split "//" supabase_url) "").
  pose proof (split_aux_length "." 0 "" domain) as Hd.
  fold (PyStr.split "." domain) in Hd.
  destruct (Nat.ltb_spec 0 (length (PyStr.split "." domain))) as [_|?]; [|lia].
  by destruct (PyStr.split "." domain).
Qed.

(** X16. The editor URL is the generic dashboard unless the address has
    both "//" and "supabase" in it; when it has, the result is always the
    SQL editor of a project (the two length tests of the code cannot
    fail), and the project reference in it is the second piece of the
    address at "//" up to its first dot, so it has no dot. *)
Theorem editor_url_shape (supabase_url : string) :
  if PyStr.contains "//" supabase_url && PyStr.contains "supabase" supabase_url
  then
    ∃ project_ref tail,
      get_supabase_sql_editor_url supabase_url = sql_editor_url project_ref
      ∧ nth 1 (PyStr.split "//" supabase_url) "" = project_ref ++ tail
      ∧ (tail = "" ∨ String.prefix "." tail = true)
      ∧ PyStr.contains "." project_ref = false
  else get_supabase_sql_editor_url supabase_url = dashboard_url.
Proof.
  destruct (PyStr.contains "//" supabase_url) eqn:Hs;
    [|by unfold get_supabase_sql_editor_url; rewrite Hs].
  destruct (PyStr.contains "supabase" supabase_url) eqn:Hsupa;
    [|by unfold get_supabase_sql_editor_url; rewrite Hs, Hsupa].
  cbn [andb].
  set (domain := nth 1 (PyStr.split "//" supabase_url) "").
  destruct (split_dot_cut "" domain) as (tail & Ht & Hp).
  exists (hd "" (PyStr.split "." domain)), tail.
  split; [by apply editor_url_text|].
  split; [exact Ht|]. split; [exact Hp|]. by apply split_dot_head.
Qed.

(** X17. For an address of the usual form, a scheme without a slash, then
    "//", then a project reference without a dot or a slash, then a dot and
    a domain in which "supabase" occurs, the editor URL is that of the
    project. *)
Theorem editor_url_of_project (scheme project_ref domain : string) :
  PyStr.contains "/" scheme = false →
  PyStr.contains "/" project_ref = false →
  PyStr.contains "." project_ref = false →
  PyStr.contains "supabase" domain = true →
  get_supabase_sql_editor_url (scheme ++ "//" ++ project_ref ++ "." ++ domain)
  = sql_editor_url project_ref.
Proof.
  intros Hscheme Href Hdot Hsupa.
  set (url := scheme ++ "//" ++ project_ref ++ "." ++ domain).
  assert (PyStr.contains "//" url = true) as H1 by apply contains_middle.
  assert (PyStr.contains "supabase" url = true) as H2
    by (unfold url; by do 4 apply contains_app_r).
  rewrite (editor_url_text url H1 H2). f_equal.
  assert (PyStr.split "//" url
          = scheme :: PyStr.split_aux "//" 1 "" ("/" ++ project_ref ++ "." ++ domain))
    as Hparts.
  { unfold PyStr.split, url.
    rewrite (split_aux_skip_text "//" "/" "/" "" scheme) by done.
    rewrite append_nil_l, !append_cons, append_nil_l.
    cbn [PyStr.split_aux String.prefix].
    destruct (Ascii.ascii_dec "/" "/"); [|done].
    by rewrite prefix_nil. }
  rewrite Hparts. cbn [nth].
  rewrite append_cons, append_nil_l. cbn [PyStr.split_aux].
  rewrite (split_aux_skip_text "//" "/" "/" "" project_ref) by done.
  rewrite append_nil_l, append_cons, append_nil_l.
  cbn [PyStr.split_aux String.prefix]. 
  destruct (Ascii.ascii_dec "/" "."); [done|].
  destruct (split_aux_head "//" 0 (project_ref ++ ".") domain) as [more Hm].
  assert (∀ l : list string, nth 0 l "" = hd "" l) as -> by (by intros []).
  rewrite Hm.
  rewrite append_assoc. unfold PyStr.split.
  rewrite (split_aux_skip_text "." "." "" "" project_ref) by done.
  rewrite append_nil_l, append_cons, append_nil_l.
  cbn [PyStr.split_aux String.prefix].
  destruct (Ascii.ascii_dec "." "."); [|done].
  by rewrite prefix_nil.
Qed.

Lemma editor_url_of_project_witness :
  get_supabase_sql_editor_url
    ("https:" ++ "//" ++ "abcd1234" ++ "." ++ "supabase.co")
  = sql_editor_url "abcd1234".
Proof. apply editor_url_of_project; reflexivity. Defined.

(** *** Running SQL *)

Lemma error_prefix (operation_name rest : string) :
  String.prefix ("Error during " ++ operation_name ++ ": ")
    ("Error during " ++ operation_name ++ ": " ++ rest) = true.
Proof.
  replace ("Error during " ++ operation_name ++ ": " ++ rest)
    with (("Error during " ++ operation_name ++ ": ") ++ rest)
    by (by rewrite !append_assoc).
  apply prefix_app.
Qed.

Lemma rpc_not_found_recognised (operation_name : string) :
  shows_setup_warning (rpc_not_found operation_name) = true.
Proof.
  unfold shows_setup_warning, rpc_not_found.
  do 2 apply contains_app_r. reflexivity.
Qed.

(** X18. When the call of exec_sql reports that the function does not
    exist, by an exception or by the error of the response, the operation
    fails with a message on which the page's test for the setup warning
    holds, whatever the name of the operation. *)
Theorem missing_rpc_shows_setup_warning
    (supabase : string → rpc_result) (sql operation_name : string) :
  reports_missing_function (supabase sql) = true →
  fst (execute_sql_in_supabase supabase sql operation_name) = false
  ∧ shows_setup_warning
      (snd (execute_sql_in_supabase supabase sql operation_name)) = true.
Proof.
  unfold execute_sql_in_supabase, reports_missing_function.
  destruct (supabase sql) as [text|[error|]]; [| |done]; intros ->;
    (split; [done | apply rpc_not_found_recognised]).
Qed.

Lemma missing_rpc_shows_setup_warning_witness :
  let supabase := λ _ : string,
    RpcRaised "function exec_sql(query => text) does not exist" in
  fst (execute_sql_in_supabase supabase "DROP TABLE site_pages"
         "Site Pages table drop") = false
  ∧ shows_setup_warning
      (snd (execute_sql_in_supabase supabase "DROP TABLE site_pages"
              "Site Pages table drop")) = true.
Proof.
  intros supabase.
  apply (missing_rpc_shows_setup_warning supabase). reflexivity.
Defined.

(** X19. The operation succeeds exactly when the call returns a response
    without an error, and then the message is the name of the operation
    followed by " completed successfully."; every message of a failure
    begins with "Error during ", the name of the operation and ": ". *)
Theorem execute_sql_messages
    (supabase : string → rpc_result) (sql operation_name : string) :
  let reply := execute_sql_in_supabase supabase sql operation_name in
  (fst reply = true ↔ supabase sql = RpcReturned None)
  ∧ (if fst reply
     then snd reply = operation_name ++ " completed successfully."
     else String.prefix ("Error during " ++ operation_name ++ ": ")
            (snd reply) = true).
Proof.
  unfold execute_sql_in_supabase, rpc_not_found.
  destruct (supabase sql) as [text|[error|]].
  - destruct (PyStr.contains missing_function text); cbn [fst snd];
      (split; [done | apply error_prefix]).
  - destruct (PyStr.contains missing_function (error_text error));
      cbn [fst snd]; (split; [done | apply error_prefix]).
  - cbn [fst snd]. done.
Qed.
